(** * kuduraft consensus core: a shallow embedding of the election and
      replica-state code, with the properties checked against it.

    Sources embedded here:
    - [src/kudu/consensus/leader_election.cc]: [VoteCounter],
      [FlexibleVoteCounter] (static quorum modes), [LeaderElection];
    - [src/kudu/consensus/raft_consensus.cc]: term and vote bookkeeping,
      [RequestVote], [StartElection], [DoElectionCallback], the follower
      update path and the configuration-change entry points.

    Conventions.  C++ [int] and [int64_t] values are modelled as [Z]; the code
    only compares them and adds or subtracts one, and signed overflow (which is
    undefined behaviour in C++) is outside the model.  [std::map] and
    [std::unordered_map] keyed by strings are [gmap string _].  A function that
    returns a [Status] and writes through out-parameters returns a record (or a
    tuple) holding the status, the out-parameters and the new object state.
    A [CHECK] failure or a [FindOrDie] miss aborts the process: such functions
    return an [option], [None] standing for the abort.  Logging, tracing and
    metrics are left out. *)

From stdpp Require Import gmap strings list relations.
From Stdlib Require Import ZArith Lia Sorted.

Open Scope Z_scope.

(** ** kudu::Status *)

Inductive Status : Type :=
| OK
| IllegalState (msg : string)
| InvalidArgument (msg : string)
| ServiceUnavailable (msg : string)
| Aborted (msg : string)
| NotFound (msg : string)
| Corruption (msg : string)
| ConfigurationError (msg : string).

Definition ok (s : Status) : bool :=
  match s with OK => true | _ => false end.

Definition IsIllegalState (s : Status) : bool :=
  match s with IllegalState _ => true | _ => false end.

Definition IsInvalidArgument (s : Status) : bool :=
  match s with InvalidArgument _ => true | _ => false end.

(** ** leader_election.cc: VoteCounter *)

Module VoteCounter.

Inductive ElectionVote : Type := VOTE_DENIED | VOTE_GRANTED.

#[global] Instance ElectionVote_eq_dec : EqDecision ElectionVote.
Proof. solve_decision. Defined.

Definition ElectionVote_eqb (a b : ElectionVote) : bool :=
  match a, b with
  | VOTE_DENIED, VOTE_DENIED | VOTE_GRANTED, VOTE_GRANTED => true
  | _, _ => false
  end.

(** [VoteInfo]: the vote and the fields the counters read.  The
    last-known-leader and vote-history payloads are only consulted by the
    dynamic-mode history reconstruction and are not carried here. *)
Record VoteInfo : Type := mkVoteInfo {
  vote : ElectionVote;
  is_candidate_removed : bool;
  last_pruned_term : Z
}.

Record t : Type := mk {
  num_voters_ : Z;
  is_candidate_removed_ : bool;
  majority_size_ : Z;
  votes_ : gmap string VoteInfo;
  yes_votes_ : Z;
  no_votes_ : Z
}.

(** The constructor; its three [CHECK]s abort on a bad size. *)
Definition new (num_voters majority_size : Z) : option t :=
  if (majority_size <=? num_voters) && (0 <? num_voters) && (0 <? majority_size)
  then Some (mk num_voters false majority_size ∅ 0 0)
  else None.

(** What [RegisterVote] hands back: the status, the [*is_duplicate]
    out-parameter ([None] when the call returns without writing it) and the
    counter after the call. *)
Record RegisterVoteResult : Type := mkResult {
  rv_status : Status;
  rv_is_duplicate : option bool;
  rv_counter : t
}.

Definition msg_changed_vote : string :=
  "Peer voted a different way twice in the same election.".
Definition msg_too_many_voters : string :=
  "Vote would cause the number of votes to exceed the expected number of voters.".

Definition RegisterVote (c : t) (voter_uuid : string) (vote_info : VoteInfo)
  : RegisterVoteResult :=
  match votes_ c !! voter_uuid with
  | Some prior_vote_info =>
      (* Handle repeated votes; detect changed votes. *)
      if negb (ElectionVote_eqb (vote prior_vote_info) (vote vote_info))
      then mkResult (InvalidArgument msg_changed_vote) None c
      else mkResult OK (Some true) c
  | None =>
      (* Sanity check: more unique voters than allowed. *)
      if yes_votes_ c + no_votes_ c =? num_voters_ c
      then mkResult (InvalidArgument msg_too_many_voters) None c
      else
        let votes' := <[voter_uuid := vote_info]> (votes_ c) in
        match vote vote_info with
        | VOTE_GRANTED =>
            mkResult OK (Some false)
              (mk (num_voters_ c) (is_candidate_removed_ c) (majority_size_ c)
                  votes' (yes_votes_ c + 1) (no_votes_ c))
        | VOTE_DENIED =>
            mkResult OK (Some false)
              (mk (num_voters_ c)
                  (is_candidate_removed_ c || is_candidate_removed vote_info)
                  (majority_size_ c) votes' (yes_votes_ c) (no_votes_ c + 1))
        end
  end.

Definition IsDecided (c : t) : bool :=
  (majority_size_ c <=? yes_votes_ c)
  || (num_voters_ c - majority_size_ c <? no_votes_ c).

Definition msg_not_decided : string := "Vote not yet decided".

(** [GetDecision]: the status and the [*decision] out-parameter. *)
Definition GetDecision (c : t) : Status * option ElectionVote :=
  if majority_size_ c <=? yes_votes_ c then (OK, Some VOTE_GRANTED)
  else if num_voters_ c - majority_size_ c <? no_votes_ c then (OK, Some VOTE_DENIED)
  else (IllegalState msg_not_decided, None).

Definition IsCandidateRemoved (c : t) : bool := is_candidate_removed_ c.
Definition GetTotalVotesCounted (c : t) : Z := yes_votes_ c + no_votes_ c.
Definition GetTotalExpectedVotes (c : t) : Z := num_voters_ c.
Definition AreAllVotesIn (c : t) : bool := GetTotalVotesCounted c =? num_voters_ c.

(** A run of the counter: the votes are registered one after the other; a
    rejected registration leaves the counter as it was (the caller,
    [RecordVoteUnlocked], logs and goes on). *)
Definition register_all (c : t) (l : list (string * VoteInfo)) : t :=
  fold_left (fun c v => rv_counter (RegisterVote c v.1 v.2)) l c.

End VoteCounter.

(** ** leader_election.cc: FlexibleVoteCounter, static quorum modes *)

Module FlexibleVoteCounter.
Import VoteCounter.

Inductive QuorumMode : Type :=
| STATIC_DISJUNCTION
| STATIC_CONJUNCTION
| SINGLE_REGION_DYNAMIC.

#[global] Instance QuorumMode_eq_dec : EqDecision QuorumMode.
Proof. solve_decision. Defined.

(** [CommitRulePredicatePB]: the listed regions and [regions_subset_size]. *)
Record CommitRulePredicatePB : Type := mkPredicate {
  regions : list string;
  regions_subset_size : Z
}.

Definition regions_size (p : CommitRulePredicatePB) : Z :=
  Z.of_nat (length (regions p)).

Record CommitRulePB : Type := mkCommitRule {
  mode : QuorumMode;
  rule_predicates : list CommitRulePredicatePB
}.

(** The counter: the base [VoteCounter] part, the commit rule of [config_] and
    the per-region books.  [uuid_to_quorum_id_] and [voter_distribution_] are
    filled by the constructor from the configuration. *)
Record t : Type := mk {
  base : VoteCounter.t;
  commit_rule : CommitRulePB;
  voter_distribution_ : gmap string Z;
  yes_vote_count_ : gmap string Z;
  no_vote_count_ : gmap string Z;
  uuid_to_quorum_id_ : gmap string string;
  uuid_to_last_term_pruned_ : gmap string Z
}.

Definition msg_uuid_not_in_config : string := "UUID not present in config.".

(** [InsertIfNotPresent(&m, k, 0); m[k]++]. *)
Definition bump (m : gmap string Z) (k : string) : gmap string Z :=
  match m !! k with
  | Some n => <[k := n + 1]> m
  | None => <[k := 0 + 1]> m
  end.

(** [FlexibleVoteCounter::RegisterVote].  The base call has already stored
    the vote when the region lookup fails, so the base part of the result is
    the updated one on that path too. *)
Definition RegisterVote (c : t) (voter_uuid : string) (vote_info : VoteInfo)
  : Status * option bool * t :=
  let r := VoteCounter.RegisterVote (base c) voter_uuid vote_info in
  let c0 := mk (rv_counter r) (commit_rule c) (voter_distribution_ c)
               (yes_vote_count_ c) (no_vote_count_ c) (uuid_to_quorum_id_ c)
               (uuid_to_last_term_pruned_ c) in
  if negb (ok (rv_status r)) then (rv_status r, rv_is_duplicate r, c0)
  else if bool_decide (rv_is_duplicate r = Some true) then (rv_status r, rv_is_duplicate r, c0)
  else
    match uuid_to_quorum_id_ c !! voter_uuid with
    | None => (InvalidArgument msg_uuid_not_in_config, rv_is_duplicate r, c0)
    | Some quorum_id =>
        let pruned := <[voter_uuid := last_pruned_term vote_info]> (uuid_to_last_term_pruned_ c) in
        match vote vote_info with
        | VOTE_GRANTED =>
            (rv_status r, rv_is_duplicate r,
             mk (rv_counter r) (commit_rule c) (voter_distribution_ c)
                (bump (yes_vote_count_ c) quorum_id) (no_vote_count_ c)
                (uuid_to_quorum_id_ c) pruned)
        | VOTE_DENIED =>
            (rv_status r, rv_is_duplicate r,
             mk (rv_counter r) (commit_rule c) (voter_distribution_ c)
                (yes_vote_count_ c) (bump (no_vote_count_ c) quorum_id)
                (uuid_to_quorum_id_ c) pruned)
        end
    end.

(** [FetchVotesRemainingInRegion]; the three [FindOrDie] lookups abort on a
    region that is not tracked. *)
Definition FetchVotesRemainingInRegion (c : t) (region : string) : option Z :=
  regional_yes_count ← yes_vote_count_ c !! region;
  regional_no_count ← no_vote_count_ c !! region;
  total_region_count ← voter_distribution_ c !! region;
  Some (total_region_count - regional_yes_count - regional_no_count).

(** The loop shared by [FetchRegionalPrunedCounts] and
    [FetchRegionalUnprunedCounts] over the entries of
    [uuid_to_last_term_pruned_]: an entry that is counted bumps the count of
    its voter's region; [uuid_to_quorum_id_.at(uuid)] throws on an unknown
    voter, which ends the process. *)
Fixpoint count_by_region (c : t) (counted : Z -> bool) (entries : list (string * Z))
    (region_counts : gmap string Z) : option (gmap string Z) :=
  match entries with
  | [] => Some region_counts
  | (uuid, lpt) :: rest =>
      if counted lpt then
        match uuid_to_quorum_id_ c !! uuid with
        | None => None
        | Some region => count_by_region c counted rest (bump region_counts region)
        end
      else count_by_region c counted rest region_counts
  end.

(** [FetchRegionalPrunedCounts]: by region, the voters whose history is pruned
    above [term] ([lpt > term]). *)
Definition FetchRegionalPrunedCounts (c : t) (term : Z) : option (gmap string Z) :=
  count_by_region c (fun lpt => term <? lpt) (map_to_list (uuid_to_last_term_pruned_ c)) ∅.

(** [FetchRegionalUnprunedCounts]: by region, the voters with [lpt <= term]. *)
Definition FetchRegionalUnprunedCounts (c : t) (term : Z) : option (gmap string Z) :=
  count_by_region c (fun lpt => lpt <=? term) (map_to_list (uuid_to_last_term_pruned_ c)) ∅.

(** [FindWithDefault(counts, region, 0)], as the callers read these maps. *)
Definition FindWithDefault (counts : gmap string Z) (region : string) : Z :=
  match counts !! region with Some n => n | None => 0 end.

(** [DetermineQuorumIdForUUID]: the empty string for an unknown voter. *)
Definition DetermineQuorumIdForUUID (c : t) (uuid : string) : string :=
  match uuid_to_quorum_id_ c !! uuid with Some q => q | None => "" end.

Definition msg_next_leader_not_in_config : string :=
  "Potential next leader not in configuration".

(** [ExtendNextLeaderRegions]: the quorum ids of the given voters are added to
    the set; the status and the set as the call leaves it. *)
Fixpoint ExtendNextLeaderRegions (c : t) (next_leader_uuids : list string)
    (next_leader_quorum_ids : gset string) : Status * gset string :=
  match next_leader_uuids with
  | [] => (OK, next_leader_quorum_ids)
  | leader_uuid :: rest =>
      let leader_quorum_id := DetermineQuorumIdForUUID c leader_uuid in
      if bool_decide (leader_quorum_id = "")
      then (IllegalState msg_next_leader_not_in_config, next_leader_quorum_ids)
      else ExtendNextLeaderRegions c rest ({[leader_quorum_id]} ∪ next_leader_quorum_ids)
  end.

Section Static.

(** [MajoritySize] is declared in quorum_util.h ("Calculates size of a
    configuration majority based on # of voters"); its body is not among the
    sources, so the counter is parameterised by it. *)
Variable MajoritySize : Z -> Z.

(** The body of the loop of [IsMajoritySatisfiedInRegions]: for one region,
    whether the regional majority is satisfied and whether it still can be.
    The three [FindOrDie] lookups abort when the region is not tracked. *)
Definition region_majority (c : t) (region : string) : option (bool * bool) :=
  if bool_decide (region = "") then Some (false, false)
  else
    regional_yes_count ← yes_vote_count_ c !! region;
    regional_no_count ← no_vote_count_ c !! region;
    total_region_count ← voter_distribution_ c !! region;
    let region_majority_size := MajoritySize total_region_count in
    let quorum_satisfied := negb (regional_yes_count <? region_majority_size) in
    let quorum_satisfaction_possible :=
      negb (negb quorum_satisfied
            && (total_region_count <? regional_no_count + region_majority_size)) in
    Some (quorum_satisfied, quorum_satisfaction_possible).

Definition IsMajoritySatisfiedInRegions (c : t) (regions : list string)
  : option (list (bool * bool)) :=
  match regions with
  | [] => None                                   (* CHECK(!regions.empty()) *)
  | _ => mapM (region_majority c) regions
  end.

Definition IsMajoritySatisfiedInRegion (c : t) (region : string) : option (bool * bool) :=
  results ← IsMajoritySatisfiedInRegions c [region];
  match results with
  | [r] => Some r                                (* CHECK_EQ(1, results.size()) *)
  | _ => None
  end.

(** The inner loop of [IsStaticQuorumSatisfied]: the two counters over the
    regions of one predicate. *)
Fixpoint count_regions (c : t) (regions : list string)
    (num_regions_satisfied num_regions_impossible_to_satisfy : Z) : option (Z * Z) :=
  match regions with
  | [] => Some (num_regions_satisfied, num_regions_impossible_to_satisfy)
  | region :: rest =>
      match IsMajoritySatisfiedInRegion c region with
      | None => None
      | Some result =>
          count_regions c rest
            (if result.1 then num_regions_satisfied + 1 else num_regions_satisfied)
            (if negb result.2 then num_regions_impossible_to_satisfy + 1
             else num_regions_impossible_to_satisfy)
      end
  end.

(** The outer loop: the two flags over the rule predicates. *)
Fixpoint static_predicates (c : t) (preds : list CommitRulePredicatePB)
    (quorum_satisfied quorum_satisfaction_possible : bool) : option (bool * bool) :=
  match preds with
  | [] => Some (quorum_satisfied, quorum_satisfaction_possible)
  | rule_predicate :: rest =>
      let regions_subset_size :=
        regions_size rule_predicate + 1 - regions_subset_size rule_predicate in
      match count_regions c (regions rule_predicate) 0 0 with
      | None => None
      | Some (num_regions_satisfied, num_regions_impossible_to_satisfy) =>
          static_predicates c rest
            (if num_regions_satisfied <? regions_subset_size
             then false else quorum_satisfied)
            (if regions_size rule_predicate - num_regions_impossible_to_satisfy
                <? regions_subset_size
             then false else quorum_satisfaction_possible)
      end
  end.

Definition is_static_mode (m : QuorumMode) : bool :=
  match m with
  | STATIC_DISJUNCTION | STATIC_CONJUNCTION => true
  | SINGLE_REGION_DYNAMIC => false
  end.

Definition IsStaticQuorumSatisfied (c : t) : option (bool * bool) :=
  if negb (is_static_mode (mode (commit_rule c))) then None      (* CHECK *)
  else
    match rule_predicates (commit_rule c) with
    | [] => None                                  (* CHECK(size > 0) *)
    | preds => static_predicates c preds true true
    end.

(** [IsDynamicQuorumSatisfied] (the pessimistic quorum, the last-leader path
    and the voting-history reconstruction) is outside the static modes and is
    taken as given. *)
Variable IsDynamicQuorumSatisfied : t -> option (bool * bool).

Definition GetQuorumState (c : t) : option (bool * bool) :=
  if is_static_mode (mode (commit_rule c)) then IsStaticQuorumSatisfied c
  else IsDynamicQuorumSatisfied c.

Definition IsDecided (c : t) : option bool :=
  match GetQuorumState c with
  | None => None
  | Some quorum_state => Some (quorum_state.1 || negb quorum_state.2)
  end.

Definition GetDecision (c : t) : option (Status * option ElectionVote) :=
  match GetQuorumState c with
  | None => None
  | Some quorum_state =>
      if quorum_state.1 then Some (OK, Some VOTE_GRANTED)
      else if negb quorum_state.2 then Some (OK, Some VOTE_DENIED)
      else Some (IllegalState msg_not_decided, None)
  end.

(** [IsMajoritySatisfiedInAllRegions] over the regions of a set (given as
    the list of its elements). *)
Definition IsMajoritySatisfiedInAllRegions (c : t) (regions : list string)
  : option (bool * bool) :=
  results ← IsMajoritySatisfiedInRegions c regions;
  Some (foldl (fun acc result => (acc.1 && result.1, acc.2 && result.2))
              (true, true) results).

(** The regions of [voter_distribution_]. *)
Definition distribution_regions (c : t) : list string :=
  (map_to_list (voter_distribution_ c)).*1.

Definition IsPessimisticQuorumSatisfied (c : t) : option (bool * bool) :=
  IsMajoritySatisfiedInAllRegions c (distribution_regions c).

Definition IsMajoritySatisfiedInMajorityOfRegions (c : t) : option (bool * bool) :=
  let regions_vector := distribution_regions c in
  let num_regions := Z.of_nat (length regions_vector) in
  results ← IsMajoritySatisfiedInRegions c regions_vector;
  let num_majority_regions := MajoritySize num_regions in
  let satisfied_count := Z.of_nat (length (filter (fun r => r.1 = true) results)) in
  let satisfaction_possible_count :=
    Z.of_nat (length (filter (fun r => r.2 = true) results)) in
  Some (num_majority_regions <=? satisfied_count,
        num_majority_regions <=? satisfaction_possible_count).

(** [DoHistoricalVotesSatisfyMajorityInRegion]. *)
Definition DoHistoricalVotesSatisfyMajorityInRegion (c : t) (region : string)
    (votes_received pruned_count : Z) : option (bool * bool) :=
  total_voters ← voter_distribution_ c !! region;
  let commit_requirement := MajoritySize total_voters in
  votes_remaining ← FetchVotesRemainingInRegion c region;
  Some (negb (votes_received <? commit_requirement),
        negb (votes_received + votes_remaining + pruned_count <? commit_requirement)).

(** [AreMajoritiesSatisfied]; the two flags are
    [FLAGS_srd_strict_leader_election_quorum] and
    [FLAGS_include_candidate_region]. *)
Definition AreMajoritiesSatisfied (srd_strict_leader_election_quorum
    include_candidate_region : bool) (c : t) (last_known_leader_regions : list string)
    (candidate_region : string) : option (bool * bool) :=
  result ← IsMajoritySatisfiedInAllRegions c last_known_leader_regions;
  result ← (if srd_strict_leader_election_quorum then
              majority_result ← IsMajoritySatisfiedInMajorityOfRegions c;
              Some (result.1 && majority_result.1, result.2 && majority_result.2)
            else Some result);
  if include_candidate_region
     && negb (bool_decide (candidate_region ∈ last_known_leader_regions))
  then
    candidate_result ← IsMajoritySatisfiedInRegion c candidate_region;
    Some (result.1 && candidate_result.1, result.2 && candidate_result.2)
  else Some result.

End Static.

End FlexibleVoteCounter.

(** ** Protocol messages (the fields the modelled code reads or writes) *)

Module PB.

(** [OpId]: (term, index); [MinimumOpId] is (0, 0). *)
Record OpId : Type := mkOpId { term : Z; index : Z }.

Definition MinimumOpId : OpId := mkOpId 0 0.

(** Modelled from the spec: opid_util.cc is not among the sources; the spec
    gives the order on OpIds as lexicographic on (term, index). *)
Definition OpIdLessThan (a b : OpId) : bool :=
  (term a <? term b) || ((term a =? term b) && (index a <? index b)).

Inductive ConsensusErrorCode : Type :=
| UNKNOWN
| INVALID_TERM
| LAST_OPID_TOO_OLD
| ALREADY_VOTED
| NOT_IN_QUORUM
| PRECEDING_ENTRY_DIDNT_MATCH
| LEADER_IS_ALIVE
| CONSENSUS_BUSY
| CANNOT_PREPARE.

Record VoteRequestPB : Type := mkVoteRequest {
  candidate_uuid : string;
  candidate_term : Z;
  candidate_last_received : OpId;         (* candidate_status().last_received() *)
  ignore_live_leader : bool;
  is_pre_election : bool
}.

Record VoteResponsePB : Type := mkVoteResponse {
  responder_uuid : string;
  responder_term : Z;
  vote_granted : bool;
  consensus_error : option (ConsensusErrorCode * Status);
  has_error : bool;                        (* the tablet-level [error] field *)
  voter_context_is_candidate_removed : option bool;
  response_last_pruned_term : Z
}.

(** A response with no field set (protobuf defaults). *)
Definition empty_VoteResponsePB : VoteResponsePB :=
  mkVoteResponse "" 0 false None false None 0.

End PB.

(** ** leader_election.cc: LeaderElection *)

Module LeaderElection.
Import VoteCounter PB.

(** The virtual interface of [VoteCounter] that the election drives.  The
    flexible counter's decision procedure can abort on an untracked region,
    hence the [option]s. *)
Class Counter (C : Type) : Type := {
  counter_RegisterVote : C -> string -> VoteInfo -> Status * option bool * C;
  counter_IsDecided : C -> option bool;
  counter_GetDecision : C -> option (Status * option ElectionVote);
  counter_IsCandidateRemoved : C -> bool
}.

#[global] Instance classic_counter : Counter VoteCounter.t := {
  counter_RegisterVote c uuid info :=
    let r := VoteCounter.RegisterVote c uuid info in
    (rv_status r, rv_is_duplicate r, rv_counter r);
  counter_IsDecided c := Some (VoteCounter.IsDecided c);
  counter_GetDecision c := Some (VoteCounter.GetDecision c);
  counter_IsCandidateRemoved := VoteCounter.IsCandidateRemoved
}.

Record ElectionResult : Type := mkElectionResult {
  vote_request : VoteRequestPB;
  decision : ElectionVote;
  highest_voter_term : Z;
  message : string;
  result_is_candidate_removed : bool
}.

(** [VoterState]: per-voter RPC bookkeeping; [rpc_ok] and [response] are
    written by the transport before [VoteResponseRpcCallback] runs. *)
Record VoterState : Type := mkVoterState {
  peer_uuid : string;
  proxy_status_ok : bool;
  rpc_ok : bool;
  response : VoteResponsePB
}.

Section Election.
Context {C : Type} `{Counter C}.

Record t : Type := mk {
  has_responded_ : bool;
  request_ : VoteRequestPB;
  vote_counter_ : C;
  highest_voter_term_ : Z;
  result_ : option ElectionResult;
  voter_state_ : gmap string VoterState
}.

Definition election_term (e : t) : Z := candidate_term (request_ e).

Definition set_counter (e : t) (c : C) : t :=
  mk (has_responded_ e) (request_ e) c (highest_voter_term_ e) (result_ e) (voter_state_ e).

Definition set_result (e : t) (r : ElectionResult) : t :=
  mk (has_responded_ e) (request_ e) (vote_counter_ e) (highest_voter_term_ e)
     (Some r) (voter_state_ e).

Definition set_highest_voter_term (e : t) (z : Z) : t :=
  mk (has_responded_ e) (request_ e) (vote_counter_ e) z (result_ e) (voter_state_ e).

Definition set_has_responded (e : t) : t :=
  mk true (request_ e) (vote_counter_ e) (highest_voter_term_ e) (result_ e) (voter_state_ e).

(** [RecordVoteUnlocked]: the counter is an object updated in place, so the
    election keeps whatever [RegisterVote] left, also when it reports an
    error. *)
Definition RecordVoteUnlocked (e : t) (state : VoterState) (v : ElectionVote) : t :=
  let vote_info :=
    mkVoteInfo v
      (match voter_context_is_candidate_removed (response state) with
       | Some b => b
       | None => false
       end)
      (response_last_pruned_term (response state)) in
  let '(_, _, c') := counter_RegisterVote (vote_counter_ e) (peer_uuid state) vote_info in
  set_counter e c'.

Definition msg_higher_term : string := "Vote denied by peer with higher term.".

Definition HandleHigherTermUnlocked (e : t) (state : VoterState) : t :=
  match result_ e with
  | Some _ => e
  | None =>
      let is_candidate_removed :=
        match voter_context_is_candidate_removed (response state) with
        | Some true => true
        | _ => false
        end in
      set_result e
        (mkElectionResult (request_ e) VOTE_DENIED
           (responder_term (response state)) msg_higher_term is_candidate_removed)
  end.

Definition HandleVoteGrantedUnlocked (e : t) (state : VoterState) : t :=
  RecordVoteUnlocked e state VOTE_GRANTED.

Definition HandleVoteDeniedUnlocked (e : t) (state : VoterState) : t :=
  if election_term e <? responder_term (response state)
  then HandleHigherTermUnlocked e state
  else RecordVoteUnlocked e state VOTE_DENIED.

Definition msg_won : string := "achieved majority votes".
Definition msg_lost : string := "could not achieve majority".

(** [CheckForDecision]: the election afterwards and, when the decision
    callback is invoked, the result it is invoked with.  [None] is an abort
    ([CHECK_OK] on [GetDecision], or an abort inside the counter). *)
Definition CheckForDecision (e : t) : option (t * option ElectionResult) :=
  e1 ← match result_ e with
       | Some _ => Some e
       | None =>
           decided ← counter_IsDecided (vote_counter_ e);
           if decided : bool then
             d ← counter_GetDecision (vote_counter_ e);
             match d with
             | (OK, Some dec) =>
                 let msg := match dec with VOTE_GRANTED => msg_won | VOTE_DENIED => msg_lost end in
                 let is_candidate_removed :=
                   match dec with
                   | VOTE_DENIED => counter_IsCandidateRemoved (vote_counter_ e)
                   | VOTE_GRANTED => false
                   end in
                 Some (set_result e
                         (mkElectionResult (request_ e) dec (highest_voter_term_ e)
                            msg is_candidate_removed))
             | _ => None
             end
           else Some e
       end;
  match result_ e1 with
  | Some r => if has_responded_ e1 then Some (e1, None)
              else Some (set_has_responded e1, Some r)
  | None => Some (e1, None)
  end.

(** [VoteResponseRpcCallback]: [FindOrDie] on the voter, the four-way case
    analysis on the RPC outcome under the lock, then [CheckForDecision]. *)
Definition VoteResponseRpcCallback (e : t) (voter_uuid : string)
  : option (t * option ElectionResult) :=
  state ← voter_state_ e !! voter_uuid;
  let e1 :=
    if negb (rpc_ok state) then RecordVoteUnlocked e state VOTE_DENIED
    else if has_error (response state) then RecordVoteUnlocked e state VOTE_DENIED
    else if negb (bool_decide (voter_uuid = responder_uuid (response state)))
    then RecordVoteUnlocked e state VOTE_DENIED
    else
      let e0 := set_highest_voter_term e
                  (Z.max (highest_voter_term_ e) (responder_term (response state))) in
      if vote_granted (response state) then HandleVoteGrantedUnlocked e0 state
      else HandleVoteDeniedUnlocked e0 state in
  CheckForDecision e1.

(** The transport completing the RPC to [voter_uuid]: it stores the outcome in
    the voter's state, then the callback runs. *)
Definition rpc_completes (e : t) (voter_uuid : string) (rpc_status_ok : bool)
    (resp : VoteResponsePB) : option (t * option ElectionResult) :=
  state ← voter_state_ e !! voter_uuid;
  let state' := mkVoterState (peer_uuid state) (proxy_status_ok state) rpc_status_ok resp in
  VoteResponseRpcCallback
    (mk (has_responded_ e) (request_ e) (vote_counter_ e) (highest_voter_term_ e)
        (result_ e) (<[voter_uuid := state']> (voter_state_ e)))
    voter_uuid.

End Election.

Arguments t C : clear implicits.

End LeaderElection.

(** ** raft_consensus.cc: the replica state *)

Module RaftConsensus.
Import PB.

Inductive State : Type :=
| kNew | kInitialized | kRunning | kStopping | kStopped | kShutdown.

Inductive FlushToDisk : Type := SKIP_FLUSH_TO_DISK | FLUSH_TO_DISK.

Inductive ElectionMode : Type :=
| NORMAL_ELECTION | PRE_ELECTION | ELECT_EVEN_IF_LEADER_IS_ALIVE.

Inductive MemberType : Type := VOTER | NON_VOTER.

Inductive Role : Type := LEADER | FOLLOWER | LEARNER | NON_PARTICIPANT.

(** [MonoTime], with its two sentinels. *)
Inductive MonoTime : Type := TimeMin | TimeAt (t : Z) | TimeMax.

(** [MonoTime::Now() < t] for a clock reading [now]. *)
Definition now_before (now : Z) (t : MonoTime) : bool :=
  match t with
  | TimeMin => false
  | TimeAt z => now <? z
  | TimeMax => true
  end.

Record RaftPeerPB : Type := mkPeer {
  permanent_uuid : string;
  member_type : MemberType;
  region : string;                        (* attrs().region() *)
  quorum_id : string                      (* attrs().quorum_id() *)
}.

Record RaftConfigPB : Type := mkConfig {
  opid_index : option Z;
  peers : list RaftPeerPB;
  unsafe_config_change : bool;
  voter_distribution : gmap string Z;
  commit_rule_mode : option FlexibleVoteCounter.QuorumMode;
  use_quorum_id : bool                    (* IsUseQuorumId(commit_rule()) *)
}.

#[global] Instance MemberType_eq_dec : EqDecision MemberType.
Proof. solve_decision. Defined.

#[global] Instance RaftPeerPB_eq_dec : EqDecision RaftPeerPB.
Proof. solve_decision. Defined.

#[global] Instance RaftConfigPB_eq_dec : EqDecision RaftConfigPB.
Proof. solve_decision. Defined.

(** A default-constructed [RaftConfigPB]. *)
Definition empty_RaftConfigPB : RaftConfigPB :=
  mkConfig None [] false ∅ None false.

Definition find_peer (uuid : string) (config : RaftConfigPB) : option RaftPeerPB :=
  List.find (fun p => bool_decide (permanent_uuid p = uuid)) (peers config).

(** Modelled from the spec: quorum_util.cc is not among the sources; these
    follow the declarations and comments of quorum_util.h (membership is by
    permanent UUID among the peers of the configuration). *)
Definition IsRaftConfigMember (uuid : string) (config : RaftConfigPB) : bool :=
  bool_decide (is_Some (find_peer uuid config)).

Definition IsRaftConfigVoter (uuid : string) (config : RaftConfigPB) : bool :=
  match find_peer uuid config with
  | Some p => match member_type p with VOTER => true | NON_VOTER => false end
  | None => false
  end.

(** Modelled from the spec: [GetConsensusRole] as quorum_util.h documents it:
    NON_PARTICIPANT for an empty UUID or a non-member whoever the leader is,
    LEARNER for a non-voter whoever the leader is, otherwise LEADER or
    FOLLOWER by comparison with [leader_uuid]. *)
Definition GetConsensusRole (peer_uuid leader_uuid : string) (config : RaftConfigPB) : Role :=
  if bool_decide (peer_uuid = "") then NON_PARTICIPANT
  else
    match find_peer peer_uuid config with
    | None => NON_PARTICIPANT
    | Some p =>
        match member_type p with
        | NON_VOTER => LEARNER
        | VOTER => if bool_decide (peer_uuid = leader_uuid) then LEADER else FOLLOWER
        end
    end.

Definition IsVoterRole (r : Role) : bool :=
  match r with LEADER | FOLLOWER => true | _ => false end.

(** Modelled from the spec: consensus_meta.cc is not among the sources.  The
    consensus metadata is the record of section 6 (current term, optional
    vote, configurations, leader); its setters assign one field each and
    [Flush] writes the whole record durably. *)
Record ConsensusMetadata : Type := mkCMeta {
  current_term : Z;
  voted_for : option string;
  leader_uuid : string;
  committed_config : RaftConfigPB;
  pending_config : option RaftConfigPB;
  removed_peers : list string
}.

Definition set_current_term (cm : ConsensusMetadata) (new_term : Z) : ConsensusMetadata :=
  mkCMeta new_term (voted_for cm) (leader_uuid cm) (committed_config cm)
          (pending_config cm) (removed_peers cm).

Definition clear_voted_for (cm : ConsensusMetadata) : ConsensusMetadata :=
  mkCMeta (current_term cm) None (leader_uuid cm) (committed_config cm)
          (pending_config cm) (removed_peers cm).

Definition set_voted_for (cm : ConsensusMetadata) (uuid : string) : ConsensusMetadata :=
  mkCMeta (current_term cm) (Some uuid) (leader_uuid cm) (committed_config cm)
          (pending_config cm) (removed_peers cm).

Definition set_leader_uuid (cm : ConsensusMetadata) (uuid : string) : ConsensusMetadata :=
  mkCMeta (current_term cm) (voted_for cm) uuid (committed_config cm)
          (pending_config cm) (removed_peers cm).

Definition set_pending_config (cm : ConsensusMetadata) (c : RaftConfigPB) : ConsensusMetadata :=
  mkCMeta (current_term cm) (voted_for cm) (leader_uuid cm) (committed_config cm)
          (Some c) (removed_peers cm).

(** Modelled from the spec: the setters of the configurations (the active
    configuration is the pending one when there is one, the committed one
    otherwise) and of the removed-peers list, which is extended at its end. *)
Definition set_committed_config (cm : ConsensusMetadata) (c : RaftConfigPB)
  : ConsensusMetadata :=
  mkCMeta (current_term cm) (voted_for cm) (leader_uuid cm) c
          (pending_config cm) (removed_peers cm).

Definition clear_pending_config (cm : ConsensusMetadata) : ConsensusMetadata :=
  mkCMeta (current_term cm) (voted_for cm) (leader_uuid cm) (committed_config cm)
          None (removed_peers cm).

Definition InsertIntoRemovedPeersList (cm : ConsensusMetadata) (uuids : list string)
  : ConsensusMetadata :=
  mkCMeta (current_term cm) (voted_for cm) (leader_uuid cm) (committed_config cm)
          (pending_config cm) (removed_peers cm ++ uuids).

Definition has_voted_for (cm : ConsensusMetadata) : bool :=
  match voted_for cm with Some _ => true | None => false end.

Definition has_pending_config (cm : ConsensusMetadata) : bool :=
  match pending_config cm with Some _ => true | None => false end.

Definition ActiveConfig (cm : ConsensusMetadata) : RaftConfigPB :=
  match pending_config cm with Some c => c | None => committed_config cm end.

(** [set_active_config]: the pending configuration when there is one, the
    committed one otherwise. *)
Definition set_active_config (cm : ConsensusMetadata) (c : RaftConfigPB)
  : ConsensusMetadata :=
  if has_pending_config cm then set_pending_config cm c else set_committed_config cm c.

Definition IsPeerRemoved (cm : ConsensusMetadata) (uuid : string) : bool :=
  bool_decide (uuid ∈ removed_peers cm).

(** What the modelled code reads from the replication queue and from the
    pending rounds (consensus_queue.cc and pending_rounds.cc are not among
    the sources): one field per accessor. *)
Record QueueView : Type := mkQueue {
  GetLastOpIdInLog : OpId;
  GetCommittedIndex : Z;
  IsCommittedIndexInCurrentTerm : bool;
  IsInLeaderMode : bool;
  GetNextOpId : OpId
}.

Record PendingView : Type := mkPending {
  GetLastPendingTransactionOpId : OpId;
  pending_GetCommittedIndex : Z;
  GetPendingOpByIndexOrNull : Z -> option OpId    (* the id of the round found *)
}.

(** The replica.  [durable_] is the consensus metadata as the last
    [cmeta_->Flush()] wrote it and [flush_count_] counts the flushes;
    [term_advancement_callbacks_] lists the terms handed to
    [ScheduleTermAdvancementCallback].  The failure-detector timer is not
    modelled. *)
Record t : Type := mk {
  state_ : State;
  local_uuid : string;                    (* peer_uuid() *)
  local_region : string;                  (* peer_region() *)
  cmeta_ : ConsensusMetadata;
  durable_ : ConsensusMetadata;
  flush_count_ : nat;
  queue_ : QueueView;
  pending_ : PendingView;
  peer_manager_closed_ : bool;
  withhold_votes_ : bool;
  withhold_votes_until_ : MonoTime;
  last_received_cur_leader_ : OpId;
  failed_elections_since_stable_leader_ : Z;
  failed_elections_candidate_not_in_config_ : Z;
  leader_transfer_in_progress_ : bool;
  start_election_allowed_ : bool;          (* persistent_vars_ *)
  term_advancement_callbacks_ : list Z
}.

Definition with_cmeta (st : t) (cm : ConsensusMetadata) : t :=
  mk (state_ st) (local_uuid st) (local_region st) cm (durable_ st) (flush_count_ st)
     (queue_ st) (pending_ st) (peer_manager_closed_ st) (withhold_votes_ st)
     (withhold_votes_until_ st) (last_received_cur_leader_ st)
     (failed_elections_since_stable_leader_ st)
     (failed_elections_candidate_not_in_config_ st)
     (leader_transfer_in_progress_ st) (start_election_allowed_ st)
     (term_advancement_callbacks_ st).

(** [cmeta_->Flush()]. *)
Definition Flush (st : t) : t :=
  mk (state_ st) (local_uuid st) (local_region st) (cmeta_ st) (cmeta_ st)
     (S (flush_count_ st))
     (queue_ st) (pending_ st) (peer_manager_closed_ st) (withhold_votes_ st)
     (withhold_votes_until_ st) (last_received_cur_leader_ st)
     (failed_elections_since_stable_leader_ st)
     (failed_elections_candidate_not_in_config_ st)
     (leader_transfer_in_progress_ st) (start_election_allowed_ st)
     (term_advancement_callbacks_ st).

Definition with_queue_pending (st : t) (q : QueueView) (p : PendingView) (closed : bool) : t :=
  mk (state_ st) (local_uuid st) (local_region st) (cmeta_ st) (durable_ st)
     (flush_count_ st) q p closed (withhold_votes_ st)
     (withhold_votes_until_ st) (last_received_cur_leader_ st)
     (failed_elections_since_stable_leader_ st)
     (failed_elections_candidate_not_in_config_ st)
     (leader_transfer_in_progress_ st) (start_election_allowed_ st)
     (term_advancement_callbacks_ st).

Definition with_withhold_votes_until (st : t) (m : MonoTime) : t :=
  mk (state_ st) (local_uuid st) (local_region st) (cmeta_ st) (durable_ st)
     (flush_count_ st) (queue_ st) (pending_ st) (peer_manager_closed_ st)
     (withhold_votes_ st) m (last_received_cur_leader_ st)
     (failed_elections_since_stable_leader_ st)
     (failed_elections_candidate_not_in_config_ st)
     (leader_transfer_in_progress_ st) (start_election_allowed_ st)
     (term_advancement_callbacks_ st).

Definition with_last_received_cur_leader (st : t) (o : OpId) : t :=
  mk (state_ st) (local_uuid st) (local_region st) (cmeta_ st) (durable_ st)
     (flush_count_ st) (queue_ st) (pending_ st) (peer_manager_closed_ st)
     (withhold_votes_ st) (withhold_votes_until_ st) o
     (failed_elections_since_stable_leader_ st)
     (failed_elections_candidate_not_in_config_ st)
     (leader_transfer_in_progress_ st) (start_election_allowed_ st)
     (term_advancement_callbacks_ st).

Definition with_failed_elections (st : t) (stable not_in_config : Z) : t :=
  mk (state_ st) (local_uuid st) (local_region st) (cmeta_ st) (durable_ st)
     (flush_count_ st) (queue_ st) (pending_ st) (peer_manager_closed_ st)
     (withhold_votes_ st) (withhold_votes_until_ st) (last_received_cur_leader_ st)
     stable not_in_config
     (leader_transfer_in_progress_ st) (start_election_allowed_ st)
     (term_advancement_callbacks_ st).

Definition with_leader_transfer_in_progress (st : t) (b : bool) : t :=
  mk (state_ st) (local_uuid st) (local_region st) (cmeta_ st) (durable_ st)
     (flush_count_ st) (queue_ st) (pending_ st) (peer_manager_closed_ st)
     (withhold_votes_ st) (withhold_votes_until_ st) (last_received_cur_leader_ st)
     (failed_elections_since_stable_leader_ st)
     (failed_elections_candidate_not_in_config_ st)
     b (start_election_allowed_ st) (term_advancement_callbacks_ st).

Definition ScheduleTermAdvancementCallback (st : t) (new_term : Z) : t :=
  mk (state_ st) (local_uuid st) (local_region st) (cmeta_ st) (durable_ st)
     (flush_count_ st) (queue_ st) (pending_ st) (peer_manager_closed_ st)
     (withhold_votes_ st) (withhold_votes_until_ st) (last_received_cur_leader_ st)
     (failed_elections_since_stable_leader_ st)
     (failed_elections_candidate_not_in_config_ st)
     (leader_transfer_in_progress_ st) (start_election_allowed_ st)
     (term_advancement_callbacks_ st ++ [new_term]).

(** *** Accessors and the term and vote setters *)

Definition CurrentTermUnlocked (st : t) : Z := current_term (cmeta_ st).
Definition GetLeaderUuidUnlocked (st : t) : string := leader_uuid (cmeta_ st).
Definition HasLeaderUnlocked (st : t) : bool :=
  negb (bool_decide (GetLeaderUuidUnlocked st = "")).
Definition HasVotedCurrentTermUnlocked (st : t) : bool := has_voted_for (cmeta_ st).
Definition GetVotedForCurrentTermUnlocked (st : t) : option string := voted_for (cmeta_ st).

Definition active_role (st : t) : Role :=
  GetConsensusRole (local_uuid st) (leader_uuid (cmeta_ st)) (ActiveConfig (cmeta_ st)).

Definition ClearLeaderUnlocked (st : t) : t :=
  with_cmeta st (set_leader_uuid (cmeta_ st) "").

(** [SetLeaderUuidUnlocked]: resets the failed-election counters and records
    the leader. *)
Definition SetLeaderUuidUnlocked (st : t) (uuid : string) : Status * t :=
  (OK, with_cmeta (with_failed_elections st 0 0) (set_leader_uuid (cmeta_ st) uuid)).

(** [SetVotedForCurrentTermUnlocked]: records the vote, then flushes. *)
Definition SetVotedForCurrentTermUnlocked (st : t) (uuid : string) : Status * t :=
  (OK, Flush (with_cmeta st (set_voted_for (cmeta_ st) uuid))).

Definition msg_term_not_higher : string :=
  "Cannot change term to a term that is lower than or equal to the current one.".

Definition SetCurrentTermUnlocked (st : t) (new_term : Z) (flush : FlushToDisk)
  : Status * t :=
  if new_term <=? CurrentTermUnlocked st then (IllegalState msg_term_not_higher, st)
  else
    let st1 := with_cmeta st (clear_voted_for (set_current_term (cmeta_ st) new_term)) in
    let st2 := match flush with FLUSH_TO_DISK => Flush st1 | SKIP_FLUSH_TO_DISK => st1 end in
    let st3 := ClearLeaderUnlocked st2 in
    (OK, ScheduleTermAdvancementCallback st3 new_term).

(** [SetCurrentTermBootstrap]: sets the term and flushes; the vote is left as
    it is. *)
Definition SetCurrentTermBootstrap (st : t) (new_term : Z) : Status * t :=
  if new_term <=? CurrentTermUnlocked st then (IllegalState msg_term_not_higher, st)
  else (OK, Flush (with_cmeta st (set_current_term (cmeta_ st) new_term))).

(** [BecomeReplicaUnlocked]: clears the leader, lifts the vote withholding,
    puts the queue in non-leader mode and closes the peer manager. *)
Definition BecomeReplicaUnlocked (st : t) : Status * t :=
  let st1 := ClearLeaderUnlocked st in
  let st2 := with_withhold_votes_until st1 TimeMin in
  let q := queue_ st2 in
  (OK, with_queue_pending st2
         (mkQueue (GetLastOpIdInLog q) (GetCommittedIndex q)
                  (IsCommittedIndexInCurrentTerm q) false (GetNextOpId q))
         (pending_ st2) true).

Definition msg_cannot_advance_term : string :=
  "Can't advance term: current term is higher.".

Definition HandleTermAdvanceUnlocked (st : t) (new_term : Z) (flush : FlushToDisk)
  : Status * t :=
  if new_term <=? CurrentTermUnlocked st then (IllegalState msg_cannot_advance_term, st)
  else
    let r1 :=
      match active_role st with
      | LEADER => BecomeReplicaUnlocked st
      | _ => (OK, st)
      end in
    if negb (ok r1.1) then r1
    else
      let r2 := SetCurrentTermUnlocked r1.2 new_term flush in
      if negb (ok r2.1) then r2
      else (OK, with_last_received_cur_leader r2.2 MinimumOpId).

Definition msg_not_running : string := "RaftConsensus is not running".

Definition CheckRunningUnlocked (st : t) : Status :=
  match state_ st with
  | kRunning => OK
  | _ => IllegalState msg_not_running
  end.

Definition msg_transfer_in_progress : string := "leader transfer in progress".
Definition msg_not_leader : string := "Replica is not leader of this config.".

Definition CheckActiveLeaderUnlocked (st : t) : Status :=
  match active_role st with
  | LEADER =>
      if leader_transfer_in_progress_ st then ServiceUnavailable msg_transfer_in_progress
      else OK
  | _ => IllegalState msg_not_leader
  end.

Definition msg_config_change_pending : string :=
  "RaftConfig change currently pending. Only one is allowed at a time.".

Definition CheckNoConfigChangePendingUnlocked (st : t) : Status :=
  if has_pending_config (cmeta_ st) then IllegalState msg_config_change_pending else OK.

(** [AdvanceTermForTests] and [StepDown] (the latter answers a non-leader with
    an error code in the response and an OK status). *)
Definition AdvanceTermForTests (st : t) (new_term : Z) : option (Status * t) :=
  match CheckRunningUnlocked st with
  | OK => Some (HandleTermAdvanceUnlocked st new_term FLUSH_TO_DISK)
  | _ => None                                             (* CHECK_OK *)
  end.

Definition StepDown (st : t) : Status * t :=
  match CheckRunningUnlocked st with
  | OK =>
      match active_role st with
      | LEADER => HandleTermAdvanceUnlocked st (CurrentTermUnlocked st + 1) SKIP_FLUSH_TO_DISK
      | _ => (OK, st)
      end
  | s => (s, st)
  end.

(** [NotifyTermChange]: a failed running check or a refused advance is only
    logged. *)
Definition NotifyTermChange (st : t) (term : Z) : t :=
  match CheckRunningUnlocked st with
  | OK => (HandleTermAdvanceUnlocked st term FLUSH_TO_DISK).2
  | _ => st
  end.

(** *** RequestVote *)

Record Flags : Type := mkFlags {
  enable_leader_failure_detection : bool;
  raft_enable_tombstoned_voting : bool;
  lag_threshold_for_request_vote : Z;
  enable_flexi_raft : bool;
  minimum_election_timeout : Z;           (* MinimumElectionTimeout() *)
  track_removed_peers : bool
}.

(** [FillVoteResponseVoteGranted] / [FillVoteResponseVoteDenied] followed by
    the [StatusToPB] of the denial (the vote history and last-known-leader
    payloads are not carried). *)
Definition FillVoteResponseVoteGranted (st : t) (response : VoteResponsePB) : VoteResponsePB :=
  mkVoteResponse (responder_uuid response) (CurrentTermUnlocked st) true
    (consensus_error response) (has_error response)
    (voter_context_is_candidate_removed response) (response_last_pruned_term response).

Definition FillVoteResponseVoteDenied (st : t) (code : ConsensusErrorCode) (s : Status)
    (response : VoteResponsePB) : VoteResponsePB :=
  mkVoteResponse (responder_uuid response) (CurrentTermUnlocked st) false
    (Some (code, s)) (has_error response)
    (voter_context_is_candidate_removed response) (response_last_pruned_term response).

Definition set_is_candidate_removed (response : VoteResponsePB) (b : bool) : VoteResponsePB :=
  mkVoteResponse (responder_uuid response) (responder_term response) (vote_granted response)
    (consensus_error response) (has_error response) (Some b)
    (response_last_pruned_term response).

Definition msg_invalid_term : string := "Denying vote to candidate for earlier term.".
Definition msg_already_voted : string := "Already voted for another candidate in this term.".
Definition msg_last_opid_too_old : string :=
  "Replica has last-logged OpId greater than that of the candidate.".
Definition msg_vote_withheld : string := "Denying vote: votes are being withheld.".
Definition msg_leader_is_alive : string :=
  "Replica is either leader or believes a valid leader to be alive.".
Definition msg_busy : string :=
  "Replica is already servicing an update from a current leader or another vote.".

Definition RequestVoteRespondInvalidTerm (st : t) (response : VoteResponsePB)
  : Status * VoteResponsePB * t :=
  (OK, FillVoteResponseVoteDenied st INVALID_TERM (InvalidArgument msg_invalid_term) response, st).

Definition RequestVoteRespondVoteAlreadyGranted (st : t) (response : VoteResponsePB)
  : Status * VoteResponsePB * t :=
  (OK, FillVoteResponseVoteGranted st response, st).

Definition RequestVoteRespondAlreadyVotedForOther (st : t) (response : VoteResponsePB)
  : Status * VoteResponsePB * t :=
  (OK, FillVoteResponseVoteDenied st ALREADY_VOTED (InvalidArgument msg_already_voted) response, st).

Definition RequestVoteRespondLastOpIdTooOld (st : t) (response : VoteResponsePB)
  : Status * VoteResponsePB * t :=
  (OK, FillVoteResponseVoteDenied st LAST_OPID_TOO_OLD
         (InvalidArgument msg_last_opid_too_old) response, st).

Definition RequestVoteRespondVoteWitheld (st : t) (response : VoteResponsePB)
  : Status * VoteResponsePB * t :=
  (OK, FillVoteResponseVoteDenied st UNKNOWN (InvalidArgument msg_vote_withheld) response, st).

Definition RequestVoteRespondLeaderIsAlive (st : t) (response : VoteResponsePB)
  : Status * VoteResponsePB * t :=
  (OK, FillVoteResponseVoteDenied st LEADER_IS_ALIVE
         (InvalidArgument msg_leader_is_alive) response, st).

Definition RequestVoteRespondIsBusy (st : t) (response : VoteResponsePB)
  : Status * VoteResponsePB * t :=
  (OK, FillVoteResponseVoteDenied st CONSENSUS_BUSY (ServiceUnavailable msg_busy) response, st).

(** [RequestVoteRespondVoteGranted]: the vote is persisted only when the
    request is not a pre-election. *)
Definition RequestVoteRespondVoteGranted (st : t) (request : VoteRequestPB)
    (response : VoteResponsePB) : Status * VoteResponsePB * t :=
  let r :=
    if negb (is_pre_election request)
    then SetVotedForCurrentTermUnlocked st (candidate_uuid request)
    else (OK, st) in
  if negb (ok r.1) then (r.1, response, r.2)
  else (OK, FillVoteResponseVoteGranted r.2 response, r.2).

Definition msg_shut_down : string := "cannot vote while shut down".
Definition msg_opid_unknown : string :=
  "must be running to vote when last-logged opid is not known".
Definition msg_tombstoned_voting_disabled : string :=
  "must be running to vote when tombstoned voting is disabled".

Section Voting.
Variable flags : Flags.

(** [RequestVote].  [update_lock_free] says whether [update_lock_] can be
    taken without waiting (it is waited for when failure detection is off or
    the request ignores a live leader); [now] is the clock reading;
    [tombstone_last_logged_opid] is the [TabletVotingState] argument. *)
Definition RequestVote (st : t) (request : VoteRequestPB)
    (tombstone_last_logged_opid : option OpId) (update_lock_free : bool) (now : Z)
  : Status * VoteResponsePB * t :=
  let response :=
    mkVoteResponse (local_uuid st) 0 false None false None 0 in
  let owns_lock :=
    if enable_leader_failure_detection flags && negb (ignore_live_leader request)
    then update_lock_free else true in
  if negb owns_lock then RequestVoteRespondIsBusy st response
  else
    let last_logged : Status + OpId :=
      match state_ st with
      | kShutdown => inl (IllegalState msg_shut_down)
      | kRunning => inr (GetLastOpIdInLog (queue_ st))
      | _ =>
          match tombstone_last_logged_opid with
          | None => inl (IllegalState msg_opid_unknown)
          | Some o =>
              if negb (raft_enable_tombstoned_voting flags)
              then inl (IllegalState msg_tombstoned_voting_disabled)
              else inr o
          end
      end in
    match last_logged with
    | inl s => (s, response, st)
    | inr local_last_logged_opid =>
        let candidate := find_peer (candidate_uuid request) (ActiveConfig (cmeta_ st)) in
        let candidate_region :=
          match candidate with Some p => region p | None => "" end in
        let response :=
          set_is_candidate_removed response
            (match candidate with
             | Some _ => false
             | None => IsPeerRemoved (cmeta_ st) (candidate_uuid request)
             end) in
        if withhold_votes_ st then RequestVoteRespondVoteWitheld st response
        else if negb (ignore_live_leader request) && now_before now (withhold_votes_until_ st)
        then RequestVoteRespondLeaderIsAlive st response
        else if candidate_term request <? CurrentTermUnlocked st
        then RequestVoteRespondInvalidTerm st response
        else if (candidate_term request =? CurrentTermUnlocked st)
                && HasVotedCurrentTermUnlocked st
        then
          if bool_decide (GetVotedForCurrentTermUnlocked st = Some (candidate_uuid request))
          then RequestVoteRespondVoteAlreadyGranted st response
          else RequestVoteRespondAlreadyVotedForOther st response
        else
          let check_srd_lag :=
            negb (lag_threshold_for_request_vote flags =? -1) && enable_flexi_raft flags
            && bool_decide (commit_rule_mode (committed_config (cmeta_ st))
                            = Some FlexibleVoteCounter.SINGLE_REGION_DYNAMIC)
            && negb (bool_decide (candidate_region = ""))
            && bool_decide (local_region st = candidate_region) in
          let vote_yes :=
            negb (OpIdLessThan (candidate_last_received request) local_last_logged_opid) in
          if vote_yes && check_srd_lag
             && (lag_threshold_for_request_vote flags
                 <? index (candidate_last_received request) - index local_last_logged_opid)
          then RequestVoteRespondVoteWitheld st response
          else
            let r :=
              if negb (is_pre_election request)
                 && (CurrentTermUnlocked st <? candidate_term request)
              then HandleTermAdvanceUnlocked st (candidate_term request)
                     (if vote_yes then SKIP_FLUSH_TO_DISK else FLUSH_TO_DISK)
              else (OK, st) in
            if negb (ok r.1) then (r.1, response, r.2)
            else if negb vote_yes then RequestVoteRespondLastOpIdTooOld r.2 response
            else RequestVoteRespondVoteGranted r.2 request response
    end.

End Voting.

(** *** Collaborators whose code is not among the sources

    The queue, the pending rounds, the round handler, the peer manager and
    quorum_util are driven through the operations below; the replica code is
    modelled for every implementation of them. *)

Inductive OperationType : Type := WRITE_OP | NO_OP | CHANGE_CONFIG_OP.

(** [ReplicateMsg]: the id, the operation type, the change-config record and
    the two checksums [StartFollowerTransactionUnlocked] compares (the stored
    one and the one computed over the payload). *)
Record ReplicateMsg : Type := mkMsg {
  id : OpId;
  op_type : OperationType;
  old_config : RaftConfigPB;
  new_config : RaftConfigPB;
  payload_crc32 : Z;
  computed_crc32 : Z
}.

(** The classes [RaftConsensus] calls that are not among the sources (pending
    rounds, replication queue, round handler, routing table, quorum_util), as
    functions on the views above.  The pending rounds run the completion
    callback of every round they commit or abort while the replica's lock is
    held; for a configuration change that callback is
    [CompleteConfigChangeRoundUnlocked] below, which is modelled as an
    operation of its own rather than inside [AdvanceCommittedIndex] and
    [AbortOpsAfter]. *)
Record Collaborators : Type := mkCollaborators {
  (* pending_rounds.cc *)
  AdvanceCommittedIndex : PendingView -> Z -> Status * PendingView;
  IsOpCommittedOrPending : PendingView -> OpId -> bool * bool;  (* result, term_mismatch *)
  AbortOpsAfter : PendingView -> Z -> PendingView;
  AddPendingOperation : PendingView -> ReplicateMsg -> Status * PendingView;
  CheckOpInSequence : OpId -> OpId -> Status;
  (* consensus_queue.cc *)
  TruncateOpsAfter : QueueView -> Z -> QueueView;
  AppendOperations : QueueView -> list ReplicateMsg -> Status * QueueView;
  UpdateFollowerWatermarks : QueueView -> Z -> Z -> Z -> QueueView;
  UpdateLastIndexAppendedToLeader : QueueView -> Z -> QueueView;
  SetLeaderMode : QueueView -> Z -> Z -> RaftConfigPB -> QueueView;
  UpdatePeerQuorumIdUnlocked : QueueView -> gmap string string -> QueueView;
  (* round handler, peer manager and routing table, quorum_util *)
  StartFollowerTransaction : ReplicateMsg -> Status;
  StartConsensusOnlyRound : ReplicateMsg -> Status;
  UpdateRaftConfig : RaftConfigPB -> Status;
  VerifyRaftConfig : RaftConfigPB -> Status;
  (* the peers [DiffRaftConfigs] reports as removed *)
  DiffRaftConfigs : RaftConfigPB -> RaftConfigPB -> list string;
  (* building the vote counter of an election and registering the
     candidate's own vote in it *)
  RegisterSelfVote : RaftConfigPB -> Z -> Status;
  (* time manager: [MessageReceivedFromLeader] *)
  MessageReceivedFromLeader : ReplicateMsg -> Status;
  (* log synchronizer: the status with which the wait for the append of
     these operations ends (the wait is repeated while it times out) *)
  WaitForLogAppend : QueueView -> list ReplicateMsg -> Status;
  (* settings *)
  adjust_voter_distribution_ : bool;
  disable_noop_ : bool;
  follower_fail_all_prepare : bool
}.

Section Replica.
Variable flags : Flags.
Variable env : Collaborators.

Definition with_pending (st : t) (p : PendingView) : t :=
  with_queue_pending st (queue_ st) p (peer_manager_closed_ st).

Definition with_queue (st : t) (q : QueueView) : t :=
  with_queue_pending st q (pending_ st) (peer_manager_closed_ st).

(** *** Starting an election *)

Definition msg_only_voters : string := "only voting members can start elections".
Definition msg_no_voter_distribution : string :=
  "in flexi-raft only regions with valid voter distribution can start election".

(** [StartElection]: the status, the replica afterwards and, when an election
    is started, the vote request it is run with. *)
Definition StartElection (st : t) (mode : ElectionMode)
  : Status * t * option VoteRequestPB :=
  match CheckRunningUnlocked st with
  | OK =>
      if negb (start_election_allowed_ st) then (OK, st, None)
      else
        match active_role st with
        | LEADER => (OK, st, None)
        | role =>
            if negb (IsVoterRole role) then (IllegalState msg_only_voters, st, None)
            else if enable_flexi_raft flags
                    && negb (use_quorum_id (ActiveConfig (cmeta_ st)))
                    && bool_decide (voter_distribution (ActiveConfig (cmeta_ st))
                                      !! local_region st = None)
            then (IllegalState msg_no_voter_distribution, st, None)
            else
              (* Increment the term and vote for ourselves, unless it's a
                 pre-election. *)
              let r :=
                match mode with
                | PRE_ELECTION => (OK, st)
                | _ =>
                    let r1 := HandleTermAdvanceUnlocked st (CurrentTermUnlocked st + 1)
                                SKIP_FLUSH_TO_DISK in
                    if negb (ok r1.1) then r1
                    else SetVotedForCurrentTermUnlocked r1.2 (local_uuid st)
                end in
              if negb (ok r.1) then (r.1, r.2, None)
              else
                let st' := r.2 in
                let candidate_term :=
                  match mode with
                  | PRE_ELECTION => CurrentTermUnlocked st' + 1
                  | _ => CurrentTermUnlocked st'
                  end in
                match RegisterSelfVote env (ActiveConfig (cmeta_ st')) candidate_term with
                | OK =>
                    (OK, st',
                     Some (mkVoteRequest (local_uuid st') candidate_term
                             (GetLastOpIdInLog (queue_ st'))
                             (match mode with
                              | ELECT_EVEN_IF_LEADER_IS_ALIVE => true | _ => false end)
                             (match mode with PRE_ELECTION => true | _ => false end)))
                | s => (s, st', None)
                end
        end
  | s => (s, st, None)
  end.

(** *** Appending a round on the leader; pending configurations *)

Definition RefreshConsensusQueueAndPeersUnlocked (st : t) : Status * t :=
  let q := SetLeaderMode env (queue_ st) (pending_GetCommittedIndex (pending_ st))
             (CurrentTermUnlocked st) (ActiveConfig (cmeta_ st)) in
  (UpdateRaftConfig env (ActiveConfig (cmeta_ st)),
   with_queue_pending st q (pending_ st) true).

(** [SetPendingConfigUnlocked]; [None] is the [CHECK] that no configuration is
    pending. *)
Definition SetPendingConfigUnlocked (st : t) (new_config : RaftConfigPB)
  : option (Status * t) :=
  match VerifyRaftConfig env new_config with
  | OK =>
      if adjust_voter_distribution_ env && negb (unsafe_config_change new_config)
         && has_pending_config (cmeta_ st)
      then None
      else
        let st' := with_cmeta st (set_pending_config (cmeta_ st) new_config) in
        Some (UpdateRaftConfig env (ActiveConfig (cmeta_ st')), st')
  | s => Some (s, st)
  end.

Definition set_opid_index (c : RaftConfigPB) (i : Z) : RaftConfigPB :=
  mkConfig (Some i) (peers c) (unsafe_config_change c) (voter_distribution c)
           (commit_rule_mode c) (use_quorum_id c).

Definition clear_opid_index (c : RaftConfigPB) : RaftConfigPB :=
  mkConfig None (peers c) (unsafe_config_change c) (voter_distribution c)
           (commit_rule_mode c) (use_quorum_id c).

(** [config.opid_index()]: an unset optional field reads as 0. *)
Definition opid_index_of (c : RaftConfigPB) : Z :=
  match opid_index c with Some i => i | None => 0 end.

(** [cmeta_->GetConfigOpIdIndex(COMMITTED_CONFIG)]. *)
Definition committed_config_opid_index (st : t) : Z :=
  opid_index_of (committed_config (cmeta_ st)).

Definition set_new_config (m : ReplicateMsg) (c : RaftConfigPB) : ReplicateMsg :=
  mkMsg (id m) (op_type m) (old_config m) c (payload_crc32 m) (computed_crc32 m).

Definition set_id (m : ReplicateMsg) (o : OpId) : ReplicateMsg :=
  mkMsg o (op_type m) (old_config m) (new_config m) (payload_crc32 m) (computed_crc32 m).

Definition AddPendingOperationUnlocked (st : t) (round : ReplicateMsg)
  : option (Status * t) :=
  let finish (st : t) (round : ReplicateMsg) : option (Status * t) :=
    let r := AddPendingOperation env (pending_ st) round in
    Some (r.1, with_pending st r.2) in
  match op_type round with
  | CHANGE_CONFIG_OP =>
      let new_config := set_opid_index (new_config round) (index (id round)) in
      let round := set_new_config round new_config in
      let s :=
        if negb (unsafe_config_change new_config)
        then CheckNoConfigChangePendingUnlocked st else OK in
      if negb (ok s) then Some (s, st)
      else if committed_config_opid_index st <? index (id round)
      then
        '(s1, st1) ← SetPendingConfigUnlocked st new_config;
        if negb (ok s1) then Some (s1, st1)
        else
          match active_role st1 with
          | LEADER =>
              let r := RefreshConsensusQueueAndPeersUnlocked st1 in
              if negb (ok r.1) then Some r else finish r.2 round
          | _ => finish st1 round
          end
      else finish st round
  | _ => finish st round
  end.

Definition msg_index_mismatch : string :=
  "Transaction submitted with index mismatches with queue index".

(** [AppendNewRoundToQueueUnlocked]; [None] is the [CHECK_OK] on the queue
    append (or an abort further down). *)
Definition AppendNewRoundToQueueUnlocked (st : t) (round : ReplicateMsg)
  : option (Status * t) :=
  let next := GetNextOpId (queue_ st) in
  if negb (index (id round) =? 0) && negb (index (id round) =? index next)
  then Some (Aborted msg_index_mismatch, st)
  else
    let round := if index (id round) =? 0 then set_id round next else round in
    '(s, st1) ← AddPendingOperationUnlocked st round;
    if negb (ok s) then Some (s, st1)
    else
      match AppendOperations env (queue_ st1) [round] with
      | (OK, q) => Some (OK, with_queue st1 q)
      | _ => None
      end.

Definition ReplicateConfigChangeUnlocked (st : t) (old_config new_config : RaftConfigPB)
  : option (Status * t) :=
  AppendNewRoundToQueueUnlocked st
    (mkMsg (mkOpId 0 0) CHANGE_CONFIG_OP old_config new_config 0 0).

(** [BecomeLeaderUnlocked]: no voting while leader, no transfer period, the
    queue and peers refreshed, then the NO_OP round of the new term. *)
Definition BecomeLeaderUnlocked (st : t) : option (Status * t) :=
  let st1 := with_leader_transfer_in_progress
               (with_withhold_votes_until st TimeMax) false in
  let r := RefreshConsensusQueueAndPeersUnlocked st1 in
  if negb (ok r.1) then Some r
  else if disable_noop_ env then Some (OK, r.2)
  else AppendNewRoundToQueueUnlocked r.2
         (mkMsg (mkOpId 0 0) NO_OP empty_RaftConfigPB empty_RaftConfigPB 0 0).

(** [EmulateElection]: the replica assumes the leadership of the next term. *)
Definition EmulateElection (st : t) : option (Status * t) :=
  match CheckRunningUnlocked st with
  | OK =>
      let r := HandleTermAdvanceUnlocked st (CurrentTermUnlocked st + 1) FLUSH_TO_DISK in
      if negb (ok r.1) then Some r
      else
        let r1 := SetLeaderUuidUnlocked r.2 (local_uuid st) in
        if negb (ok r1.1) then Some r1 else BecomeLeaderUnlocked r1.2
  | s => Some (s, st)
  end.

(** *** Committing and editing the configuration *)

(** [SetCommittedConfigUnlocked]; [None] is the [CHECK] that the configuration
    to commit is the pending one. *)
Definition SetCommittedConfigUnlocked (st : t) (config_to_commit : RaftConfigPB)
  : option (Status * t) :=
  match VerifyRaftConfig env config_to_commit with
  | OK =>
      let differs :=
        match pending_config (cmeta_ st) with
        | Some pending =>
            adjust_voter_distribution_ env && negb (unsafe_config_change pending)
            && negb (bool_decide (pending = config_to_commit))
        | None => false
        end in
      if differs then None
      else
        let st1 := Flush (with_cmeta st
                            (clear_pending_config
                               (set_committed_config (cmeta_ st) config_to_commit))) in
        Some (UpdateRaftConfig env (ActiveConfig (cmeta_ st1)), st1)
  | s => Some (s, st)
  end.

(** [CompleteConfigChangeRoundUnlocked], which the pending rounds call back
    (through [NonTxRoundReplicationFinished]) on a configuration-change round
    that they commit or abort; [None] is a failed [CHECK_OK]. *)
Definition CompleteConfigChangeRoundUnlocked (st : t) (round : ReplicateMsg)
    (status : Status) : option t :=
  if negb (ok status) then
    (* If the config change being aborted is the current pending one, abort it. *)
    if match pending_config (cmeta_ st) with
       | Some pending => opid_index_of pending =? index (id round)
       | None => false
       end
    then
      let st1 := with_cmeta st (clear_pending_config (cmeta_ st)) in
      match UpdateRaftConfig env (ActiveConfig (cmeta_ st1)) with
      | OK => Some st1
      | _ => None
      end
    else Some st
  else if committed_config_opid_index st <? opid_index_of (new_config round)
  then
    match SetCommittedConfigUnlocked st (new_config round) with
    | Some (OK, st1) =>
        if track_removed_peers flags
        then Some (with_cmeta st1
                     (InsertIntoRemovedPeersList (cmeta_ st1)
                        (DiffRaftConfigs env (old_config round) (new_config round))))
        else Some st1
    | _ => None
    end
  else Some st.

Definition set_voter_distribution (c : RaftConfigPB) (vd : gmap string Z) : RaftConfigPB :=
  mkConfig (opid_index c) (peers c) (unsafe_config_change c) vd
           (commit_rule_mode c) (use_quorum_id c).

(** The end shared by the three entry points below: the edited copy of the
    active configuration is stored and flushed. *)
Definition store_active_config (st : t) (config : RaftConfigPB) : t :=
  Flush (with_cmeta st (set_active_config (cmeta_ st) config)).

Definition refresh_if_leader (st : t) : Status * t :=
  match active_role st with
  | LEADER =>
      let r := RefreshConsensusQueueAndPeersUnlocked st in
      if negb (ok r.1) then r else (OK, r.2)
  | _ => (OK, st)
  end.

(** [ChangeVoterDistribution]. *)
Definition ChangeVoterDistribution (st : t) (topology_voter_distribution : gmap string Z)
    (force : bool) : Status * t :=
  let s := if negb force then CheckNoConfigChangePendingUnlocked st else OK in
  if negb (ok s) then (s, st)
  else
    let config := set_voter_distribution (ActiveConfig (cmeta_ st))
                    topology_voter_distribution in
    refresh_if_leader (store_active_config st config).

Inductive QuorumType : Type := REGION | QUORUM_ID.

(** Modelled from the spec: [PeerHasValidQuorumId] as quorum_util.h documents
    it (the peer has a non-empty quorum_id). *)
Definition PeerHasValidQuorumId (peer : RaftPeerPB) : bool :=
  negb (bool_decide (quorum_id peer = "")).

Definition is_voter (peer : RaftPeerPB) : bool :=
  match member_type peer with VOTER => true | NON_VOTER => false end.

Definition has_commit_rule (c : RaftConfigPB) : bool :=
  match commit_rule_mode c with Some _ => true | None => false end.

Definition set_quorum_type (c : RaftConfigPB) (type : QuorumType) : RaftConfigPB :=
  mkConfig (opid_index c) (peers c) (unsafe_config_change c) (voter_distribution c)
           (commit_rule_mode c)
           (match type with QUORUM_ID => true | REGION => false end).

Definition msg_no_quorum_id : string :=
  "Unable to change QuorumType to QuorumId. No quorum_id found for peer".
Definition msg_no_commit_rule : string :=
  "Unable to change QuorumType to QuorumId. Commit rule does not exist.".

(** [ChangeQuorumType]. *)
Definition ChangeQuorumType (st : t) (type : QuorumType) : Status * t :=
  match CheckNoConfigChangePendingUnlocked st with
  | OK =>
      let config := ActiveConfig (cmeta_ st) in
      if match type with QUORUM_ID => true | REGION => false end
         && existsb (fun peer => is_voter peer && negb (PeerHasValidQuorumId peer))
                    (peers config)
      then (ConfigurationError msg_no_quorum_id, st)
      else if negb (has_commit_rule config)
      then (ConfigurationError msg_no_commit_rule, st)
      else refresh_if_leader (store_active_config st (set_quorum_type config type))
  | s => (s, st)
  end.

Definition set_quorum_id (peer : RaftPeerPB) (q : string) : RaftPeerPB :=
  mkPeer (permanent_uuid peer) (member_type peer) (region peer) q.

(** The loop of [SetPeerQuorumIds] over the peers; [None] is the voter that
    has no quorum id assigned when the change is not forced. *)
Fixpoint modified_peers (peers : list RaftPeerPB) (uuid2quorum_ids : gmap string string)
    (force : bool) : option (list RaftPeerPB) :=
  match peers with
  | [] => Some []
  | peer :: rest =>
      peer' ← (if is_voter peer then
                 match uuid2quorum_ids !! permanent_uuid peer with
                 | None => if negb force then None else Some peer
                 | Some q => Some (set_quorum_id peer q)
                 end
               else Some peer);
      rest' ← modified_peers rest uuid2quorum_ids force;
      Some (peer' :: rest')
  end.

Definition set_peers (c : RaftConfigPB) (l : list RaftPeerPB) : RaftConfigPB :=
  mkConfig (opid_index c) l (unsafe_config_change c) (voter_distribution c)
           (commit_rule_mode c) (use_quorum_id c).

Definition msg_quorum_ids_in_use : string :=
  "Peer quorum ids cannot be changed when in use.".
Definition msg_quorum_id_missing : string :=
  "Failed to update quorum_id. No quorum_id found for peer".

(** [SetPeerQuorumIds] (the quorum id of [local_peer_pb_] is not part of the
    replica record). *)
Definition SetPeerQuorumIds (st : t) (uuid2quorum_ids : gmap string string)
    (force : bool) : Status * t :=
  if negb force && has_commit_rule (ActiveConfig (cmeta_ st))
     && use_quorum_id (ActiveConfig (cmeta_ st))
  then (InvalidArgument msg_quorum_ids_in_use, st)
  else
    let s := if negb force then CheckNoConfigChangePendingUnlocked st else OK in
    if negb (ok s) then (s, st)
    else
      let config := ActiveConfig (cmeta_ st) in
      match modified_peers (peers config) uuid2quorum_ids force with
      | None => (ConfigurationError msg_quorum_id_missing, st)
      | Some l =>
          let st1 := store_active_config st (set_peers config l) in
          let st2 := with_queue st1
                       (UpdatePeerQuorumIdUnlocked env (queue_ st1) uuid2quorum_ids) in
          refresh_if_leader st2
      end.

(** *** The election callback *)

(** [DoElectionCallback]: the replica afterwards and the request of the real
    election it starts, if any; [None] is a failed [CHECK_OK]. *)
Definition DoElectionCallback (st : t) (result : LeaderElection.ElectionResult)
  : option (t * option VoteRequestPB) :=
  let election_term := candidate_term (LeaderElection.vote_request result) in
  let was_pre_election := is_pre_election (LeaderElection.vote_request result) in
  match CheckRunningUnlocked st with
  | OK =>
      let st :=
        match LeaderElection.decision result with
        | VoteCounter.VOTE_DENIED =>
            if LeaderElection.result_is_candidate_removed result
            then with_failed_elections st (failed_elections_since_stable_leader_ st)
                   (failed_elections_candidate_not_in_config_ st + 1)
            else st
        | VoteCounter.VOTE_GRANTED => st
        end in
      match LeaderElection.decision result with
      | VoteCounter.VOTE_DENIED =>
          let st := with_failed_elections st (failed_elections_since_stable_leader_ st + 1)
                      (failed_elections_candidate_not_in_config_ st) in
          if CurrentTermUnlocked st <? LeaderElection.highest_voter_term result
          then Some ((HandleTermAdvanceUnlocked st (LeaderElection.highest_voter_term result)
                        FLUSH_TO_DISK).2, None)
          else Some (st, None)
      | VoteCounter.VOTE_GRANTED =>
          let election_started_in_term :=
            if was_pre_election then election_term - 1 else election_term in
          if negb (election_started_in_term =? CurrentTermUnlocked st) then Some (st, None)
          else if negb (IsRaftConfigVoter (local_uuid st) (ActiveConfig (cmeta_ st)))
          then Some (st, None)
          else
            match active_role st with
            | LEADER => Some (st, None)
            | _ =>
                if was_pre_election then
                  (* We just won the pre-election: call a real election. *)
                  let '(_, st', req) := StartElection st NORMAL_ELECTION in
                  Some (st', req)
                else
                  match SetLeaderUuidUnlocked st (local_uuid st) with
                  | (OK, st1) =>
                      match BecomeLeaderUnlocked st1 with
                      | Some (OK, st2) => Some (st2, None)
                      | _ => None
                      end
                  | _ => None
                  end
            end
      end
  | _ => Some (st, None)
  end.

(** *** The follower update path *)

Record ConsensusRequestPB : Type := mkRequest {
  caller_uuid : string;
  caller_term : Z;
  preceding_id : OpId;
  ops : list ReplicateMsg;
  committed_index : Z;
  all_replicated_index : Z;
  region_durable_index : Z;
  last_idx_appended_to_leader : Z;
  has_deprecated_committed_index : bool;
  has_all_replicated_index : bool
}.

Record ConsensusResponsePB : Type := mkResponse {
  resp_responder_uuid : string;
  resp_responder_term : option Z;
  status_last_received : option OpId;
  status_last_received_current_leader : option OpId;
  status_last_committed_idx : option Z;
  status_error : option (ConsensusErrorCode * Status)
}.

(** [LeaderRequest]: the deduplicated request. *)
Record LeaderRequest : Type := mkLeaderRequest {
  leader_uuid_ : string;
  preceding_opid : OpId;
  messages : list ReplicateMsg
}.

Definition FillConsensusResponseOKUnlocked (st : t) (response : ConsensusResponsePB)
  : ConsensusResponsePB :=
  mkResponse (resp_responder_uuid response)
    (Some (CurrentTermUnlocked st))
    (Some (GetLastOpIdInLog (queue_ st)))
    (Some (last_received_cur_leader_ st))
    (Some (GetCommittedIndex (queue_ st)))
    (status_error response).

Definition FillConsensusResponseError (response : ConsensusResponsePB)
    (error_code : ConsensusErrorCode) (s : Status) : ConsensusResponsePB :=
  mkResponse (resp_responder_uuid response) (resp_responder_term response)
    (status_last_received response) (status_last_received_current_leader response)
    (status_last_committed_idx response) (Some (error_code, s)).

Definition has_status_error (response : ConsensusResponsePB) : bool :=
  match status_error response with Some _ => true | None => false end.

Definition msg_earlier_term : string :=
  "Rejecting Update request from peer for earlier term.".

(** [HandleLeaderRequestTermUnlocked]. *)
Definition HandleLeaderRequestTermUnlocked (st : t) (request : ConsensusRequestPB)
    (response : ConsensusResponsePB) : Status * ConsensusResponsePB * t :=
  if negb (caller_term request =? CurrentTermUnlocked st) then
    (* If less, reject. *)
    if caller_term request <? CurrentTermUnlocked st
    then (OK, FillConsensusResponseError response INVALID_TERM
                (IllegalState msg_earlier_term), st)
    else
      let r := HandleTermAdvanceUnlocked st (caller_term request) FLUSH_TO_DISK in
      (r.1, response, r.2)
  else (OK, response, st).

(** The loop of [DeduplicateLeaderRequestUnlocked]; [None] is the missing
    pending round that the code dereferences. *)
Fixpoint dedup_loop (p : PendingView) (last_committed_index : Z) (leader_msgs : list ReplicateMsg)
    (preceding : OpId) (dedup_up_to_index : Z) (acc : list ReplicateMsg)
  : option (OpId * list ReplicateMsg) :=
  match leader_msgs with
  | [] => Some (preceding, acc)
  | leader_msg :: rest =>
      if index (id leader_msg) <=? last_committed_index
      then dedup_loop p last_committed_index rest (id leader_msg) dedup_up_to_index acc
      else if index (id leader_msg) <=? dedup_up_to_index
      then
        match GetPendingOpByIndexOrNull p (index (id leader_msg)) with
        | None => None
        | Some round_id =>
            if (term round_id =? term (id leader_msg))
               && (index round_id =? index (id leader_msg))
            then dedup_loop p last_committed_index rest (id leader_msg) dedup_up_to_index acc
            else dedup_loop p last_committed_index rest preceding
                   (index (id leader_msg)) (acc ++ [leader_msg])
        end
      else dedup_loop p last_committed_index rest preceding dedup_up_to_index
             (acc ++ [leader_msg])
  end.

Definition DeduplicateLeaderRequestUnlocked (st : t) (rpc_req : ConsensusRequestPB)
  : option LeaderRequest :=
  '(preceding, msgs) ←
    dedup_loop (pending_ st) (pending_GetCommittedIndex (pending_ st)) (ops rpc_req)
      (preceding_id rpc_req) (index (GetLastOpIdInLog (queue_ st))) [];
  Some (mkLeaderRequest (caller_uuid rpc_req) preceding msgs).

(** The KUDU-639 sequence check over the deduplicated messages: the first
    failing status, or OK. *)
Fixpoint check_sequence (prev : OpId) (msgs : list ReplicateMsg) : Status :=
  match msgs with
  | [] => OK
  | m :: rest =>
      match CheckOpInSequence env prev (id m) with
      | OK => check_sequence (id m) rest
      | s => s
      end
  end.

Definition TruncateAndAbortOpsAfterUnlocked (st : t) (truncate_after_index : Z) : t :=
  with_queue_pending st
    (TruncateOpsAfter env (queue_ st) truncate_after_index)
    (AbortOpsAfter env (pending_ st) truncate_after_index)
    (peer_manager_closed_ st).

Definition msg_lmp_violated : string := "Log matching property violated.".

Definition EnforceLogMatchingPropertyMatchesUnlocked (st : t) (req : LeaderRequest)
    (response : ConsensusResponsePB) : Status * ConsensusResponsePB * t :=
  let '(found, term_mismatch) := IsOpCommittedOrPending env (pending_ st) (preceding_opid req) in
  if found then (OK, response, st)
  else
    (OK,
     FillConsensusResponseError response PRECEDING_ENTRY_DIDNT_MATCH
       (IllegalState msg_lmp_violated),
     if term_mismatch
     then TruncateAndAbortOpsAfterUnlocked st (index (preceding_opid req) - 1)
     else st).

Definition msg_old_version : string :=
  "Leader appears to be running an earlier version of Kudu.".

(** [CheckLeaderRequestUnlocked]: the status, the response, the replica, the
    deduplicated request and whether a new leader was detected.  [None] is an
    abort (a [CHECK], the fatal log on a second leader in one term, or the
    dereference in the deduplication). *)
Definition CheckLeaderRequestUnlocked (st : t) (request : ConsensusRequestPB)
    (response : ConsensusResponsePB)
  : option (Status * ConsensusResponsePB * t * option LeaderRequest * bool) :=
  if has_deprecated_committed_index request || negb (has_all_replicated_index request)
  then Some (InvalidArgument msg_old_version, response, st, None, false)
  else
    deduped_req ← DeduplicateLeaderRequestUnlocked st request;
    match check_sequence (preceding_opid deduped_req) (messages deduped_req) with
    | OK =>
        let '(s1, response, st) := HandleLeaderRequestTermUnlocked st request response in
        if negb (ok s1) then Some (s1, response, st, Some deduped_req, false)
        else if has_status_error response then Some (OK, response, st, Some deduped_req, false)
        else
          let '(s2, response, st) :=
            EnforceLogMatchingPropertyMatchesUnlocked st deduped_req response in
          if negb (ok s2) then Some (s2, response, st, Some deduped_req, false)
          else if has_status_error response
          then Some (OK, response, st, Some deduped_req, false)
          else
            st ← match messages deduped_req with
                 | [] => Some st
                 | m0 :: _ =>
                     let '(found, term_mismatch) :=
                       IsOpCommittedOrPending env (pending_ st) (id m0) in
                     if found then None
                     else if term_mismatch
                     then Some (TruncateAndAbortOpsAfterUnlocked st
                                  (index (preceding_opid deduped_req)))
                     else Some st
                 end;
            if HasLeaderUnlocked st
               && negb (bool_decide (GetLeaderUuidUnlocked st = caller_uuid request))
            then None
            else if negb (HasLeaderUnlocked st)
            then
              let r := SetLeaderUuidUnlocked st (caller_uuid request) in
              if negb (ok r.1) then Some (r.1, response, r.2, Some deduped_req, false)
              else Some (OK, response, r.2, Some deduped_req, true)
            else Some (OK, response, st, Some deduped_req, false)
    | s => Some (s, response, st, Some deduped_req, false)
    end.

(** The calls [UpdateReplica] makes on the pending rounds and on the queue,
    in the order it makes them. *)
Inductive Event : Type :=
| EvAdvanceCommittedIndex (idx : Z)
| EvStartFollowerTransaction (op : OpId)
| EvAppendOperations (ops : list OpId)
| EvUpdateFollowerWatermarks (committed all_replicated region_durable : Z).

Definition is_enqueue (e : Event) : bool :=
  match e with
  | EvStartFollowerTransaction _ | EvAppendOperations _ => true
  | _ => false
  end.

Definition msg_payload_corruption : string := "Rejected: Payload corruption".
Definition msg_fail_all_prepare : string :=
  "Rejected: --follower_fail_all_prepare is set to true.".

Definition StartFollowerTransactionUnlocked (st : t) (msg : ReplicateMsg)
  : option (Status * t) :=
  if negb (payload_crc32 msg =? 0) && negb (payload_crc32 msg =? computed_crc32 msg)
  then Some (Corruption msg_payload_corruption, st)
  else
    match op_type msg with
    | NO_OP | CHANGE_CONFIG_OP =>
        match StartConsensusOnlyRound env msg with
        | OK => AddPendingOperationUnlocked st msg
        | s => Some (s, st)
        end
    | WRITE_OP =>
        if follower_fail_all_prepare env then Some (IllegalState msg_fail_all_prepare, st)
        else
          match StartFollowerTransaction env msg with
          | OK => AddPendingOperationUnlocked st msg
          | s => Some (s, st)
          end
    end.

(** The prepare loop: the replica, the messages prepared, the status of the
    first failure (OK when there is none) and the attempts made; [None] is an
    abort in [StartFollowerTransactionUnlocked] or the [CHECK_OK] on
    [MessageReceivedFromLeader]. *)
Fixpoint prepare_loop (st : t) (msgs prepared : list ReplicateMsg) (evs : list Event)
  : option (t * list ReplicateMsg * Status * list Event) :=
  match msgs with
  | [] => Some (st, prepared, OK, evs)
  | m :: rest =>
      '(s, st1) ← StartFollowerTransactionUnlocked st m;
      let evs := evs ++ [EvStartFollowerTransaction (id m)] in
      if negb (ok s) then Some (st1, prepared, s, evs)
      else
        match MessageReceivedFromLeader env m with
        | OK => prepare_loop st1 rest (prepared ++ [m]) evs
        | _ => None                                        (* CHECK_OK *)
        end
  end.

Definition msg_soft_limit : string := "Soft memory limit exceeded".
Definition msg_cannot_prepare : string :=
  "Rejecting Update request from peer. Could not prepare a single transaction.".

(** [early_apply_up_to] of [UpdateReplica]: [std::min] of the three indexes. *)
Definition early_apply_up_to (st : t) (deduped_req : LeaderRequest)
    (request : ConsensusRequestPB) : Z :=
  Z.min (Z.min (index (GetLastPendingTransactionOpId (pending_ st)))
               (index (preceding_opid deduped_req)))
        (committed_index request).

(** The first step of [UpdateReplica] once the request is accepted: the
    bookkeeping on accepting the leader, then "1 - Early commit pending (and
    committed) transactions".  [None] is the [CHECK_OK] on
    [AdvanceCommittedIndex]. *)
Definition UpdateReplica_early_commit (st : t) (request : ConsensusRequestPB)
    (deduped_req : LeaderRequest) (now : Z) : option t :=
  let st := with_failed_elections st 0 0 in
  let st := with_queue st (UpdateLastIndexAppendedToLeader env (queue_ st)
                             (last_idx_appended_to_leader request)) in
  let st := with_withhold_votes_until st (TimeAt (now + minimum_election_timeout flags)) in
  match AdvanceCommittedIndex env (pending_ st)
          (early_apply_up_to st deduped_req request) with
  | (OK, p) => Some (with_pending st p)
  | _ => None
  end.

(** [UpdateReplica] once the request is accepted (steps 1 to 5 of the
    source): early commit, memory-pressure check, prepares, queue append,
    final commit, the response and, when operations were appended, the wait
    for the log, whose status is the one returned. *)
Definition UpdateReplica_accepted (st : t) (request : ConsensusRequestPB)
    (response : ConsensusResponsePB) (deduped_req : LeaderRequest)
    (soft_limit_exceeded : bool) (now : Z)
  : option (Status * ConsensusResponsePB * t * list Event) :=
  let evs := [EvAdvanceCommittedIndex (early_apply_up_to st deduped_req request)] in
  (* 1 - Early commit pending (and committed) transactions *)
  st ← UpdateReplica_early_commit st request deduped_req now;
  (* 2 - Enqueue the prepares *)
  if negb (bool_decide (messages deduped_req = [])) && soft_limit_exceeded
  then Some (ServiceUnavailable msg_soft_limit, response, st, evs)
  else
    '(st, prepared, prepare_status, evs) ← prepare_loop st (messages deduped_req) [] evs;
    if negb (ok prepare_status) && bool_decide (prepared = [])
    then
      let response := FillConsensusResponseError response CANNOT_PREPARE
                        (IllegalState msg_cannot_prepare) in
      Some (OK, FillConsensusResponseOKUnlocked st response, st, evs)
    else
      (* 3 - Enqueue the writes *)
      r ← match last prepared with
          | Some m =>
              match AppendOperations env (queue_ st) prepared with
              | (OK, q) => Some (id m, with_queue st q,
                                 evs ++ [EvAppendOperations (map id prepared)])
              | _ => None
              end
          | None => Some (preceding_opid deduped_req, st, evs)
          end;
      let '(last_from_leader, st, evs) := r in
      (* 4 - Mark transactions as committed *)
      let apply_up_to :=
        if index last_from_leader <? committed_index request
        then index last_from_leader else committed_index request in
      match AdvanceCommittedIndex env (pending_ st) apply_up_to with
      | (OK, p) =>
          let st := with_pending st p in
          let st := with_queue st
                      (UpdateFollowerWatermarks env (queue_ st) apply_up_to
                         (all_replicated_index request) (region_durable_index request)) in
          let st := with_last_received_cur_leader st last_from_leader in
          (* 5 - We wait for the writes to be durable *)
          let s := match prepared with
                   | [] => OK
                   | _ => WaitForLogAppend env (queue_ st) prepared
                   end in
          Some (s, FillConsensusResponseOKUnlocked st response, st,
                evs ++ [EvAdvanceCommittedIndex apply_up_to;
                        EvUpdateFollowerWatermarks apply_up_to
                          (all_replicated_index request) (region_durable_index request)])
      | _ => None
      end.

(** [UpdateReplica]: the check of the request, then either the early reply
    (the request was refused in the response) or the accepted path. *)
Definition UpdateReplica (st : t) (request : ConsensusRequestPB)
    (response : ConsensusResponsePB) (soft_limit_exceeded : bool) (now : Z)
  : option (Status * ConsensusResponsePB * t * list Event) :=
  match CheckRunningUnlocked st with
  | OK =>
      '(s, response, st, deduped_req, _) ← CheckLeaderRequestUnlocked st request response;
      if negb (ok s) then Some (s, response, st, [])
      else if has_status_error response
      then Some (OK, FillConsensusResponseOKUnlocked st response, st, [])
      else
        match deduped_req with
        | Some d => UpdateReplica_accepted st request response d soft_limit_exceeded now
        | None => None
        end
  | s => Some (s, response, st, [])
  end.

(** *** Configuration changes *)

Inductive ChangeConfigType : Type := ADD_PEER | REMOVE_PEER | MODIFY_PEER.

Inductive ServerErrorCode : Type := CAS_FAILED | INVALID_CONFIG.

Record ConfigChangeItem : Type := mkItem {
  change_type : option ChangeConfigType;
  change_peer : option RaftPeerPB
}.

Record BulkChangeConfigRequestPB : Type := mkBulkRequest {
  cas_config_opid_index : option Z;
  config_changes : list ConfigChangeItem
}.

Record ChangeConfigRequestPB : Type := mkChangeRequest {
  req_cas_config_opid_index : option Z;
  req_type : option ChangeConfigType;
  req_server : option RaftPeerPB
}.

Definition GetBulkConfigChangeRequest (req : ChangeConfigRequestPB)
  : BulkChangeConfigRequestPB :=
  mkBulkRequest (req_cas_config_opid_index req) [mkItem (req_type req) (req_server req)].

Definition msg_not_committed_in_term : string :=
  "Leader has not yet committed an operation in its own term".
Definition msg_cas_failed : string :=
  "Request specified cas_config_opid_index but the committed config has another opid_index".

(** The per-item part of [CheckBulkConfigChangeAndGetNewConfigUnlocked] (one
    change per peer, the ADD/REMOVE/MODIFY rules, at most one voter changed,
    no no-op change): it starts from a copy of the committed configuration and
    is not unfolded here. *)
Variable apply_config_changes :
  t -> BulkChangeConfigRequestPB -> RaftConfigPB
  -> Status * option ServerErrorCode * RaftConfigPB.

(** [CheckBulkConfigChangeAndGetNewConfigUnlocked]: the status, the
    [*error_code] and the [*new_config] out-parameters ([new_config] is
    default-constructed by the callers and is written only once the
    preconditions hold). *)
Definition CheckBulkConfigChangeAndGetNewConfigUnlocked (st : t)
    (req : BulkChangeConfigRequestPB)
  : Status * option ServerErrorCode * RaftConfigPB :=
  match CheckRunningUnlocked st with
  | OK =>
      match CheckActiveLeaderUnlocked st with
      | OK =>
          match CheckNoConfigChangePendingUnlocked st with
          | OK =>
              (* We are required by Raft to reject config change operations
                 until we have committed at least one operation in our
                 current term as leader. *)
              if negb (IsCommittedIndexInCurrentTerm (queue_ st))
              then (IllegalState msg_not_committed_in_term, None, empty_RaftConfigPB)
              else
                let committed := committed_config (cmeta_ st) in
                match cas_config_opid_index req with
                | Some cas =>
                    if negb (opid_index_of committed =? cas)
                    then (IllegalState msg_cas_failed, Some CAS_FAILED, empty_RaftConfigPB)
                    else apply_config_changes st req committed
                | None => apply_config_changes st req committed
                end
          | s => (s, None, empty_RaftConfigPB)
          end
      | s => (s, None, empty_RaftConfigPB)
      end
  | s => (s, None, empty_RaftConfigPB)
  end.

(** [BulkChangeConfig]: the status, the [*error_code], the replica and whether
    the peers were signalled.  The status returned by the check is not
    examined by the source: whatever the check left in [new_config] is
    replicated. *)
Definition BulkChangeConfig (st : t) (req : BulkChangeConfigRequestPB)
  : option (Status * option ServerErrorCode * t * bool) :=
  let '(_, error_code, new_config) :=
    CheckBulkConfigChangeAndGetNewConfigUnlocked st req in
  let committed := committed_config (cmeta_ st) in
  '(s, st') ← ReplicateConfigChangeUnlocked st committed new_config;
  if negb (ok s) then Some (s, error_code, st', false)
  else Some (OK, error_code, st', true).

Definition ChangeConfig (st : t) (req : ChangeConfigRequestPB)
  : option (Status * option ServerErrorCode * t * bool) :=
  BulkChangeConfig st (GetBulkConfigChangeRequest req).

(** [CheckAndPopulateChangeConfigMessage]: the sibling entry point, which
    returns the check's status before building the message. *)
Definition CheckAndPopulateChangeConfigMessage (st : t) (req : ChangeConfigRequestPB)
  : Status * option ServerErrorCode * option ReplicateMsg :=
  let '(s, error_code, new_config) :=
    CheckBulkConfigChangeAndGetNewConfigUnlocked st (GetBulkConfigChangeRequest req) in
  if negb (ok s) then (s, error_code, None)
  else (OK, error_code,
        Some (mkMsg (mkOpId 0 0) CHANGE_CONFIG_OP (committed_config (cmeta_ st))
                new_config 0 0)).

End Replica.

End RaftConsensus.

(** ** leader_election.cc: LeaderElection::Run *)

Module LeaderElectionRun.
Import VoteCounter PB LeaderElection RaftConsensus.

(** The two accessors of the counter that [Run] checks; the flexible counter
    inherits them from [VoteCounter]. *)
Class CounterTotals (C : Type) : Type := {
  counter_GetTotalVotesCounted : C -> Z;
  counter_GetTotalExpectedVotes : C -> Z
}.

#[global] Instance classic_totals : CounterTotals VoteCounter.t := {
  counter_GetTotalVotesCounted := VoteCounter.GetTotalVotesCounted;
  counter_GetTotalExpectedVotes := VoteCounter.GetTotalExpectedVotes
}.

#[global] Instance flexible_totals : CounterTotals FlexibleVoteCounter.t := {
  counter_GetTotalVotesCounted c := VoteCounter.GetTotalVotesCounted (FlexibleVoteCounter.base c);
  counter_GetTotalExpectedVotes c :=
    VoteCounter.GetTotalExpectedVotes (FlexibleVoteCounter.base c)
}.

Section Run.
Context {C : Type} `{Counter C} `{CounterTotals C}.

(** [proxy_factory_->NewProxy(peer, &state->proxy)]: whether a proxy to the
    peer could be built. *)
Variable NewProxy : RaftPeerPB -> bool.

(** The first loop of [Run]: a voter state for every voter of the
    configuration other than the candidate; [InsertOrDie] aborts on a uuid
    listed twice.  No call has been made yet, so the RPC fields hold their
    defaults. *)
Fixpoint init_voter_states (candidate : string) (peers : list RaftPeerPB)
    (other_voter_uuids : list string) (voter_state : gmap string VoterState)
  : option (list string * gmap string VoterState) :=
  match peers with
  | [] => Some (other_voter_uuids, voter_state)
  | peer :: rest =>
      if bool_decide (candidate = permanent_uuid peer)
      then init_voter_states candidate rest other_voter_uuids voter_state
      else if negb (bool_decide (member_type peer = VOTER))
      then init_voter_states candidate rest other_voter_uuids voter_state
      else
        match voter_state !! permanent_uuid peer with
        | Some _ => None
        | None =>
            init_voter_states candidate rest
              (other_voter_uuids ++ [permanent_uuid peer])
              (<[permanent_uuid peer :=
                   mkVoterState (permanent_uuid peer) (NewProxy peer) false
                     empty_VoteResponsePB]> voter_state)
        end
  end.

(** The body of the second loop for a voter whose proxy could not be built:
    a NO vote is recorded and the decision checked. *)
Definition proxy_failed (e : LeaderElection.t C) (state : VoterState)
  : option (LeaderElection.t C * option ElectionResult) :=
  CheckForDecision (RecordVoteUnlocked e state VOTE_DENIED).

(** The second loop: the election afterwards, the results the decision
    callback was invoked with, and the voters a request was sent to. *)
Fixpoint request_votes (e : LeaderElection.t C) (other_voter_uuids : list string)
    (decisions : list ElectionResult) (sent : list string)
  : option (LeaderElection.t C * list ElectionResult * list string) :=
  match other_voter_uuids with
  | [] => Some (e, decisions, sent)
  | voter_uuid :: rest =>
      state ← voter_state_ e !! voter_uuid;
      if negb (proxy_status_ok state) then
        r ← proxy_failed e state;
        request_votes r.1 rest (decisions ++ option_list r.2) sent
      else request_votes e rest decisions (sent ++ [voter_uuid])
  end.

(** [Run]; [None] is an abort: a voter listed twice, a counter that does not
    hold exactly the candidate's own vote, or a number of voters that does
    not add up to the expected total. *)
Definition Run (config : RaftConfigPB) (e : LeaderElection.t C)
  : option (LeaderElection.t C * list ElectionResult * list string) :=
  s ← init_voter_states (candidate_uuid (request_ e)) (peers config) [] ∅;
  let other_voter_uuids := s.1 in
  let e0 := LeaderElection.mk (has_responded_ e) (request_ e) (vote_counter_ e)
              (highest_voter_term_ e) (result_ e) s.2 in
  if negb (counter_GetTotalVotesCounted (vote_counter_ e0) =? 1) then None
  else if negb (counter_GetTotalVotesCounted (vote_counter_ e0)
                + Z.of_nat (length other_voter_uuids)
                =? counter_GetTotalExpectedVotes (vote_counter_ e0))
  then None
  else
    r ← CheckForDecision e0;
    request_votes r.1 other_voter_uuids (option_list r.2) [].

(** The responses handled one after the other: each is stored by the
    transport and handed to [VoteResponseRpcCallback]; the results the
    decision callback was invoked with are collected. *)
Fixpoint handle_responses (e : LeaderElection.t C)
    (responses : list (string * bool * VoteResponsePB))
  : option (LeaderElection.t C * list ElectionResult) :=
  match responses with
  | [] => Some (e, [])
  | (voter_uuid, rpc_status_ok, resp) :: rest =>
      r ← rpc_completes e voter_uuid rpc_status_ok resp;
      r' ← handle_responses r.1 rest;
      Some (r'.1, option_list r.2 ++ r'.2)
  end.

End Run.

End LeaderElectionRun.

(** * Example data *)

Module Examples.
Import PB RaftConsensus.

Definition example_flags : Flags := mkFlags true false 100 false 10 true.

(** Stand-ins for the collaborators that are not among the sources: pending
    rounds whose committed index only moves forward, a queue that accepts
    every append and reports it durable, a round handler that starts every
    round and a [VerifyRaftConfig] that accepts every configuration. *)
Definition example_env : Collaborators :=
  mkCollaborators
    (fun p idx => (OK, mkPending (GetLastPendingTransactionOpId p)
                         (Z.max (pending_GetCommittedIndex p) idx)
                         (GetPendingOpByIndexOrNull p)))
    (fun p o => (index o <=? Z.max (pending_GetCommittedIndex p)
                               (index (GetLastPendingTransactionOpId p)), false))
    (fun p _ => p)
    (fun p m => (OK, mkPending (id m) (pending_GetCommittedIndex p)
                       (GetPendingOpByIndexOrNull p)))
    (fun _ _ => OK)
    (fun q _ => q)
    (fun q _ => (OK, q))
    (fun q _ _ _ => q)
    (fun q _ => q)
    (fun q _ _ _ => mkQueue (GetLastOpIdInLog q) (GetCommittedIndex q)
                      (IsCommittedIndexInCurrentTerm q) true (GetNextOpId q))
    (fun q _ => q)
    (fun _ => OK) (fun _ => OK) (fun _ => OK) (fun _ => OK)
    (fun _ _ => [])
    (fun _ _ => OK)
    (fun _ => OK)
    (fun _ _ => OK)
    false false false.

Definition example_config : RaftConfigPB :=
  mkConfig (Some 1)
    [mkPeer "A" VOTER "r1" ""; mkPeer "B" VOTER "r1" ""; mkPeer "C" VOTER "r1" ""]
    false ∅ None false.

(** Replica "A" of [example_config], running, with the given term, vote and
    leader, everything flushed, ten operations in the log all committed and
    nothing pending. *)
Definition example_replica (term : Z) (vote : option string) (leader : string) : t :=
  let cm := mkCMeta term vote leader example_config None [] in
  mk kRunning "A" "r1" cm cm 0%nat
     (mkQueue (mkOpId 2 10) 10 false false (mkOpId term 11))
     (mkPending (mkOpId 0 0) 10 (fun _ => None))
     false false TimeMin (mkOpId 0 0) 0 0 false true [].

(** Replica "A" following leader "B" in term 5: twelve operations in the log,
    ten of them committed, the last pending one being (5, 12). *)
Definition example_follower : t :=
  let cm := mkCMeta 5 None "B" example_config None [] in
  mk kRunning "A" "r1" cm cm 0%nat
     (mkQueue (mkOpId 5 12) 10 true false (mkOpId 5 13))
     (mkPending (mkOpId 5 12) 10 (fun _ => None))
     false false TimeMin (mkOpId 5 12) 0 0 false true [].

(** An update from "B" in term 5 that follows (5, 12), carries the write
    (5, 13) and reports 11 as the leader's committed index. *)
Definition example_update : ConsensusRequestPB :=
  mkRequest "B" 5 (mkOpId 5 12)
    [mkMsg (mkOpId 5 13) WRITE_OP empty_RaftConfigPB empty_RaftConfigPB 0 0]
    11 10 10 13 false true.

Definition example_response : ConsensusResponsePB :=
  mkResponse "A" None None None None None.

(** A heartbeat from "B" in term 5 to a replica whose ten operations are all
    committed. *)
Definition example_heartbeat : ConsensusRequestPB :=
  mkRequest "B" 5 (mkOpId 2 10) [] 10 10 10 10 false true.

(** A vote request for term 6 from a candidate whose log ends at (2, 10). *)
Definition example_vote_request (candidate : string) : VoteRequestPB :=
  mkVoteRequest candidate 6 (mkOpId 2 10) false false.

(** The deduplicated [example_update]: nothing of it is in the log yet. *)
Definition example_deduped : LeaderRequest :=
  mkLeaderRequest "B" (mkOpId 5 12)
    [mkMsg (mkOpId 5 13) WRITE_OP empty_RaftConfigPB empty_RaftConfigPB 0 0].

(** The answer of "B" to a vote request for term 5: a denial from term 6. *)
Definition example_denial : LeaderElection.VoterState :=
  LeaderElection.mkVoterState "B" true true
    (mkVoteResponse "B" 6 false
       (Some (INVALID_TERM, InvalidArgument "Invalid term")) false None 0).

(** The election of "A" for term 5 (three voters, its own vote counted) once
    "B" has answered, with no result so far. *)
Definition example_election : LeaderElection.t VoteCounter.t :=
  LeaderElection.mk false (mkVoteRequest "A" 5 (mkOpId 2 10) false false)
    (VoteCounter.mk 3 false 2 {["A" := VoteCounter.mkVoteInfo VoteCounter.VOTE_GRANTED false 0]} 1 0)
    5 None {["B" := example_denial]}.

(** Replica "A" just elected leader of term 5: nothing of term 5 is committed
    yet. *)
Definition example_new_leader : t := example_replica 5 (Some "A") "A".

(** The request to add a non-voter "D". *)
Definition example_add_peer : BulkChangeConfigRequestPB :=
  mkBulkRequest None [mkItem (Some ADD_PEER) (Some (mkPeer "D" NON_VOTER "r1" ""))].

(** A per-item step that accepts the change as it is (it is not reached when
    a precondition fails). *)
Definition example_apply (st : t) (req : BulkChangeConfigRequestPB) (c : RaftConfigPB)
  : Status * option ServerErrorCode * RaftConfigPB :=
  (OK, None, clear_opid_index c).

(** [example_update] as a leader of term [term] would send it. *)
Definition example_update_from_term (term : Z) : ConsensusRequestPB :=
  mkRequest "B" term (mkOpId 5 12)
    [mkMsg (mkOpId 5 13) WRITE_OP empty_RaftConfigPB empty_RaftConfigPB 0 0]
    11 10 10 13 false true.

End Examples.

(** * The classic vote counter *)

Section VoteCounterFacts.
Import VoteCounter.

(** The tally is the number of distinct voters recorded with that vote. *)
Definition tally (v : ElectionVote) (m : gmap string VoteInfo) : Z :=
  Z.of_nat (size (filter (fun kv => vote kv.2 = v) m)).

(** The invariant of a counter built by [new] and fed by [RegisterVote]. *)
Record counter_inv (c : t) : Prop := {
  inv_yes : yes_votes_ c = tally VOTE_GRANTED (votes_ c);
  inv_no : no_votes_ c = tally VOTE_DENIED (votes_ c);
  inv_total : yes_votes_ c + no_votes_ c <= num_voters_ c
}.

Definition example_votes : list (string * VoteInfo) :=
  [("a", mkVoteInfo VOTE_GRANTED false 0); ("b", mkVoteInfo VOTE_DENIED false 0);
   ("c", mkVoteInfo VOTE_GRANTED false 0)].

Lemma ElectionVote_eqb_eq a b : ElectionVote_eqb a b = true <-> a = b.
Proof. destruct a, b; simpl; split; congruence. Qed.

Lemma tally_insert_same v (m : gmap string VoteInfo) k (x : VoteInfo) :
  m !! k = None -> vote x = v -> tally v (<[k := x]> m) = tally v m + 1.
Proof.
  intros Hk Hv. unfold tally.
  rewrite map_filter_insert_True by done.
  rewrite map_size_insert_None; [lia |].
  apply map_lookup_filter_None_2. by left.
Qed.

Lemma tally_insert_other v (m : gmap string VoteInfo) k (x : VoteInfo) :
  m !! k = None -> vote x <> v -> tally v (<[k := x]> m) = tally v m.
Proof.
  intros Hk Hv. unfold tally.
  rewrite map_filter_insert_not' ; [done | done |].
  intros y Hy. congruence.
Qed.

Lemma tally_nonneg v m : 0 <= tally v m.
Proof. unfold tally. lia. Qed.

Lemma new_inv N M c : new N M = Some c ->
  counter_inv c /\ num_voters_ c = N /\ majority_size_ c = M /\ 0 < M <= N.
Proof.
  unfold new. intros H.
  destruct (M <=? N) eqn:E1; simpl in H; [| discriminate].
  destruct (0 <? N) eqn:E2; simpl in H; [| discriminate].
  destruct (0 <? M) eqn:E3; simpl in H; [| discriminate].
  injection H as <-. simpl. repeat split; simpl; try lia.
Qed.

Lemma RegisterVote_sizes c u i :
  num_voters_ (rv_counter (RegisterVote c u i)) = num_voters_ c /\
  majority_size_ (rv_counter (RegisterVote c u i)) = majority_size_ c.
Proof.
  unfold RegisterVote.
  destruct (votes_ c !! u); [destruct (negb _); done |].
  destruct (_ =? _); [done |]. destruct (vote i); done.
Qed.

Lemma RegisterVote_inv c u i : counter_inv c -> counter_inv (rv_counter (RegisterVote c u i)).
Proof.
  intros [Hy Hn Ht]. unfold RegisterVote.
  destruct (votes_ c !! u) eqn:Hu; [destruct (negb _); done |].
  destruct (_ =? _) eqn:E; [done |]. apply Z.eqb_neq in E.
  destruct (vote i) eqn:Hv; constructor; simpl.
  - rewrite tally_insert_other; [done | done | congruence].
  - rewrite tally_insert_same; [lia | done | done].
  - lia.
  - rewrite tally_insert_same; [lia | done | done].
  - rewrite tally_insert_other; [done | done | congruence].
  - lia.
Qed.

Lemma register_all_inv l : forall c, counter_inv c -> counter_inv (register_all c l).
Proof.
  induction l as [| [u i] l IH]; intros c Hc; [done |].
  apply IH, RegisterVote_inv, Hc.
Qed.

Lemma register_all_sizes l : forall c,
  num_voters_ (register_all c l) = num_voters_ c /\
  majority_size_ (register_all c l) = majority_size_ c.
Proof.
  induction l as [| [u i] l IH]; intros c; [done |].
  unfold register_all in *. simpl. destruct (IH (rv_counter (RegisterVote c u i))) as [-> ->].
  apply RegisterVote_sizes.
Qed.

Lemma GetDecision_cases c :
  (GetDecision c = (OK, Some VOTE_GRANTED) <-> majority_size_ c <= yes_votes_ c) /\
  (GetDecision c = (OK, Some VOTE_DENIED) <->
     ~ majority_size_ c <= yes_votes_ c /\ num_voters_ c - majority_size_ c < no_votes_ c) /\
  (GetDecision c = (IllegalState msg_not_decided, None) <->
     ~ majority_size_ c <= yes_votes_ c /\ ~ num_voters_ c - majority_size_ c < no_votes_ c).
Proof.
  unfold GetDecision.
  destruct (Z.leb_spec (majority_size_ c) (yes_votes_ c));
    [| destruct (Z.ltb_spec (num_voters_ c - majority_size_ c) (no_votes_ c))];
    repeat split; intros; (discriminate || lia || tauto || idtac).
Qed.

(** C5.  For a counter built for N voters with majority size M and any
    sequence of registrations: the decision is GRANTED exactly when
    yes_votes >= M, DENIED exactly when no_votes > N - M, and otherwise
    [GetDecision] returns IllegalState; [IsDecided] is the disjunction.  The
    two tallies count the distinct voters recorded with each vote. *)
Theorem VoteCounter_decision_rule (N M : Z) (c0 : t) (l : list (string * VoteInfo)) :
  new N M = Some c0 ->
  let c := register_all c0 l in
  yes_votes_ c = tally VOTE_GRANTED (votes_ c) /\
  no_votes_ c = tally VOTE_DENIED (votes_ c) /\
  (GetDecision c = (OK, Some VOTE_GRANTED) <-> M <= yes_votes_ c) /\
  (GetDecision c = (OK, Some VOTE_DENIED) <-> N - M < no_votes_ c) /\
  (GetDecision c = (IllegalState msg_not_decided, None)
     <-> ~ M <= yes_votes_ c /\ ~ N - M < no_votes_ c) /\
  (IsDecided c = true <-> M <= yes_votes_ c \/ N - M < no_votes_ c).
Proof.
  intros Hnew c.
  destruct (new_inv _ _ _ Hnew) as (Hinv & HN & HM & Hpos).
  pose proof (register_all_inv l c0 Hinv) as [Hy Hn Ht].
  destruct (register_all_sizes l c0) as [HN' HM'].
  fold c in Hy, Hn, Ht, HN', HM'.
  rewrite HN in HN'. rewrite HM in HM'.
  destruct (GetDecision_cases c) as (G & D & U).
  rewrite HN', HM' in *.
  pose proof (tally_nonneg VOTE_GRANTED (votes_ c)).
  pose proof (tally_nonneg VOTE_DENIED (votes_ c)).
  assert (Hex : M <= yes_votes_ c -> N - M < no_votes_ c -> False) by lia.
  split; [done |]. split; [done |].
  split; [exact G |].
  split; [rewrite D; split; [tauto | intros; split; [intros ?; eauto | done]] |].
  split; [exact U |].
  unfold IsDecided. rewrite HN', HM', orb_true_iff, Z.leb_le, Z.ltb_lt. done.
Qed.

Lemma VoteCounter_decision_rule_witness :
  new 3 2 = Some (mk 3 false 2 ∅ 0 0) /\
  (GetDecision (register_all (mk 3 false 2 ∅ 0 0) example_votes) = (OK, Some VOTE_GRANTED)
   <-> 2 <= yes_votes_ (register_all (mk 3 false 2 ∅ 0 0) example_votes)).
Proof.
  split; [reflexivity |].
  apply (VoteCounter_decision_rule 3 2 (mk 3 false 2 ∅ 0 0) example_votes eq_refl).
Defined.

Lemma RegisterVote_keeps_record c u i k (x : VoteInfo) :
  votes_ c !! k = Some x -> votes_ (rv_counter (RegisterVote c u i)) !! k = Some x.
Proof.
  intros Hk. unfold RegisterVote.
  destruct (votes_ c !! u) eqn:Hu; [destruct (negb _); done |].
  destruct (_ =? _); [done |].
  assert (u <> k) by congruence.
  destruct (vote i); simpl; by rewrite lookup_insert_ne.
Qed.

Lemma register_all_keeps_record l : forall c k (x : VoteInfo),
  votes_ c !! k = Some x -> votes_ (register_all c l) !! k = Some x.
Proof.
  induction l as [| [u i] l IH]; intros c k x Hk; [done |].
  apply IH, RegisterVote_keeps_record, Hk.
Qed.

Lemma RegisterVote_ok_records c u i :
  rv_status (RegisterVote c u i) = OK ->
  exists x, votes_ (rv_counter (RegisterVote c u i)) !! u = Some x /\ vote x = vote i.
Proof.
  unfold RegisterVote.
  destruct (votes_ c !! u) as [prior |] eqn:Hu.
  - destruct (ElectionVote_eqb (vote prior) (vote i)) eqn:E; simpl; [| discriminate].
    intros _. exists prior. split; [done |]. by apply ElectionVote_eqb_eq.
  - destruct (_ =? _); [discriminate |].
    destruct (vote i) eqn:Hv; simpl; intros _; exists i; by rewrite lookup_insert_eq.
Qed.

(** C8.  Once a voter's vote has been registered, whatever is registered
    afterwards, a second vote of that voter that differs from the first is
    refused with InvalidArgument and the counter is left as it was; an
    identical one returns OK with [is_duplicate] set and changes neither the
    vote record nor the counts. *)
Theorem RegisterVote_second_vote (c : t) (voter_uuid : string) (first second : VoteInfo)
    (more : list (string * VoteInfo)) :
  rv_status (RegisterVote c voter_uuid first) = OK ->
  let c1 := register_all (rv_counter (RegisterVote c voter_uuid first)) more in
  (vote second <> vote first ->
     RegisterVote c1 voter_uuid second = mkResult (InvalidArgument msg_changed_vote) None c1) /\
  (vote second = vote first ->
     RegisterVote c1 voter_uuid second = mkResult OK (Some true) c1).
Proof.
  intros Hok c1.
  destruct (RegisterVote_ok_records _ _ _ Hok) as (x & Hx & Hv).
  apply (register_all_keeps_record more) in Hx. fold c1 in Hx.
  unfold RegisterVote. rewrite Hx, Hv. split; intros H.
  - destruct (ElectionVote_eqb (vote first) (vote second)) eqn:E; [| done].
    apply ElectionVote_eqb_eq in E. congruence.
  - rewrite H. destruct (ElectionVote_eqb (vote first) (vote first)) eqn:E; [done |].
    assert (ElectionVote_eqb (vote first) (vote first) = true) by by apply ElectionVote_eqb_eq.
    congruence.
Qed.

Lemma RegisterVote_second_vote_witness :
  RegisterVote
    (register_all (rv_counter (RegisterVote (mk 3 false 2 ∅ 0 0) "a"
                                 (mkVoteInfo VOTE_GRANTED false 0)))
                  [("b", mkVoteInfo VOTE_DENIED false 0)])
    "a" (mkVoteInfo VOTE_DENIED true 7)
  = mkResult (InvalidArgument msg_changed_vote) None
      (register_all (rv_counter (RegisterVote (mk 3 false 2 ∅ 0 0) "a"
                                   (mkVoteInfo VOTE_GRANTED false 0)))
                    [("b", mkVoteInfo VOTE_DENIED false 0)]).
Proof.
  refine (proj1 (RegisterVote_second_vote (mk 3 false 2 ∅ 0 0) "a"
                   (mkVoteInfo VOTE_GRANTED false 0) (mkVoteInfo VOTE_DENIED true 7)
                   [("b", mkVoteInfo VOTE_DENIED false 0)] _) _);
    [reflexivity | discriminate].
Defined.

End VoteCounterFacts.

(** * The static quorum modes of the flexible vote counter *)

Section StaticQuorumFacts.
Import VoteCounter FlexibleVoteCounter.
Variable MajoritySize : Z -> Z.
Variable IsDynamicQuorumSatisfied : FlexibleVoteCounter.t -> option (bool * bool).

(** The claim's vocabulary.  A region has a yes-vote regional majority when
    its yes votes reach the majority of its voters; a majority is out of
    reach when it is not there and the no votes leave fewer than a majority
    of the region's voters (a region listed with an empty name never has
    one). *)
Definition has_yes_majority (c : FlexibleVoteCounter.t) (region : string) : bool :=
  negb (bool_decide (region = "")) &&
  match yes_vote_count_ c !! region, voter_distribution_ c !! region with
  | Some y, Some total => MajoritySize total <=? y
  | _, _ => false
  end.

Definition majority_out_of_reach (c : FlexibleVoteCounter.t) (region : string) : bool :=
  bool_decide (region = "") ||
  match yes_vote_count_ c !! region, no_vote_count_ c !! region,
        voter_distribution_ c !! region with
  | Some y, Some n, Some total =>
      (y <? MajoritySize total) && (total <? n + MajoritySize total)
  | _, _, _ => false
  end.

Definition count_where (f : string -> bool) (l : list string) : Z :=
  Z.of_nat (length (filter (fun r => f r = true) l)).




(** A region is tracked when the three per-region books have an entry for it
    (the constructor enters every region of the voter distribution). *)
Definition tracked (c : FlexibleVoteCounter.t) (region : string) : Prop :=
  region = "" \/
  (is_Some (yes_vote_count_ c !! region) /\ is_Some (no_vote_count_ c !! region) /\
   is_Some (voter_distribution_ c !! region)).





Lemma count_where_cons f r l :
  count_where f (r :: l) = (if f r then 1 else 0) + count_where f l.
Proof.
  unfold count_where. rewrite filter_cons.
  destruct (f r) eqn:E; case_decide; try congruence; simpl length; lia.
Qed.

Lemma count_where_bounds f l : 0 <= count_where f l <= Z.of_nat (length l).
Proof.
  induction l as [| r l IH]; [unfold count_where; simpl; lia |].
  rewrite count_where_cons. simpl length. destruct (f r); lia.
Qed.

Lemma IsMajoritySatisfiedInRegion_spec c region :
  tracked c region ->
  IsMajoritySatisfiedInRegion MajoritySize c region
  = Some (has_yes_majority c region, negb (majority_out_of_reach c region)).
Proof.
  intros Ht. unfold IsMajoritySatisfiedInRegion, IsMajoritySatisfiedInRegions.
  simpl. unfold region_majority, has_yes_majority, majority_out_of_reach.
  case_bool_decide as Hr; simpl; [done |].
  destruct Ht as [? | ([y Hy] & [n Hn] & [tot Htot])]; [done |].
  rewrite Hy, Hn, Htot. simpl.
  destruct (y <? MajoritySize tot) eqn:E1; simpl.
  - assert ((MajoritySize tot <=? y) = false) as -> by lia. done.
  - assert ((MajoritySize tot <=? y) = true) as -> by lia. done.
Qed.

Lemma majority_excludes_out_of_reach c region :
  has_yes_majority c region = true -> majority_out_of_reach c region = false.
Proof.
  unfold has_yes_majority, majority_out_of_reach.
  case_bool_decide; simpl; [done |].
  destruct (yes_vote_count_ c !! region) as [y |]; [| done].
  destruct (voter_distribution_ c !! region) as [tot |];
    [| destruct (no_vote_count_ c !! region); done].
  destruct (no_vote_count_ c !! region) as [n |]; [| done].
  intros Hm. assert ((y <? MajoritySize tot) = false) as -> by lia. done.
Qed.


Lemma counts_disjoint c l :
  count_where (has_yes_majority c) l + count_where (majority_out_of_reach c) l
  <= Z.of_nat (length l).
Proof.
  induction l as [| r l IH]; [unfold count_where; simpl; lia |].
  rewrite !count_where_cons. simpl length.
  destruct (has_yes_majority c r) eqn:E.
  - rewrite (majority_excludes_out_of_reach _ _ E). lia.
  - destruct (majority_out_of_reach c r); lia.
Qed.











End StaticQuorumFacts.

Section StaticQuorumExample.
Import VoteCounter FlexibleVoteCounter.

(** Modelled from the spec: the majority of N voters is N/2 + 1 (section 4.5
    gives it as the ceiling of (N+1)/2; scenario S4 has 2 of 3). *)
Definition MajoritySize_spec (num_voters : Z) : Z := num_voters `quot` 2 + 1.

(** Three regions of three voters, one predicate over them with
    regions_subset_size 2 (so the election needs 3 + 1 - 2 = 2 regional
    majorities); r1 and r2 have two yes votes each. *)
Definition example_static_counter : FlexibleVoteCounter.t :=
  FlexibleVoteCounter.mk (VoteCounter.mk 9 false 1 ∅ 4 1)
    (mkCommitRule STATIC_DISJUNCTION [mkPredicate ["r1"; "r2"; "r3"] 2])
    (<["r1" := 3]> (<["r2" := 3]> (<["r3" := 3]> ∅)))
    (<["r1" := 2]> (<["r2" := 2]> (<["r3" := 0]> ∅)))
    (<["r1" := 0]> (<["r2" := 1]> (<["r3" := 0]> ∅)))
    ∅ ∅.



End StaticQuorumExample.

(** * Terms, votes and the follower update path *)

Section ReplicaFacts.
Import PB RaftConsensus.
Variable flags : Flags.
Variable env : Collaborators.
Variable apply_config_changes :
  t -> BulkChangeConfigRequestPB -> RaftConfigPB
  -> Status * option ServerErrorCode * RaftConfigPB.

(** The vote record may go from [a] to [b]: the term does not go down and,
    within one term, the vote is kept or goes from unset to set. *)
Definition vote_step (a b : ConsensusMetadata) : Prop :=
  current_term a <= current_term b /\
  (current_term b = current_term a -> voted_for b = voted_for a \/ voted_for a = None).

(** A step of the replica respects the vote record in memory and on disk: the
    durable record is either untouched or a snapshot taken on the way. *)
Definition good_step (st st' : t) : Prop :=
  vote_step (cmeta_ st) (cmeta_ st') /\
  ((current_term (durable_ st') = current_term (durable_ st) /\
    voted_for (durable_ st') = voted_for (durable_ st)) \/
   (vote_step (cmeta_ st) (durable_ st') /\ vote_step (durable_ st') (cmeta_ st'))).

(** The durable record is behind the one in memory. *)
Definition durable_behind (st : t) : Prop := vote_step (durable_ st) (cmeta_ st).

(** The replica on which [HandleTermAdvanceUnlocked] sets the term: itself,
    or what [BecomeReplicaUnlocked] leaves when it is the leader. *)
Definition stepped_down (st : t) : t :=
  match active_role st with
  | LEADER => (BecomeReplicaUnlocked st).2
  | _ => st
  end.

(** A step that leaves the term, the vote and the durable record as they are. *)
Definition frame (st st' : t) : Prop :=
  current_term (cmeta_ st') = current_term (cmeta_ st) /\
  voted_for (cmeta_ st') = voted_for (cmeta_ st) /\
  durable_ st' = durable_ st /\ flush_count_ st' = flush_count_ st.

(** What precedes the term handling in [UpdateReplica]: the replica is
    running, the request is of the current protocol version, and the
    deduplicated request exists and is in sequence. *)
Definition reaches_term_check (st : t) (request : ConsensusRequestPB) : Prop :=
  CheckRunningUnlocked st = OK /\
  has_deprecated_committed_index request || negb (has_all_replicated_index request) = false /\
  exists d, DeduplicateLeaderRequestUnlocked st request = Some d /\
            check_sequence env (preceding_opid d) (messages d) = OK.

(** The reply to an update from an earlier term. *)
Definition invalid_term_reply (st : t) (response : ConsensusResponsePB) : ConsensusResponsePB :=
  FillConsensusResponseOKUnlocked st
    (FillConsensusResponseError response INVALID_TERM (IllegalState msg_earlier_term)).

(** C3 as stated: whatever the update request, a lower caller term is refused
    with INVALID_TERM in a reply that leaves the replica as it was, and a
    higher caller term leaves the replica in the caller's term. *)
Definition update_term_handling_as_stated : Prop :=
  forall (st : t) (request : ConsensusRequestPB) (response : ConsensusResponsePB)
         (soft : bool) (now : Z),
    (caller_term request < CurrentTermUnlocked st ->
       exists s r evs status,
         UpdateReplica flags env st request response soft now = Some (s, r, st, evs) /\
         status_error r = Some (INVALID_TERM, status)) /\
    (CurrentTermUnlocked st < caller_term request ->
       forall s r st' evs,
         UpdateReplica flags env st request response soft now = Some (s, r, st', evs) ->
         CurrentTermUnlocked st' = caller_term request).

(** The operations of the replica that reach the consensus metadata. *)
Inductive replica_step : t -> t -> Prop :=
| step_RequestVote st request tomb lock_free now :
    replica_step st (RequestVote flags st request tomb lock_free now).2
| step_StartElection st mode :
    replica_step st (StartElection flags env st mode).1.2
| step_DoElectionCallback st result st' req :
    DoElectionCallback flags env st result = Some (st', req) -> replica_step st st'
| step_UpdateReplica st request response soft now s r st' evs :
    UpdateReplica flags env st request response soft now = Some (s, r, st', evs) ->
    replica_step st st'
| step_StepDown st :
    replica_step st (StepDown st).2
| step_AdvanceTermForTests st new_term s st' :
    AdvanceTermForTests st new_term = Some (s, st') -> replica_step st st'
| step_SetCurrentTermBootstrap st new_term :
    replica_step st (SetCurrentTermBootstrap st new_term).2
| step_BulkChangeConfig st req s code st' signalled :
    BulkChangeConfig env apply_config_changes st req = Some (s, code, st', signalled) ->
    replica_step st st'
| step_NotifyTermChange st term :
    replica_step st (NotifyTermChange st term)
| step_EmulateElection st s st' :
    EmulateElection env st = Some (s, st') -> replica_step st st'
| step_CompleteConfigChangeRoundUnlocked st round status st' :
    CompleteConfigChangeRoundUnlocked flags env st round status = Some st' ->
    replica_step st st'
| step_ChangeVoterDistribution st vd force :
    replica_step st (ChangeVoterDistribution env st vd force).2
| step_ChangeQuorumType st type :
    replica_step st (ChangeQuorumType env st type).2
| step_SetPeerQuorumIds st ids force :
    replica_step st (SetPeerQuorumIds env st ids force).2.

(** The checks of [RequestVote] that come before the term and the vote are
    looked at: the update lock is held, the lifecycle state allows voting,
    votes are not withheld and no leader is believed alive. *)
Definition early_checks_pass (st : t) (request : VoteRequestPB) (tomb : option OpId)
    (lock_free : bool) (now : Z) : bool :=
  (if enable_leader_failure_detection flags && negb (ignore_live_leader request)
   then lock_free else true)
  && match state_ st with
     | kShutdown => false
     | kRunning => true
     | _ => match tomb with
            | Some _ => raft_enable_tombstoned_voting flags
            | None => false
            end
     end
  && negb (withhold_votes_ st)
  && negb (negb (ignore_live_leader request) && now_before now (withhold_votes_until_ st)).

Lemma vote_step_refl a : vote_step a a.
Proof. split; [lia | auto]. Qed.

Lemma vote_step_trans a b c : vote_step a b -> vote_step b c -> vote_step a c.
Proof.
  intros [H1 H2] [H3 H4]. split; [lia |]. intros He.
  assert (current_term b = current_term a) as Hb by lia.
  assert (current_term c = current_term b) as Hc by lia.
  destruct (H2 Hb) as [E | E]; [| by right].
  destruct (H4 Hc) as [E' | E']; [left; congruence | right; congruence].
Qed.

Lemma vote_step_same a b :
  current_term b = current_term a -> voted_for b = voted_for a -> vote_step a b.
Proof. intros H1 H2. split; [lia | auto]. Qed.

Lemma vote_step_congr_r a b b' :
  current_term b' = current_term b -> voted_for b' = voted_for b ->
  vote_step a b -> vote_step a b'.
Proof. intros H1 H2 [H3 H4]. split; [lia |]. rewrite H1, H2. exact H4. Qed.

Lemma vote_step_congr_l a a' b :
  current_term a' = current_term a -> voted_for a' = voted_for a ->
  vote_step a b -> vote_step a' b.
Proof. intros H1 H2 [H3 H4]. split; [lia |]. rewrite H1, H2. exact H4. Qed.

Lemma good_step_refl st : good_step st st.
Proof. split; [apply vote_step_refl | left; done]. Qed.

Lemma good_step_trans a b c : good_step a b -> good_step b c -> good_step a c.
Proof.
  intros [M1 D1] [M2 D2]. split; [eapply vote_step_trans; eauto |].
  destruct D1 as [[T1 V1] | [S1 S1']], D2 as [[T2 V2] | [S2 S2']].
  - left. split; congruence.
  - right. split; [exact (vote_step_trans _ _ _ M1 S2) | exact S2'].
  - right. split.
    + eapply vote_step_congr_r; [exact T2 | exact V2 | exact S1].
    + eapply vote_step_congr_l; [exact T2 | exact V2 |].
      exact (vote_step_trans _ _ _ S1' M2).
  - right. split; [exact (vote_step_trans _ _ _ M1 S2) | exact S2'].
Qed.

(** A step that leaves term, vote and the durable record alone. *)
Lemma good_step_frame st st' :
  current_term (cmeta_ st') = current_term (cmeta_ st) ->
  voted_for (cmeta_ st') = voted_for (cmeta_ st) ->
  durable_ st' = durable_ st ->
  good_step st st'.
Proof.
  intros H1 H2 H3. split; [by apply vote_step_same |]. left. by rewrite H3.
Qed.

Lemma good_step_keeps_behind st st' :
  good_step st st' -> durable_behind st ->
  durable_behind st' /\ vote_step (durable_ st) (durable_ st').
Proof.
  unfold durable_behind. intros [M D] Hb. destruct D as [[T V] | [S S']].
  - split; [| by apply vote_step_same].
    eapply vote_step_congr_l; [exact T | exact V |]. exact (vote_step_trans _ _ _ Hb M).
  - split; [exact S' | exact (vote_step_trans _ _ _ Hb S)].
Qed.

Lemma Flush_good st : good_step st (Flush st).
Proof. split; [apply vote_step_refl | right; split; apply vote_step_refl]. Qed.

Lemma no_leader_not_LEADER st :
  leader_uuid (cmeta_ st) = "" -> active_role st <> LEADER.
Proof.
  unfold active_role, GetConsensusRole. intros ->.
  destruct (bool_decide (local_uuid st = "")); [done |].
  destruct (find_peer _ _) as [p |]; [| done].
  destruct (member_type p); done.
Qed.

Lemma BecomeReplicaUnlocked_spec st :
  exists st1, BecomeReplicaUnlocked st = (OK, st1) /\
    leader_uuid (cmeta_ st1) = "" /\ active_role st1 <> LEADER /\
    IsInLeaderMode (queue_ st1) = false /\ peer_manager_closed_ st1 = true /\
    withhold_votes_until_ st1 = TimeMin /\
    current_term (cmeta_ st1) = current_term (cmeta_ st) /\
    voted_for (cmeta_ st1) = voted_for (cmeta_ st) /\
    durable_ st1 = durable_ st /\ flush_count_ st1 = flush_count_ st /\
    state_ st1 = state_ st /\ local_uuid st1 = local_uuid st.
Proof.
  eexists. split; [reflexivity |]. simpl. repeat split.
  apply no_leader_not_LEADER. reflexivity.
Qed.

Lemma SetCurrentTermUnlocked_ok st new_term flush :
  CurrentTermUnlocked st < new_term ->
  exists st', SetCurrentTermUnlocked st new_term flush = (OK, st') /\
    current_term (cmeta_ st') = new_term /\ voted_for (cmeta_ st') = None /\
    leader_uuid (cmeta_ st') = "" /\
    (flush = FLUSH_TO_DISK ->
       current_term (durable_ st') = new_term /\ voted_for (durable_ st') = None /\
       flush_count_ st' = S (flush_count_ st)) /\
    (flush = SKIP_FLUSH_TO_DISK ->
       durable_ st' = durable_ st /\ flush_count_ st' = flush_count_ st) /\
    term_advancement_callbacks_ st' = term_advancement_callbacks_ st ++ [new_term] /\
    state_ st' = state_ st /\ local_uuid st' = local_uuid st.
Proof.
  intros Hlt. unfold SetCurrentTermUnlocked.
  assert ((new_term <=? CurrentTermUnlocked st) = false) as -> by lia.
  eexists. split; [reflexivity |].
  destruct flush; simpl; repeat split; done.
Qed.

Lemma SetCurrentTermUnlocked_good st new_term flush :
  good_step st (SetCurrentTermUnlocked st new_term flush).2.
Proof.
  unfold SetCurrentTermUnlocked.
  destruct (Z.leb_spec new_term (CurrentTermUnlocked st)) as [| Hlt];
    [apply good_step_refl |].
  unfold CurrentTermUnlocked in Hlt.
  assert (Hstep : forall cm, current_term cm = new_term -> vote_step (cmeta_ st) cm).
  { intros cm Hcm. split; [lia | intros; lia]. }
  destruct flush; simpl.
  - split; [by apply Hstep | by left].
  - split; [by apply Hstep |]. right. split; [by apply Hstep |].
    by apply vote_step_same.
Qed.

Lemma stepped_down_spec st :
  active_role (stepped_down st) <> LEADER /\
  current_term (cmeta_ (stepped_down st)) = current_term (cmeta_ st) /\
  voted_for (cmeta_ (stepped_down st)) = voted_for (cmeta_ st) /\
  durable_ (stepped_down st) = durable_ st /\
  flush_count_ (stepped_down st) = flush_count_ st /\
  state_ (stepped_down st) = state_ st /\
  local_uuid (stepped_down st) = local_uuid st /\
  (active_role st = LEADER ->
     leader_uuid (cmeta_ (stepped_down st)) = "" /\
     IsInLeaderMode (queue_ (stepped_down st)) = false /\
     peer_manager_closed_ (stepped_down st) = true).
Proof.
  unfold stepped_down.
  destruct (BecomeReplicaUnlocked_spec st)
    as (st1 & E & ? & ? & ? & ? & ? & ? & ? & ? & ? & ? & ?).
  destruct (active_role st) eqn:R; rewrite ?E; simpl; repeat split;
    try done; try congruence.
Qed.

Lemma HandleTermAdvanceUnlocked_unfold st new_term flush :
  CurrentTermUnlocked st < new_term ->
  HandleTermAdvanceUnlocked st new_term flush
  = (OK, with_last_received_cur_leader
           (SetCurrentTermUnlocked (stepped_down st) new_term flush).2 MinimumOpId).
Proof.
  intros Hlt. unfold HandleTermAdvanceUnlocked.
  assert ((new_term <=? CurrentTermUnlocked st) = false) as -> by lia.
  destruct (stepped_down_spec st) as (_ & Ht & _).
  destruct (SetCurrentTermUnlocked_ok (stepped_down st) new_term flush) as (st' & E & _).
  { unfold CurrentTermUnlocked in *. lia. }
  assert (Hr1 : (match active_role st with
                 | LEADER => BecomeReplicaUnlocked st
                 | _ => (OK, st)
                 end) = (OK, stepped_down st)).
  { unfold stepped_down. by destruct (active_role st). }
  rewrite Hr1. cbv zeta. simpl negb. cbv iota. simpl snd. rewrite E. reflexivity.
Qed.

Lemma HandleTermAdvanceUnlocked_good st new_term flush :
  good_step st (HandleTermAdvanceUnlocked st new_term flush).2.
Proof.
  destruct (Z.le_gt_cases new_term (CurrentTermUnlocked st)) as [Hle | Hlt].
  - unfold HandleTermAdvanceUnlocked.
    assert ((new_term <=? CurrentTermUnlocked st) = true) as -> by lia.
    apply good_step_refl.
  - rewrite HandleTermAdvanceUnlocked_unfold by lia. simpl.
    destruct (stepped_down_spec st) as (_ & Ht & Hv & Hd & _).
    eapply good_step_trans; [apply (good_step_frame st (stepped_down st)); done |].
    eapply good_step_trans; [apply SetCurrentTermUnlocked_good |].
    apply good_step_frame; done.
Qed.

Lemma HandleTermAdvanceUnlocked_ok st new_term flush :
  CurrentTermUnlocked st < new_term ->
  exists st', HandleTermAdvanceUnlocked st new_term flush = (OK, st') /\
    CurrentTermUnlocked st' = new_term /\ voted_for (cmeta_ st') = None /\
    local_uuid st' = local_uuid st /\ state_ st' = state_ st /\
    (flush = SKIP_FLUSH_TO_DISK ->
       durable_ st' = durable_ st /\ flush_count_ st' = flush_count_ st) /\
    (flush = FLUSH_TO_DISK ->
       current_term (durable_ st') = new_term /\ voted_for (durable_ st') = None).
Proof.
  intros Hlt. rewrite HandleTermAdvanceUnlocked_unfold by done.
  destruct (stepped_down_spec st) as (_ & Ht & _ & Hd & Hf & Hs & Hu & _).
  destruct (SetCurrentTermUnlocked_ok (stepped_down st) new_term flush)
    as (st1 & E & T1 & V1 & _ & F1 & S1 & _ & St1 & U1).
  { unfold CurrentTermUnlocked in *. lia. }
  eexists. split; [reflexivity |]. rewrite E. simpl.
  unfold CurrentTermUnlocked. simpl. repeat split; try congruence.
  - destruct (S1 H). congruence.
  - destruct (S1 H). congruence.
  - by destruct (F1 H).
  - by destruct (F1 H) as (_ & ? & _).
Qed.

(** C2.  [HandleTermAdvanceUnlocked] refuses a term that is not higher with
    IllegalState and leaves the replica as it was; otherwise a leader first
    becomes a replica (no leader recorded, queue out of leader mode, peers
    closed), then the term is set to [new_term], the vote and the leader UUID
    are cleared, and the change is flushed unless the caller skips it. *)
Theorem HandleTermAdvanceUnlocked_spec (st : t) (new_term : Z) (flush : FlushToDisk) :
  (new_term <= CurrentTermUnlocked st ->
     HandleTermAdvanceUnlocked st new_term flush
     = (IllegalState msg_cannot_advance_term, st)) /\
  (CurrentTermUnlocked st < new_term ->
     active_role (stepped_down st) <> LEADER /\
     (active_role st = LEADER ->
        IsInLeaderMode (queue_ (stepped_down st)) = false /\
        peer_manager_closed_ (stepped_down st) = true /\
        CurrentTermUnlocked (stepped_down st) = CurrentTermUnlocked st) /\
     exists st',
       HandleTermAdvanceUnlocked st new_term flush = (OK, st') /\
       st' = with_last_received_cur_leader
               (SetCurrentTermUnlocked (stepped_down st) new_term flush).2 MinimumOpId /\
       CurrentTermUnlocked st' = new_term /\
       voted_for (cmeta_ st') = None /\
       GetLeaderUuidUnlocked st' = "" /\
       active_role st' <> LEADER /\
       (flush = FLUSH_TO_DISK ->
          current_term (durable_ st') = new_term /\ voted_for (durable_ st') = None)).
Proof.
  split.
  - intros Hle. unfold HandleTermAdvanceUnlocked.
    by assert ((new_term <=? CurrentTermUnlocked st) = true) as -> by lia.
  - intros Hlt.
    destruct (stepped_down_spec st) as (Hrole & Ht & _ & _ & _ & _ & _ & Hlead).
    split; [exact Hrole |]. split.
    { intros R. destruct (Hlead R) as (_ & ? & ?). by repeat split. }
    destruct (SetCurrentTermUnlocked_ok (stepped_down st) new_term flush)
      as (st1 & E & T1 & V1 & L1 & F1 & _).
    { unfold CurrentTermUnlocked in *. lia. }
    eexists. split; [by apply HandleTermAdvanceUnlocked_unfold |].
    split; [reflexivity |]. rewrite E. simpl.
    unfold CurrentTermUnlocked, GetLeaderUuidUnlocked. simpl.
    repeat split; try done.
    + by apply no_leader_not_LEADER.
    + by destruct (F1 H).
    + by destruct (F1 H) as (_ & ? & _).
Qed.

Lemma frame_refl st : frame st st.
Proof. by repeat split. Qed.

Lemma frame_trans a b c : frame a b -> frame b c -> frame a c.
Proof. intros (? & ? & ? & ?) (? & ? & ? & ?). repeat split; congruence. Qed.

Lemma frame_good st st' : frame st st' -> good_step st st'.
Proof. intros (? & ? & ? & ?). by apply good_step_frame. Qed.

Ltac frame_inj :=
  repeat match goal with
         | H : Some _ = Some _ |- _ => injection H as H; subst
         | H : (_, _) = (_, _) |- _ => injection H as H; subst
         | H : None = Some _ |- _ => discriminate H
         end.

Ltac frame_leaf := by repeat split.

Ltac frame_close :=
  first
    [ frame_leaf
    | eassumption
    | eapply frame_trans; [eassumption | frame_leaf]
    | eapply frame_trans; [eassumption | eassumption]
    | eapply frame_trans; [eassumption | eapply frame_trans; [eassumption | frame_leaf]] ].

Ltac frame_auto :=
  frame_inj;
  try first [ frame_close | split; [done | frame_close] ].

Lemma SetPendingConfigUnlocked_frame st c s st' :
  SetPendingConfigUnlocked env st c = Some (s, st') -> frame st st'.
Proof.
  unfold SetPendingConfigUnlocked. intros H.
  destruct (VerifyRaftConfig env c); frame_auto.
  destruct (_ && _); frame_auto.
Qed.

Lemma RefreshConsensusQueueAndPeersUnlocked_frame st :
  frame st (RefreshConsensusQueueAndPeersUnlocked env st).2.
Proof. by repeat split. Qed.

Lemma AddPendingOperationUnlocked_frame st round s st' :
  AddPendingOperationUnlocked env st round = Some (s, st') -> frame st st'.
Proof.
  unfold AddPendingOperationUnlocked. intros H.
  destruct (op_type round); frame_auto.
  destruct (negb (ok _)); frame_auto.
  destruct (_ <? _); frame_auto.
  destruct (SetPendingConfigUnlocked _ _ _) as [[s1 st1] |] eqn:E; simpl in H; frame_auto.
  apply SetPendingConfigUnlocked_frame in E.
  destruct (negb (ok s1)); frame_auto.
  pose proof (RefreshConsensusQueueAndPeersUnlocked_frame st1) as R.
  destruct (RefreshConsensusQueueAndPeersUnlocked env st1) as [a b] eqn:ER.
  simpl in R.
  destruct (active_role st1); frame_auto.
  destruct (negb (ok _)); frame_auto.
Qed.

Lemma AppendNewRoundToQueueUnlocked_frame st round s st' :
  AppendNewRoundToQueueUnlocked env st round = Some (s, st') -> frame st st'.
Proof.
  unfold AppendNewRoundToQueueUnlocked. intros H.
  destruct (_ && _); frame_auto.
  destruct (AddPendingOperationUnlocked _ _ _) as [[s1 st1] |] eqn:E; simpl in H; frame_auto.
  apply AddPendingOperationUnlocked_frame in E.
  destruct (negb (ok s1)); frame_auto.
  destruct (AppendOperations _ _ _) as [[] q]; frame_auto.
Qed.

Lemma BecomeLeaderUnlocked_frame st s st' :
  BecomeLeaderUnlocked env st = Some (s, st') -> frame st st'.
Proof.
  unfold BecomeLeaderUnlocked. intros H.
  destruct (negb (ok _)).
  - unfold RefreshConsensusQueueAndPeersUnlocked in H. frame_auto.
  - destruct (disable_noop_ env); frame_auto.
    apply AppendNewRoundToQueueUnlocked_frame in H.
    eapply frame_trans; [| exact H]. frame_leaf.
Qed.

Lemma StartFollowerTransactionUnlocked_frame st m s st' :
  StartFollowerTransactionUnlocked env st m = Some (s, st') -> frame st st'.
Proof.
  unfold StartFollowerTransactionUnlocked. intros H.
  destruct (_ && _); frame_auto.
  destruct (op_type m).
  - destruct (follower_fail_all_prepare env); frame_auto.
    destruct (StartFollowerTransaction env m); frame_auto.
    by eapply AddPendingOperationUnlocked_frame.
  - destruct (StartConsensusOnlyRound env m); frame_auto.
    by eapply AddPendingOperationUnlocked_frame.
  - destruct (StartConsensusOnlyRound env m); frame_auto.
    by eapply AddPendingOperationUnlocked_frame.
Qed.

Lemma prepare_loop_frame msgs : forall st prepared evs st' prepared' s evs',
  prepare_loop env st msgs prepared evs = Some (st', prepared', s, evs') -> frame st st'.
Proof.
  induction msgs as [| m msgs IH]; intros st prepared evs st' prepared' s evs' H; simpl in H.
  - frame_auto.
  - destruct (StartFollowerTransactionUnlocked _ _ _) as [[s1 st1] |] eqn:E;
      simpl in H; frame_auto.
    apply StartFollowerTransactionUnlocked_frame in E.
    destruct (negb (ok s1)); frame_auto.
    destruct (MessageReceivedFromLeader env m); try done.
    eapply frame_trans; [exact E | by eapply IH].
Qed.

Lemma EnforceLogMatching_frame st d response :
  frame st (EnforceLogMatchingPropertyMatchesUnlocked env st d response).2.
Proof.
  unfold EnforceLogMatchingPropertyMatchesUnlocked.
  destruct (IsOpCommittedOrPending _ _ _) as [[] []]; frame_leaf.
Qed.

Lemma HandleLeaderRequestTermUnlocked_good st request response :
  good_step st (HandleLeaderRequestTermUnlocked st request response).2.
Proof.
  unfold HandleLeaderRequestTermUnlocked.
  destruct (negb _); [| apply good_step_refl].
  destruct (_ <? _); [apply good_step_refl |]. apply HandleTermAdvanceUnlocked_good.
Qed.

(** What follows the term handling in [CheckLeaderRequestUnlocked] leaves the
    term and the vote alone. *)
Lemma CheckLeaderRequestUnlocked_after_term st request response d s r st' od b :
  has_deprecated_committed_index request || negb (has_all_replicated_index request) = false ->
  DeduplicateLeaderRequestUnlocked st request = Some d ->
  check_sequence env (preceding_opid d) (messages d) = OK ->
  CheckLeaderRequestUnlocked env st request response = Some (s, r, st', od, b) ->
  od = Some d /\ frame (HandleLeaderRequestTermUnlocked st request response).2 st'.
Proof.
  intros Hv Hd Hs. unfold CheckLeaderRequestUnlocked. rewrite Hv, Hd. simpl. rewrite Hs.
  destruct (HandleLeaderRequestTermUnlocked st request response) as [[s1 r1] st1]. simpl.
  destruct (negb (ok s1)); [intros; frame_auto |].
  destruct (has_status_error r1); [intros; frame_auto |].
  pose proof (EnforceLogMatching_frame st1 d r1) as F2.
  destruct (EnforceLogMatchingPropertyMatchesUnlocked env st1 d r1) as [[s2 r2] st2].
  simpl in F2.
  destruct (negb (ok s2)); [intros; frame_auto |].
  destruct (has_status_error r2); [intros; frame_auto |].
  destruct (messages d) as [| m0 ms]; simpl.
  - destruct (_ && _); [done |].
    destruct (negb (HasLeaderUnlocked st2)); simpl; intros; frame_auto.
  - destruct (IsOpCommittedOrPending env (pending_ st2) (id m0)) as [[] tm]; simpl; [done |].
    destruct tm; simpl.
    + destruct (_ && _); [done |].
      destruct (negb (HasLeaderUnlocked _)); simpl; intros; frame_inj; (split; [done |]);
        (eapply frame_trans; [exact F2 | frame_leaf]).
    + destruct (_ && _); [done |].
      destruct (negb (HasLeaderUnlocked st2)); simpl; intros; frame_auto.
Qed.

Lemma CheckLeaderRequestUnlocked_good st request response s r st' od b :
  CheckLeaderRequestUnlocked env st request response = Some (s, r, st', od, b) ->
  good_step st st'.
Proof.
  intros H.
  destruct (has_deprecated_committed_index request || negb (has_all_replicated_index request))
    eqn:Hv.
  { unfold CheckLeaderRequestUnlocked in H. rewrite Hv in H. frame_inj. apply good_step_refl. }
  destruct (DeduplicateLeaderRequestUnlocked st request) as [d |] eqn:Hd.
  2: { unfold CheckLeaderRequestUnlocked in H. rewrite Hv, Hd in H. done. }
  destruct (check_sequence env (preceding_opid d) (messages d)) eqn:Hs.
  1: { destruct (CheckLeaderRequestUnlocked_after_term _ _ _ _ _ _ _ _ _ Hv Hd Hs H) as [_ F].
       eapply good_step_trans; [apply HandleLeaderRequestTermUnlocked_good |].
       apply frame_good, F. }
  all: unfold CheckLeaderRequestUnlocked in H; rewrite Hv, Hd in H; simpl in H;
    rewrite Hs in H; frame_inj; apply good_step_refl.
Qed.

Lemma UpdateReplica_early_commit_frame st request d now st' :
  UpdateReplica_early_commit flags env st request d now = Some st' -> frame st st'.
Proof.
  unfold UpdateReplica_early_commit. intros H.
  destruct (AdvanceCommittedIndex _ _ _) as [[] p]; frame_auto.
Qed.

Lemma UpdateReplica_accepted_frame st request response d soft now s r st' evs :
  UpdateReplica_accepted flags env st request response d soft now = Some (s, r, st', evs) ->
  frame st st'.
Proof.
  unfold UpdateReplica_accepted. intros H.
  destruct (UpdateReplica_early_commit _ _ _ _ _ _) as [st1 |] eqn:E1; simpl in H; [| done].
  apply UpdateReplica_early_commit_frame in E1.
  destruct (_ && soft); [frame_auto |].
  destruct (prepare_loop _ _ _ _ _) as [[[[st2 prepared] ps] evs2] |] eqn:E2;
    simpl in H; [| done].
  apply prepare_loop_frame in E2.
  assert (F2 : frame st st2) by (eapply frame_trans; eauto).
  destruct (_ && _); [frame_auto |].
  destruct (last prepared) as [m |]; simpl in H.
  - destruct (AppendOperations _ _ _) as [[] q]; simpl in H; try done.
    destruct (AdvanceCommittedIndex _ _ _) as [[] p']; frame_inj;
      (eapply frame_trans; [exact F2 | frame_leaf]).
  - destruct (AdvanceCommittedIndex _ _ _) as [[] p']; frame_inj;
      (eapply frame_trans; [exact F2 | frame_leaf]).
Qed.

Lemma UpdateReplica_good st request response soft now s r st' evs :
  UpdateReplica flags env st request response soft now = Some (s, r, st', evs) ->
  good_step st st'.
Proof.
  unfold UpdateReplica. intros H.
  destruct (CheckRunningUnlocked st); frame_inj; try apply good_step_refl.
  destruct (CheckLeaderRequestUnlocked _ _ _ _) as [[[[[s1 r1] st1] od] b] |] eqn:E;
    simpl in H; [| done].
  apply CheckLeaderRequestUnlocked_good in E.
  destruct (negb (ok s1)); [by frame_inj |].
  destruct (has_status_error r1); [by frame_inj |].
  destruct od as [d |]; [| done].
  apply UpdateReplica_accepted_frame in H.
  eapply good_step_trans; [exact E | by apply frame_good].
Qed.

(** C3, amended.  For an update that reaches the term check (the replica is
    running, the request is of the current protocol version and, once
    deduplicated, in sequence): one whose caller term is lower is refused in
    the response with INVALID_TERM, the reply carries the replica's current
    term and the replica is left untouched; one whose caller term is higher
    makes the replica advance to the caller's term (flushed) before the
    log-matching check and everything after it, which keep that term. *)
Theorem follower_update_term_handling (st : t) (request : ConsensusRequestPB)
    (response : ConsensusResponsePB) :
  (caller_term request < CurrentTermUnlocked st ->
     HandleLeaderRequestTermUnlocked st request response
     = (OK, FillConsensusResponseError response INVALID_TERM (IllegalState msg_earlier_term), st)
     /\ resp_responder_term (invalid_term_reply st response) = Some (CurrentTermUnlocked st)
     /\ status_error (invalid_term_reply st response)
        = Some (INVALID_TERM, IllegalState msg_earlier_term)
     /\ (reaches_term_check st request ->
         forall soft now,
           UpdateReplica flags env st request response soft now
           = Some (OK, invalid_term_reply st response, st, []))) /\
  (CurrentTermUnlocked st < caller_term request ->
     exists st1,
       HandleLeaderRequestTermUnlocked st request response = (OK, response, st1)
       /\ st1 = (HandleTermAdvanceUnlocked st (caller_term request) FLUSH_TO_DISK).2
       /\ CurrentTermUnlocked st1 = caller_term request
       /\ current_term (durable_ st1) = caller_term request
       /\ (reaches_term_check st request ->
           forall soft now s r st' evs,
             UpdateReplica flags env st request response soft now = Some (s, r, st', evs) ->
             CurrentTermUnlocked st' = caller_term request)).
Proof.
  split.
  - intros Hlt.
    assert (E : HandleLeaderRequestTermUnlocked st request response
                = (OK, FillConsensusResponseError response INVALID_TERM
                         (IllegalState msg_earlier_term), st)).
    { unfold HandleLeaderRequestTermUnlocked.
      assert ((caller_term request =? CurrentTermUnlocked st) = false) as -> by lia.
      by assert ((caller_term request <? CurrentTermUnlocked st) = true) as -> by lia. }
    split; [exact E |]. split; [done |]. split; [done |].
    intros (Hrun & Hv & d & Hd & Hs) soft now.
    unfold UpdateReplica, CheckLeaderRequestUnlocked.
    rewrite Hrun, Hv, Hd. simpl. rewrite Hs, E. reflexivity.
  - intros Hlt.
    destruct (HandleTermAdvanceUnlocked_ok st (caller_term request) FLUSH_TO_DISK Hlt)
      as (st1 & E1 & T1 & _ & _ & _ & _ & F1).
    assert (E : HandleLeaderRequestTermUnlocked st request response = (OK, response, st1)).
    { unfold HandleLeaderRequestTermUnlocked.
      assert ((caller_term request =? CurrentTermUnlocked st) = false) as -> by lia.
      assert ((caller_term request <? CurrentTermUnlocked st) = false) as -> by lia.
      simpl. by rewrite E1. }
    exists st1. split; [exact E |]. split; [by rewrite E1 |]. split; [exact T1 |].
    split; [by destruct (F1 eq_refl) |].
    intros (Hrun & Hv & d & Hd & Hs) soft now s r st' evs H.
    unfold UpdateReplica in H. rewrite Hrun in H.
    destruct (CheckLeaderRequestUnlocked _ _ _ _) as [[[[[s1 r1] st2] od] b] |] eqn:EC;
      simpl in H; [| done].
    destruct (CheckLeaderRequestUnlocked_after_term _ _ _ _ _ _ _ _ _ Hv Hd Hs EC)
      as [-> (Ft & _)].
    rewrite E in Ft. simpl in Ft.
    destruct (negb (ok s1)); [injection H as <- <- <- <-; unfold CurrentTermUnlocked in *; lia |].
    destruct (has_status_error r1);
      [injection H as <- <- <- <-; unfold CurrentTermUnlocked in *; lia |].
    apply UpdateReplica_accepted_frame in H as (Ft' & _).
    unfold CurrentTermUnlocked in *. lia.
Qed.

Lemma SetVotedForCurrentTermUnlocked_good st uuid :
  voted_for (cmeta_ st) = None ->
  good_step st (SetVotedForCurrentTermUnlocked st uuid).2.
Proof.
  intros Hn. simpl.
  assert (vote_step (cmeta_ st) (set_voted_for (cmeta_ st) uuid)).
  { split; simpl; [lia | auto]. }
  split; [done |]. right. split; [done | apply vote_step_refl].
Qed.

Lemma RequestVote_good st request tomb lock_free now :
  good_step st (RequestVote flags st request tomb lock_free now).2.
Proof.
  unfold RequestVote.
  destruct (negb (if _ && _ then lock_free else true)); [apply good_step_refl |].
  destruct (match state_ st with kShutdown => _ | _ => _ end) as [s | local];
    [apply good_step_refl |].
  destruct (withhold_votes_ st); [apply good_step_refl |].
  destruct (_ && now_before _ _); [apply good_step_refl |].
  destruct (Z.ltb_spec (candidate_term request) (CurrentTermUnlocked st)) as [| Hge];
    [apply good_step_refl |].
  destruct ((candidate_term request =? CurrentTermUnlocked st)
            && HasVotedCurrentTermUnlocked st) eqn:Hvoted.
  { destruct (bool_decide _); apply good_step_refl. }
  destruct (_ && _ && (_ <? _)); [apply good_step_refl |].
  destruct (negb (is_pre_election request) && (CurrentTermUnlocked st <? candidate_term request))
    eqn:Hadv.
  - apply andb_true_iff in Hadv as [Hpre Hlt].
    destruct (HandleTermAdvanceUnlocked_ok st (candidate_term request)
                (if negb (OpIdLessThan (candidate_last_received request) local)
                 then SKIP_FLUSH_TO_DISK else FLUSH_TO_DISK))
      as (st1 & E & _ & V1 & _); [lia |].
    pose proof (HandleTermAdvanceUnlocked_good st (candidate_term request)
                  (if negb (OpIdLessThan (candidate_last_received request) local)
                   then SKIP_FLUSH_TO_DISK else FLUSH_TO_DISK)) as G.
    rewrite E in *. simpl in G |- *.
    destruct (negb (negb _)); [exact G |].
    unfold RequestVoteRespondVoteGranted. rewrite Hpre. simpl.
    eapply good_step_trans; [exact G |].
    by apply (SetVotedForCurrentTermUnlocked_good st1).
  - simpl. destruct (negb (negb _)); [apply good_step_refl |].
    unfold RequestVoteRespondVoteGranted.
    destruct (is_pre_election request) eqn:Hpre; simpl; [apply good_step_refl |].
    simpl in Hadv.
    assert (candidate_term request = CurrentTermUnlocked st) as Heq by lia.
    rewrite Heq, Z.eqb_refl in Hvoted. simpl in Hvoted.
    apply (SetVotedForCurrentTermUnlocked_good st).
    unfold HasVotedCurrentTermUnlocked, has_voted_for in Hvoted.
    by destruct (voted_for (cmeta_ st)).
Qed.

Lemma StartElection_good st mode :
  good_step st (StartElection flags env st mode).1.2.
Proof.
  unfold StartElection.
  destruct (CheckRunningUnlocked st); try apply good_step_refl.
  destruct (negb (start_election_allowed_ st)); [apply good_step_refl |].
  destruct (active_role st); cbn [IsVoterRole negb]; try apply good_step_refl.
  destruct (_ && _ && bool_decide _); [apply good_step_refl |].
  destruct (HandleTermAdvanceUnlocked_ok st (CurrentTermUnlocked st + 1) SKIP_FLUSH_TO_DISK)
    as (st1 & E & _ & V1 & _); [lia |].
  pose proof (HandleTermAdvanceUnlocked_good st (CurrentTermUnlocked st + 1)
                SKIP_FLUSH_TO_DISK) as G1.
  rewrite E in G1. simpl in G1.
  pose proof (SetVotedForCurrentTermUnlocked_good st1 (local_uuid st) V1) as G2.
  assert (G12 : good_step st (SetVotedForCurrentTermUnlocked st1 (local_uuid st)).2)
    by (eapply good_step_trans; eauto).
  destruct mode; cbv zeta; rewrite ?E; simpl negb; cbv iota;
    match goal with
    | |- context [RegisterSelfVote ?e ?c ?z] => destruct (RegisterSelfVote e c z)
    end; simpl; first [apply good_step_refl | exact G12].
Qed.

Lemma DoElectionCallback_good st result st' req :
  DoElectionCallback flags env st result = Some (st', req) -> good_step st st'.
Proof.
  unfold DoElectionCallback. intros H.
  destruct (CheckRunningUnlocked st); frame_inj; try apply good_step_refl.
  destruct (LeaderElection.decision result).
  - (* denied *)
    destruct (_ <? _); frame_inj.
    + eapply good_step_trans; [| apply HandleTermAdvanceUnlocked_good].
      apply frame_good.
      destruct (LeaderElection.result_is_candidate_removed result); frame_leaf.
    + apply frame_good.
      destruct (LeaderElection.result_is_candidate_removed result); frame_leaf.
  - (* granted *)
    destruct (negb (_ =? _)); frame_inj; [apply good_step_refl |].
    destruct (negb (IsRaftConfigVoter _ _)); frame_inj; [apply good_step_refl |].
    destruct (active_role st); frame_inj; try apply good_step_refl.
    all: destruct (is_pre_election (LeaderElection.vote_request result)).
    all: try (pose proof (StartElection_good st NORMAL_ELECTION) as G;
              destruct (StartElection flags env st NORMAL_ELECTION) as [[s0 st0] r0];
              simpl in G; by frame_inj).
    all: simpl in H;
      destruct (BecomeLeaderUnlocked env _) as [[[] st2] |] eqn:EB; frame_inj; try done;
      apply BecomeLeaderUnlocked_frame in EB; apply frame_good;
      (eapply frame_trans; [| exact EB]); frame_leaf.
Qed.

Lemma StepDown_good st : good_step st (StepDown st).2.
Proof.
  unfold StepDown.
  destruct (CheckRunningUnlocked st); try apply good_step_refl.
  destruct (active_role st); try apply good_step_refl.
  apply HandleTermAdvanceUnlocked_good.
Qed.

Lemma SetCurrentTermBootstrap_good st new_term :
  good_step st (SetCurrentTermBootstrap st new_term).2.
Proof.
  unfold SetCurrentTermBootstrap.
  destruct (Z.leb_spec new_term (CurrentTermUnlocked st)) as [| Hlt];
    [apply good_step_refl |].
  unfold CurrentTermUnlocked in Hlt. simpl.
  assert (vote_step (cmeta_ st) (set_current_term (cmeta_ st) new_term)).
  { split; simpl; [lia | intros; lia]. }
  split; [done |]. right. split; [done | apply vote_step_refl].
Qed.

Lemma BulkChangeConfig_frame st req s code st' signalled :
  BulkChangeConfig env apply_config_changes st req = Some (s, code, st', signalled) ->
  frame st st'.
Proof.
  unfold BulkChangeConfig, ReplicateConfigChangeUnlocked. intros H.
  destruct (CheckBulkConfigChangeAndGetNewConfigUnlocked _ _ _) as [[s0 c0] nc].
  destruct (AppendNewRoundToQueueUnlocked _ _ _) as [[s1 st1] |] eqn:E; simpl in H; [| done].
  apply AppendNewRoundToQueueUnlocked_frame in E.
  destruct (negb (ok s1)); by frame_inj.
Qed.

Lemma store_active_config_good st config : good_step st (store_active_config st config).
Proof.
  unfold store_active_config, set_active_config.
  eapply good_step_trans; [| apply Flush_good].
  apply good_step_frame; by destruct (has_pending_config (cmeta_ st)).
Qed.

Lemma refresh_if_leader_frame st : frame st (refresh_if_leader env st).2.
Proof.
  unfold refresh_if_leader. destruct (active_role st); try apply frame_refl.
  pose proof (RefreshConsensusQueueAndPeersUnlocked_frame st) as F.
  by destruct (negb (ok _)).
Qed.

Lemma NotifyTermChange_good st term : good_step st (NotifyTermChange st term).
Proof.
  unfold NotifyTermChange.
  destruct (CheckRunningUnlocked st); try apply good_step_refl.
  apply HandleTermAdvanceUnlocked_good.
Qed.

Lemma EmulateElection_good st s st' :
  EmulateElection env st = Some (s, st') -> good_step st st'.
Proof.
  unfold EmulateElection. intros H.
  destruct (CheckRunningUnlocked st); try (injection H as <- <-; apply good_step_refl).
  pose proof (HandleTermAdvanceUnlocked_good st (CurrentTermUnlocked st + 1) FLUSH_TO_DISK)
    as G.
  destruct (HandleTermAdvanceUnlocked st _ _) as [s1 st1]. simpl in *.
  destruct (negb (ok s1)); [by injection H as <- <- |].
  apply BecomeLeaderUnlocked_frame in H.
  eapply good_step_trans; [exact G |]. apply frame_good.
  eapply frame_trans; [| exact H]. by repeat split.
Qed.

Lemma SetCommittedConfigUnlocked_good st config s st' :
  SetCommittedConfigUnlocked env st config = Some (s, st') -> good_step st st'.
Proof.
  unfold SetCommittedConfigUnlocked. intros H.
  destruct (VerifyRaftConfig env config); try (injection H as <- <-; apply good_step_refl).
  destruct (match pending_config (cmeta_ st) with Some _ => _ | None => _ end); [done |].
  injection H as <- <-.
  eapply good_step_trans; [| apply Flush_good]. by apply good_step_frame.
Qed.

Lemma CompleteConfigChangeRoundUnlocked_good st round status st' :
  CompleteConfigChangeRoundUnlocked flags env st round status = Some st' ->
  good_step st st'.
Proof.
  unfold CompleteConfigChangeRoundUnlocked. intros H.
  destruct (negb (ok status)).
  - destruct (match pending_config (cmeta_ st) with Some _ => _ | None => _ end);
      [| injection H as <-; apply good_step_refl].
    destruct (UpdateRaftConfig env _); try done.
    injection H as <-. by apply good_step_frame.
  - destruct (_ <? _); [| injection H as <-; apply good_step_refl].
    destruct (SetCommittedConfigUnlocked env st (new_config round)) as [[[] st1] |] eqn:E;
      try done.
    apply SetCommittedConfigUnlocked_good in E.
    destruct (track_removed_peers flags); injection H as <-; [| exact E].
    eapply good_step_trans; [exact E |]. by apply good_step_frame.
Qed.

Lemma ChangeVoterDistribution_good st vd force :
  good_step st (ChangeVoterDistribution env st vd force).2.
Proof.
  unfold ChangeVoterDistribution.
  destruct (negb (ok _)); [apply good_step_refl |].
  eapply good_step_trans; [apply store_active_config_good |].
  apply frame_good, refresh_if_leader_frame.
Qed.

Lemma ChangeQuorumType_good st type : good_step st (ChangeQuorumType env st type).2.
Proof.
  unfold ChangeQuorumType.
  destruct (CheckNoConfigChangePendingUnlocked st); try apply good_step_refl.
  destruct (_ && existsb _ _); [apply good_step_refl |].
  destruct (negb (has_commit_rule _)); [apply good_step_refl |].
  eapply good_step_trans; [apply store_active_config_good |].
  apply frame_good, refresh_if_leader_frame.
Qed.

Lemma SetPeerQuorumIds_good st ids force :
  good_step st (SetPeerQuorumIds env st ids force).2.
Proof.
  unfold SetPeerQuorumIds.
  destruct (_ && _ && _); [apply good_step_refl |].
  destruct (negb (ok _)); [apply good_step_refl |].
  destruct (modified_peers _ _ _); [| apply good_step_refl].
  eapply good_step_trans; [apply store_active_config_good |].
  eapply good_step_trans; [| apply frame_good, refresh_if_leader_frame].
  by apply good_step_frame.
Qed.

Lemma replica_step_good st st' : replica_step st st' -> good_step st st'.
Proof.
  destruct 1.
  - apply RequestVote_good.
  - apply StartElection_good.
  - by eapply DoElectionCallback_good.
  - by eapply UpdateReplica_good.
  - apply StepDown_good.
  - unfold AdvanceTermForTests in H. destruct (CheckRunningUnlocked st); try done.
    injection H as H. pose proof (HandleTermAdvanceUnlocked_good st new_term FLUSH_TO_DISK) as G.
    by rewrite H in G.
  - apply SetCurrentTermBootstrap_good.
  - apply frame_good. by eapply BulkChangeConfig_frame.
  - apply NotifyTermChange_good.
  - by eapply EmulateElection_good.
  - by eapply CompleteConfigChangeRoundUnlocked_good.
  - apply ChangeVoterDistribution_good.
  - apply ChangeQuorumType_good.
  - apply SetPeerQuorumIds_good.
Qed.

Lemma replica_steps_good st st' : rtc replica_step st st' -> good_step st st'.
Proof.
  induction 1 as [| a b c Hab _ IH]; [apply good_step_refl |].
  eapply good_step_trans; [by apply replica_step_good | exact IH].
Qed.

Lemma vote_step_kept a b u :
  vote_step a b -> current_term b = current_term a -> voted_for a = Some u ->
  voted_for b = Some u.
Proof. intros [_ H] Ht Hu. destruct (H Ht); congruence. Qed.

Lemma RequestVote_already_voted st request tomb lock_free now u :
  voted_for (cmeta_ st) = Some u ->
  candidate_term request = CurrentTermUnlocked st ->
  (RequestVote flags st request tomb lock_free now).2 = st /\
  (early_checks_pass st request tomb lock_free now = true ->
   let resp := (RequestVote flags st request tomb lock_free now).1.2 in
   (RequestVote flags st request tomb lock_free now).1.1 = OK /\
   responder_term resp = CurrentTermUnlocked st /\
   (u = candidate_uuid request -> vote_granted resp = true /\ consensus_error resp = None) /\
   (u <> candidate_uuid request ->
      vote_granted resp = false /\
      consensus_error resp = Some (ALREADY_VOTED, InvalidArgument msg_already_voted))).
Proof.
  intros Hu Ht. unfold RequestVote, early_checks_pass.
  destruct (if _ && _ then lock_free else true); simpl; [| done].
  destruct (match state_ st with kShutdown => inl _ | _ => _ end) as [s | local] eqn:Est.
  { split; [done |]. intros Hg. exfalso.
    destruct (state_ st), tomb; simpl in *; try done;
      destruct (raft_enable_tombstoned_voting flags); simpl in *; done. }
  destruct (withhold_votes_ st); simpl; [rewrite ?andb_false_r; done |].
  destruct (_ && now_before _ _); simpl; [rewrite ?andb_false_r; done |].
  rewrite Ht, Z.ltb_irrefl, Z.eqb_refl.
  unfold HasVotedCurrentTermUnlocked, has_voted_for, GetVotedForCurrentTermUnlocked.
  rewrite Hu. simpl.
  case_bool_decide as Hc; simpl; (split; [done |]); intros _;
    (split; [done |]); (split; [done |]); split; intros;
    first [congruence | by split].
Qed.

(** C1.  Along any run of the replica's operations the vote record changes at
    most once per term, in memory and on disk: while the term stays, a vote
    once recorded is the vote recorded ever after, and a recorded vote
    disappears only when the term has strictly grown.  In particular
    [RequestVote] leaves the replica untouched when a vote is already recorded
    for the candidate's term, answering with the granted reply for the same
    candidate and with an ALREADY_VOTED denial for another one. *)
Theorem at_most_one_vote_per_term :
  (forall st st' u,
     rtc replica_step st st' -> durable_behind st ->
     durable_behind st' /\
     current_term (cmeta_ st) <= current_term (cmeta_ st') /\
     current_term (durable_ st) <= current_term (durable_ st') /\
     (current_term (cmeta_ st') = current_term (cmeta_ st) ->
        voted_for (cmeta_ st) = Some u -> voted_for (cmeta_ st') = Some u) /\
     (current_term (durable_ st') = current_term (durable_ st) ->
        voted_for (durable_ st) = Some u -> voted_for (durable_ st') = Some u) /\
     (voted_for (cmeta_ st) = Some u -> voted_for (cmeta_ st') <> Some u ->
        current_term (cmeta_ st) < current_term (cmeta_ st')) /\
     (voted_for (durable_ st) = Some u -> voted_for (durable_ st') <> Some u ->
        current_term (durable_ st) < current_term (durable_ st'))) /\
  (forall st request tomb lock_free now u,
     voted_for (cmeta_ st) = Some u ->
     candidate_term request = CurrentTermUnlocked st ->
     (RequestVote flags st request tomb lock_free now).2 = st /\
     (early_checks_pass st request tomb lock_free now = true ->
      let resp := (RequestVote flags st request tomb lock_free now).1.2 in
      (RequestVote flags st request tomb lock_free now).1.1 = OK /\
      responder_term resp = CurrentTermUnlocked st /\
      (u = candidate_uuid request -> vote_granted resp = true /\ consensus_error resp = None) /\
      (u <> candidate_uuid request ->
         vote_granted resp = false /\
         consensus_error resp = Some (ALREADY_VOTED, InvalidArgument msg_already_voted)))).
Proof.
  split; [| apply RequestVote_already_voted].
  intros st st' u Hsteps Hb.
  pose proof (replica_steps_good _ _ Hsteps) as G.
  destruct (good_step_keeps_behind _ _ G Hb) as [Hb' Hd].
  destruct G as [Hm _].
  split; [exact Hb' |]. split; [apply Hm |]. split; [apply Hd |].
  split; [intros Ht Hu; exact (vote_step_kept _ _ _ Hm Ht Hu) |].
  split; [intros Ht Hu; exact (vote_step_kept _ _ _ Hd Ht Hu) |].
  split.
  - intros Hu Hne. destruct Hm as [Hle Hsame].
    destruct (Z.eq_dec (current_term (cmeta_ st')) (current_term (cmeta_ st))) as [E | E];
      [| lia].
    destruct (Hsame E); congruence.
  - intros Hu Hne. destruct Hd as [Hle Hsame].
    destruct (Z.eq_dec (current_term (durable_ st')) (current_term (durable_ st))) as [E | E];
      [| lia].
    destruct (Hsame E); congruence.
Qed.

Lemma StartElection_pre_election st :
  (StartElection flags env st PRE_ELECTION).1.2 = st /\
  forall req, (StartElection flags env st PRE_ELECTION).2 = Some req ->
    candidate_term req = CurrentTermUnlocked st + 1 /\
    is_pre_election req = true /\ candidate_uuid req = local_uuid st.
Proof.
  unfold StartElection.
  destruct (CheckRunningUnlocked st); try done.
  destruct (negb (start_election_allowed_ st)); [done |].
  destruct (active_role st); cbn [IsVoterRole negb]; try done.
  destruct (_ && _ && bool_decide _); [done |]. simpl.
  destruct (RegisterSelfVote _ _ _); simpl; split; try done.
  by intros req [= <-].
Qed.

Lemma StartElection_real_election st mode s st' req :
  mode <> PRE_ELECTION ->
  StartElection flags env st mode = (s, st', Some req) ->
  s = OK /\
  CurrentTermUnlocked st' = CurrentTermUnlocked st + 1 /\
  voted_for (cmeta_ st') = Some (local_uuid st) /\
  durable_ st' = cmeta_ st' /\
  flush_count_ st' = S (flush_count_ st) /\
  candidate_term req = CurrentTermUnlocked st + 1 /\
  is_pre_election req = false /\ candidate_uuid req = local_uuid st.
Proof.
  intros Hmode. unfold StartElection.
  destruct (CheckRunningUnlocked st); try done.
  destruct (negb (start_election_allowed_ st)); [done |].
  destruct (active_role st); cbn [IsVoterRole negb]; try done.
  destruct (_ && _ && bool_decide _); [done |].
  destruct (HandleTermAdvanceUnlocked_ok st (CurrentTermUnlocked st + 1) SKIP_FLUSH_TO_DISK)
    as (st1 & E & T1 & V1 & U1 & _ & S1 & _); [lia |].
  destruct (S1 eq_refl) as [D1 F1].
  destruct mode; [| done |]; cbv zeta; rewrite E; simpl negb; cbv iota; simpl;
    destruct (RegisterSelfVote _ _ _); try done; intros [= <- <- <-]; simpl;
    unfold CurrentTermUnlocked in *; simpl; repeat split; congruence.
Qed.

Lemma follower_is_voter st :
  active_role st = FOLLOWER ->
  IsRaftConfigVoter (local_uuid st) (ActiveConfig (cmeta_ st)) = true.
Proof.
  unfold active_role, GetConsensusRole, IsRaftConfigVoter.
  destruct (bool_decide (local_uuid st = "")); [done |].
  destruct (find_peer _ _) as [p |]; [| done].
  by destruct (member_type p).
Qed.

(** A running follower that may start elections, whose region has a voter
    distribution and whose own vote registers, does start the real election. *)
Lemma StartElection_real_starts st :
  state_ st = kRunning -> start_election_allowed_ st = true ->
  active_role st = FOLLOWER ->
  (enable_flexi_raft flags = true -> use_quorum_id (ActiveConfig (cmeta_ st)) = false ->
   is_Some (voter_distribution (ActiveConfig (cmeta_ st)) !! local_region st)) ->
  RegisterSelfVote env (ActiveConfig (cmeta_ st)) (CurrentTermUnlocked st + 1) = OK ->
  exists st' req, StartElection flags env st NORMAL_ELECTION = (OK, st', Some req).
Proof.
  intros Hrun Hallowed Hrole Hdist Hreg. unfold StartElection, CheckRunningUnlocked.
  rewrite Hrun, Hallowed, Hrole. cbn [negb IsVoterRole].
  assert ((enable_flexi_raft flags && negb (use_quorum_id (ActiveConfig (cmeta_ st)))
           && bool_decide (voter_distribution (ActiveConfig (cmeta_ st))
                             !! local_region st = None)) = false) as ->.
  { destruct (enable_flexi_raft flags); [| done].
    destruct (use_quorum_id (ActiveConfig (cmeta_ st))); [done |]. simpl.
    destruct (Hdist eq_refl eq_refl) as [x Hx]. apply bool_decide_eq_false_2. congruence. }
  assert (Hset : SetCurrentTermUnlocked st (CurrentTermUnlocked st + 1) SKIP_FLUSH_TO_DISK
                 = (OK, ScheduleTermAdvancementCallback
                          (ClearLeaderUnlocked
                             (with_cmeta st
                                (clear_voted_for
                                   (set_current_term (cmeta_ st)
                                      (CurrentTermUnlocked st + 1)))))
                          (CurrentTermUnlocked st + 1))).
  { unfold SetCurrentTermUnlocked.
    assert ((CurrentTermUnlocked st + 1 <=? CurrentTermUnlocked st) = false) as -> by lia.
    reflexivity. }
  cbv zeta iota. rewrite HandleTermAdvanceUnlocked_unfold by lia.
  unfold stepped_down. rewrite Hrole, Hset. simpl.
  match goal with
  | |- context [RegisterSelfVote env ?c ?n] =>
      change (RegisterSelfVote env c n)
        with (RegisterSelfVote env (ActiveConfig (cmeta_ st)) (CurrentTermUnlocked st + 1))
  end.
  rewrite Hreg. by eexists _, _.
Qed.

(** C6.  A pre-election leaves the candidate exactly as it was (no term
    advance, no vote, no flush) and asks for votes for the next term; the
    election callback starts an election only for a granted pre-election, and
    that election is the real one, which advances the term by one, votes for
    the candidate itself and flushes; and it does start it when the granted
    pre-election was for the term after the current one and the replica is
    still a running follower that may start elections (its region having a
    voter distribution and its own vote registering); a voter answers a
    pre-election request
    without changing anything, and [RequestVoteRespondVoteGranted] records and
    flushes the vote only for a request that is not a pre-election. *)
Theorem pre_election_persists_nothing :
  (forall st,
     (StartElection flags env st PRE_ELECTION).1.2 = st /\
     forall req, (StartElection flags env st PRE_ELECTION).2 = Some req ->
       candidate_term req = CurrentTermUnlocked st + 1 /\
       is_pre_election req = true /\ candidate_uuid req = local_uuid st) /\
  (forall st result st' req,
     DoElectionCallback flags env st result = Some (st', Some req) ->
     is_pre_election (LeaderElection.vote_request result) = true /\
     LeaderElection.decision result = VoteCounter.VOTE_GRANTED /\
     candidate_term (LeaderElection.vote_request result) = CurrentTermUnlocked st + 1 /\
     StartElection flags env st NORMAL_ELECTION = (OK, st', Some req) /\
     CurrentTermUnlocked st' = CurrentTermUnlocked st + 1 /\
     candidate_term req = CurrentTermUnlocked st + 1 /\
     is_pre_election req = false /\
     voted_for (cmeta_ st') = Some (local_uuid st) /\
     durable_ st' = cmeta_ st') /\
  (forall st result,
     state_ st = kRunning ->
     LeaderElection.decision result = VoteCounter.VOTE_GRANTED ->
     is_pre_election (LeaderElection.vote_request result) = true ->
     candidate_term (LeaderElection.vote_request result) = CurrentTermUnlocked st + 1 ->
     active_role st = FOLLOWER ->
     start_election_allowed_ st = true ->
     (enable_flexi_raft flags = true -> use_quorum_id (ActiveConfig (cmeta_ st)) = false ->
      is_Some (voter_distribution (ActiveConfig (cmeta_ st)) !! local_region st)) ->
     RegisterSelfVote env (ActiveConfig (cmeta_ st)) (CurrentTermUnlocked st + 1) = OK ->
     exists st' req,
       DoElectionCallback flags env st result = Some (st', Some req) /\
       is_pre_election req = false /\
       candidate_term req = CurrentTermUnlocked st + 1 /\
       CurrentTermUnlocked st' = CurrentTermUnlocked st + 1 /\
       voted_for (cmeta_ st') = Some (local_uuid st) /\
       durable_ st' = cmeta_ st') /\
  (forall st request tomb lock_free now,
     is_pre_election request = true ->
     (RequestVote flags st request tomb lock_free now).2 = st) /\
  (forall st request response,
     (is_pre_election request = true ->
        RequestVoteRespondVoteGranted st request response
        = (OK, FillVoteResponseVoteGranted st response, st)) /\
     (is_pre_election request = false ->
        exists st', RequestVoteRespondVoteGranted st request response
                    = (OK, FillVoteResponseVoteGranted st' response, st') /\
          voted_for (cmeta_ st') = Some (candidate_uuid request) /\
          durable_ st' = cmeta_ st' /\ flush_count_ st' = S (flush_count_ st))).
Proof.
  split; [exact StartElection_pre_election |]. split; [| split; [| split]].
  - intros st result st' req H. unfold DoElectionCallback in H.
    destruct (CheckRunningUnlocked st); try done.
    destruct (LeaderElection.decision result) eqn:Hdec.
    { destruct (_ <? _); done. }
    destruct (negb (_ =? _)) eqn:Hterm; [done |].
    destruct (negb (IsRaftConfigVoter _ _)); [done |].
    assert (Hpre : is_pre_election (LeaderElection.vote_request result) = true /\
                   StartElection flags env st NORMAL_ELECTION
                   = ((StartElection flags env st NORMAL_ELECTION).1.1, st', Some req)).
    { destruct (active_role st); try discriminate H;
        (destruct (is_pre_election (LeaderElection.vote_request result));
         [ destruct (StartElection flags env st NORMAL_ELECTION) as [[s0 st0] r0];
           by injection H as -> ->
         | simpl in H; destruct (BecomeLeaderUnlocked env _) as [[[] ?] |];
           discriminate H ]). }
    destruct Hpre as [Hpre HSE]. rewrite Hpre in Hterm.
    assert (Hne : NORMAL_ELECTION <> PRE_ELECTION) by discriminate.
    destruct (StartElection_real_election _ NORMAL_ELECTION _ _ _ Hne HSE)
      as (Hs & T & V & D & _ & C & P & _).
    rewrite Hs in HSE.
    apply negb_false_iff, Z.eqb_eq in Hterm.
    repeat split; try done. lia.
  - intros st result Hrun Hdec Hpre Hterm Hrole Hallowed Hdist Hreg.
    destruct (StartElection_real_starts st Hrun Hallowed Hrole Hdist Hreg)
      as (st' & req & HSE).
    assert (Hne : NORMAL_ELECTION <> PRE_ELECTION) by discriminate.
    destruct (StartElection_real_election _ NORMAL_ELECTION _ _ _ Hne HSE)
      as (_ & T & V & D & _ & C & P & _).
    exists st', req. split; [| by repeat split].
    unfold DoElectionCallback, CheckRunningUnlocked.
    rewrite Hrun, Hdec, Hpre, Hterm, (follower_is_voter st Hrole), Hrole, HSE.
    assert ((CurrentTermUnlocked st + 1 - 1 =? CurrentTermUnlocked st) = true) as -> by lia.
    reflexivity.
  - intros st request tomb lock_free now Hpre. unfold RequestVote.
    destruct (negb (if _ && _ then lock_free else true)); [done |].
    destruct (match state_ st with kShutdown => _ | _ => _ end); [done |].
    destruct (withhold_votes_ st); [done |].
    destruct (_ && now_before _ _); [done |].
    destruct (_ <? _); [done |].
    destruct (_ && HasVotedCurrentTermUnlocked st); [by destruct (bool_decide _) |].
    destruct (_ && _ && (_ <? _)); [done |].
    unfold RequestVoteRespondVoteGranted. rewrite Hpre. simpl.
    by destruct (negb (negb _)).
  - intros st request response. unfold RequestVoteRespondVoteGranted.
    split; intros ->; simpl; [done |].
    eexists. split; [reflexivity |]. done.
Qed.

End ReplicaFacts.

Section ReplicaExamples.
Import PB RaftConsensus Examples.

(** An update from a leader of term 7 that runs an earlier version of the
    protocol. *)
Definition example_old_version_update : ConsensusRequestPB :=
  mkRequest "B" 7 (mkOpId 5 12)
    [mkMsg (mkOpId 5 13) WRITE_OP empty_RaftConfigPB empty_RaftConfigPB 0 0]
    11 10 10 13 true true.

(** Replica "A" in term 5 grants "B" its vote for term 6; asked by "C" for the
    same term it keeps the vote for "B" and answers ALREADY_VOTED. *)
Lemma at_most_one_vote_per_term_witness :
  voted_for (cmeta_ (RequestVote example_flags (example_replica 5 None "")
                       (example_vote_request "B") None true 0).2) = Some "B" /\
  voted_for (cmeta_ (RequestVote example_flags
                       (RequestVote example_flags (example_replica 5 None "")
                          (example_vote_request "B") None true 0).2
                       (example_vote_request "C") None true 0).2) = Some "B" /\
  consensus_error (RequestVote example_flags
                     (RequestVote example_flags (example_replica 5 None "")
                        (example_vote_request "B") None true 0).2
                     (example_vote_request "C") None true 0).1.2
  = Some (ALREADY_VOTED, InvalidArgument msg_already_voted).
Proof.
  destruct (at_most_one_vote_per_term example_flags example_env example_apply)
    as [Hrun Hvote].
  split; [vm_compute; reflexivity |]. split.
  - destruct (Hrun (RequestVote example_flags (example_replica 5 None "")
                      (example_vote_request "B") None true 0).2
                   (RequestVote example_flags
                      (RequestVote example_flags (example_replica 5 None "")
                         (example_vote_request "B") None true 0).2
                      (example_vote_request "C") None true 0).2
                   "B") as (_ & _ & _ & Hkeep & _).
    + apply rtc_once.
      exact (step_RequestVote example_flags example_env example_apply
               (RequestVote example_flags (example_replica 5 None "")
                  (example_vote_request "B") None true 0).2
               (example_vote_request "C") None true 0).
    + split; [by vm_compute | intros _; left; vm_compute; reflexivity].
    + apply Hkeep; vm_compute; reflexivity.
  - destruct (Hvote (RequestVote example_flags (example_replica 5 None "")
                       (example_vote_request "B") None true 0).2
                (example_vote_request "C") None true 0 "B") as [_ Hresp];
      [vm_compute; reflexivity | vm_compute; reflexivity |].
    destruct Hresp as (_ & _ & _ & Hden); [vm_compute; reflexivity |].
    apply Hden. discriminate.
Defined.

(** The new leader of term 5 is told of term 7: it steps down, moves to term
    7 with no vote and no leader and flushes; told of term 5 it refuses. *)
Lemma HandleTermAdvanceUnlocked_spec_witness :
  HandleTermAdvanceUnlocked example_new_leader 5 FLUSH_TO_DISK
  = (IllegalState msg_cannot_advance_term, example_new_leader) /\
  active_role example_new_leader = LEADER /\
  exists st',
    HandleTermAdvanceUnlocked example_new_leader 7 FLUSH_TO_DISK = (OK, st') /\
    CurrentTermUnlocked st' = 7 /\ voted_for (cmeta_ st') = None /\
    GetLeaderUuidUnlocked st' = "" /\ active_role st' <> LEADER /\
    current_term (durable_ st') = 7.
Proof.
  destruct (HandleTermAdvanceUnlocked_spec example_new_leader 5 FLUSH_TO_DISK)
    as [Hrefuse _].
  destruct (HandleTermAdvanceUnlocked_spec example_new_leader 7 FLUSH_TO_DISK)
    as [_ Hadvance].
  split; [apply Hrefuse; reflexivity |]. split; [reflexivity |].
  destruct Hadvance as (_ & _ & st' & E & _ & T & V & L & R & F); [reflexivity |].
  exists st'. repeat split; try assumption. by destruct (F eq_refl).
Defined.

(** The follower in term 5 refuses an update from term 4 with its own term in
    the reply, and moves to term 7 on an update from term 7. *)
Lemma follower_update_term_handling_witness :
  UpdateReplica example_flags example_env example_follower (example_update_from_term 4)
    example_response false 0
  = Some (OK, invalid_term_reply example_follower example_response, example_follower, []) /\
  resp_responder_term (invalid_term_reply example_follower example_response) = Some 5 /\
  exists st1,
    HandleLeaderRequestTermUnlocked example_follower (example_update_from_term 7)
      example_response = (OK, example_response, st1) /\
    CurrentTermUnlocked st1 = 7 /\ current_term (durable_ st1) = 7.
Proof.
  destruct (follower_update_term_handling example_flags example_env example_follower
              (example_update_from_term 4) example_response) as [Hlow _].
  destruct (follower_update_term_handling example_flags example_env example_follower
              (example_update_from_term 7) example_response) as [_ Hhigh].
  destruct Hlow as (_ & Hterm & _ & Hupd); [reflexivity |].
  split.
  - apply Hupd. split; [reflexivity |]. split; [reflexivity |].
    eexists. split; reflexivity.
  - split; [exact Hterm |].
    destruct Hhigh as (st1 & E & _ & T & D & _); [reflexivity |].
    by exists st1.
Defined.

(** The follower of term 5 answers it InvalidArgument before it looks at the
    term, and stays in term 5. *)
Lemma update_term_handling_as_stated_fails :
  ~ update_term_handling_as_stated example_flags example_env.
Proof.
  intros Hclaim.
  destruct (Hclaim example_follower example_old_version_update example_response false 0)
    as [_ Hhigher].
  assert (Hterm : CurrentTermUnlocked example_follower = 7).
  { apply (Hhigher eq_refl (InvalidArgument msg_old_version) example_response
             example_follower []).
    reflexivity. }
  discriminate Hterm.
Qed.

(** A pre-election of replica "A" in term 5 asks for votes for term 6 and
    leaves the replica as it is; once it is granted, the election callback
    starts the real election, which takes the replica to term 6; a voter in
    term 5 grants a pre-election without recording anything. *)
Lemma pre_election_persists_nothing_witness :
  (StartElection example_flags example_env (example_replica 5 None "") PRE_ELECTION).1.2
  = example_replica 5 None "" /\
  (StartElection example_flags example_env (example_replica 5 None "") PRE_ELECTION).2
  = Some (mkVoteRequest "A" 6 (mkOpId 2 10) false true) /\
  (exists st' req,
     DoElectionCallback example_flags example_env (example_replica 5 None "")
       (LeaderElection.mkElectionResult (mkVoteRequest "A" 6 (mkOpId 2 10) false true)
          VoteCounter.VOTE_GRANTED 5 "" false)
     = Some (st', Some req) /\
     is_pre_election req = false /\ candidate_term req = 6 /\
     CurrentTermUnlocked st' = 6 /\ voted_for (cmeta_ st') = Some "A") /\
  (RequestVote example_flags (example_replica 5 None "")
     (mkVoteRequest "B" 6 (mkOpId 2 10) false true) None true 0).2
  = example_replica 5 None "" /\
  vote_granted (RequestVote example_flags (example_replica 5 None "")
                  (mkVoteRequest "B" 6 (mkOpId 2 10) false true) None true 0).1.2 = true.
Proof.
  destruct (pre_election_persists_nothing example_flags example_env)
    as (Hstart & _ & Hreal & Hvoter & _).
  split; [apply Hstart |]. split; [reflexivity |].
  split; [| split; [by apply Hvoter | reflexivity]].
  destruct (Hreal (example_replica 5 None "")
              (LeaderElection.mkElectionResult (mkVoteRequest "A" 6 (mkOpId 2 10) false true)
                 VoteCounter.VOTE_GRANTED 5 "" false)
              eq_refl eq_refl eq_refl eq_refl eq_refl eq_refl)
    as (st' & req & E & P & C & T & V & _).
  - intros Hflexi. discriminate Hflexi.
  - reflexivity.
  - by exists st', req.
Defined.

End ReplicaExamples.

(** * Elections and higher terms *)

Section ElectionFacts.
Import PB RaftConsensus.
Import LeaderElection.
Context {C : Type} `{Counter C}.
Variable flags : Flags.
Variable env : Collaborators.

(** The result [HandleHigherTermUnlocked] builds from a voter's response. *)
Definition higher_term_result (e : LeaderElection.t C) (state : VoterState) : ElectionResult :=
  mkElectionResult (request_ e) VoteCounter.VOTE_DENIED
    (responder_term (response state)) msg_higher_term
    (match voter_context_is_candidate_removed (response state) with
     | Some true => true
     | _ => false
     end).

(** A response that reaches [HandleVoteDeniedUnlocked]: the RPC succeeded, the
    response carries no tablet-level error, it comes from the peer it was sent
    to, and it denies the vote. *)
Definition is_vote_denial (voter_uuid : string) (state : VoterState) : Prop :=
  rpc_ok state = true /\ has_error (response state) = false /\
  voter_uuid = responder_uuid (response state) /\
  vote_granted (response state) = false.

(** C7 as stated: whatever the response and whatever the replica, a responder
    term above the election term makes the election conclude DENIED with that
    term, and the election callback leaves the replica in that term. *)
Definition higher_term_cancels_as_stated : Prop :=
  forall (e : LeaderElection.t C) voter_uuid state (st : RaftConsensus.t),
    voter_state_ e !! voter_uuid = Some state ->
    election_term e < responder_term (response state) ->
    result_ e = None ->
    exists e' delivered r st',
      VoteResponseRpcCallback e voter_uuid = Some (e', delivered) /\
      result_ e' = Some r /\
      decision r = VoteCounter.VOTE_DENIED /\
      highest_voter_term r = responder_term (response state) /\
      DoElectionCallback flags env st r = Some (st', None) /\
      CurrentTermUnlocked st' = responder_term (response state).

Lemma CheckForDecision_decided (e : LeaderElection.t C) r :
  result_ e = Some r ->
  CheckForDecision e
  = Some (set_has_responded e, if has_responded_ e then None else Some r).
Proof.
  intros Hr. unfold CheckForDecision. rewrite Hr. simpl. rewrite Hr.
  destruct e as [[] ? ? ? ? ?]; simpl in *; [| done].
  by rewrite Hr.
Qed.

Lemma VoteResponseRpcCallback_higher_term (e : LeaderElection.t C) voter_uuid state :
  voter_state_ e !! voter_uuid = Some state ->
  is_vote_denial voter_uuid state ->
  election_term e < responder_term (response state) ->
  result_ e = None ->
  exists e',
    VoteResponseRpcCallback e voter_uuid
    = Some (e', if has_responded_ e then None else Some (higher_term_result e state)) /\
    result_ e' = Some (higher_term_result e state) /\
    has_responded_ e' = true /\
    vote_counter_ e' = vote_counter_ e /\
    highest_voter_term_ e'
    = Z.max (highest_voter_term_ e) (responder_term (response state)).
Proof.
  intros Hs (Hrpc & Herr & Hu & Hg) Hlt Hn.
  unfold VoteResponseRpcCallback. rewrite Hs. simpl.
  rewrite Hrpc, Herr, Hg. simpl.
  rewrite bool_decide_eq_true_2 by done. simpl.
  unfold HandleVoteDeniedUnlocked, election_term in *. simpl.
  assert ((candidate_term (request_ e) <? responder_term (response state)) = true) as ->
    by lia.
  unfold HandleHigherTermUnlocked. simpl. rewrite Hn.
  erewrite CheckForDecision_decided by reflexivity.
  eexists. split; [reflexivity |]. done.
Qed.

Lemma DoElectionCallback_denied st (r : ElectionResult) :
  decision r = VoteCounter.VOTE_DENIED ->
  (CheckRunningUnlocked st = OK ->
   exists st', DoElectionCallback flags env st r = Some (st', None) /\
     CurrentTermUnlocked st' = Z.max (CurrentTermUnlocked st) (highest_voter_term r) /\
     (CurrentTermUnlocked st < highest_voter_term r ->
        voted_for (cmeta_ st') = None /\
        current_term (durable_ st') = highest_voter_term r) /\
     (highest_voter_term r <= CurrentTermUnlocked st ->
        cmeta_ st' = cmeta_ st /\ durable_ st' = durable_ st)) /\
  (CheckRunningUnlocked st <> OK -> DoElectionCallback flags env st r = Some (st, None)).
Proof.
  intros Hd. unfold DoElectionCallback. rewrite Hd. split.
  - intros ->.
    set (st0 := with_failed_elections _ _ _).
    assert (Hc : cmeta_ st0 = cmeta_ st /\ durable_ st0 = durable_ st).
    { unfold st0. by destruct (result_is_candidate_removed r). }
    destruct Hc as [Hc Hdur].
    assert (Ht : CurrentTermUnlocked st0 = CurrentTermUnlocked st).
    { unfold CurrentTermUnlocked. by rewrite Hc. }
    destruct (Z.ltb_spec (CurrentTermUnlocked st0) (highest_voter_term r)) as [Hlt | Hge].
    + destruct (HandleTermAdvanceUnlocked_ok st0 (highest_voter_term r) FLUSH_TO_DISK Hlt)
        as (st1 & E & T1 & V1 & _ & _ & _ & F1).
      rewrite E. simpl. eexists. split; [reflexivity |].
      destruct (F1 eq_refl) as [F2 F3].
      split; [lia |]. split; [done |]. intros; lia.
    + eexists. split; [reflexivity |]. split; [lia |]. split; [intros; lia | done].
  - intros Hnr. by destruct (CheckRunningUnlocked st).
Qed.

(** C7, amended.  A response that denies the vote (RPC delivered, no
    tablet-level error, sent by the peer it was asked of) with a responder
    term above the election term, while the election has no result, makes the
    election conclude with a DENIED result carrying that responder term; the
    result is handed to the decision callback unless one was handed over
    before.  The election callback on a running replica then leaves the
    replica in the larger of its current term and that term (advancing,
    clearing the vote and flushing exactly when that term is higher); a
    replica that is not running is left as it is. *)
Theorem higher_term_denial_cancels (e : LeaderElection.t C) (voter_uuid : string)
    (state : VoterState) (st : RaftConsensus.t) :
  voter_state_ e !! voter_uuid = Some state ->
  is_vote_denial voter_uuid state ->
  election_term e < responder_term (response state) ->
  result_ e = None ->
  (exists e',
     VoteResponseRpcCallback e voter_uuid
     = Some (e', if has_responded_ e then None else Some (higher_term_result e state)) /\
     result_ e' = Some (higher_term_result e state) /\
     has_responded_ e' = true /\
     vote_counter_ e' = vote_counter_ e) /\
  decision (higher_term_result e state) = VoteCounter.VOTE_DENIED /\
  highest_voter_term (higher_term_result e state) = responder_term (response state) /\
  (CheckRunningUnlocked st = OK ->
   exists st',
     DoElectionCallback flags env st (higher_term_result e state) = Some (st', None) /\
     CurrentTermUnlocked st'
     = Z.max (CurrentTermUnlocked st) (responder_term (response state)) /\
     (CurrentTermUnlocked st < responder_term (response state) ->
        voted_for (cmeta_ st') = None /\
        current_term (durable_ st') = responder_term (response state)) /\
     (responder_term (response state) <= CurrentTermUnlocked st ->
        cmeta_ st' = cmeta_ st /\ durable_ st' = durable_ st)) /\
  (CheckRunningUnlocked st <> OK ->
   DoElectionCallback flags env st (higher_term_result e state) = Some (st, None)).
Proof.
  intros Hs Hden Hlt Hn.
  destruct (VoteResponseRpcCallback_higher_term e voter_uuid state Hs Hden Hlt Hn)
    as (e' & E & R & Hr & Hc & _).
  split; [by exists e' |]. split; [done |]. split; [done |].
  exact (DoElectionCallback_denied st (higher_term_result e state) eq_refl).
Qed.

End ElectionFacts.

Section ElectionExamples.
Import PB RaftConsensus LeaderElection Examples.

Lemma higher_term_denial_cancels_witness :
  (exists e',
     VoteResponseRpcCallback example_election "B"
     = Some (e', Some (higher_term_result example_election example_denial)) /\
     result_ e' = Some (higher_term_result example_election example_denial) /\
     has_responded_ e' = true /\
     vote_counter_ e' = vote_counter_ example_election) /\
  (exists st',
     DoElectionCallback example_flags example_env (example_replica 5 (Some "A") "")
       (higher_term_result example_election example_denial) = Some (st', None) /\
     CurrentTermUnlocked st' = 6 /\ voted_for (cmeta_ st') = None /\
     current_term (durable_ st') = 6).
Proof.
  destruct (higher_term_denial_cancels example_flags example_env example_election "B"
              example_denial (example_replica 5 (Some "A") ""))
    as (H1 & _ & _ & H2 & _).
  - reflexivity.
  - repeat split.
  - reflexivity.
  - reflexivity.
  - split; [exact H1 |].
    destruct (H2 eq_refl) as (st' & E & T & V & _).
    exists st'. split; [exact E |]. split; [exact T |].
    apply V. reflexivity.
Defined.

(** The replica has meanwhile moved to term 9 (say, on an update from a new
    leader): the DENIED result carrying term 6 leaves it in term 9. *)
Lemma higher_term_cancels_as_stated_fails :
  ~ higher_term_cancels_as_stated (C := VoteCounter.t) example_flags example_env.
Proof.
  intros Hclaim.
  destruct (Hclaim example_election "B" example_denial (example_replica 9 None "B"))
    as (e' & d & r & st' & E & R & _ & _ & D & T).
  - reflexivity.
  - reflexivity.
  - reflexivity.
  - vm_compute in E. injection E as <- <-. vm_compute in R. injection R as <-.
    vm_compute in D. injection D as <-. vm_compute in T. discriminate T.
Qed.

End ElectionExamples.

(** * The early commit of the follower update path *)

Section EarlyCommit.
Import PB RaftConsensus.
Variable flags : Flags.
Variable env : Collaborators.

(** The update is accepted: the replica is running and the check of the
    leader's request succeeds without an error in the response, leaving the
    replica [st0] and the deduplicated request [d]. *)
Definition update_accepted (st : t) (request : ConsensusRequestPB)
    (response : ConsensusResponsePB) (st0 : t) (r0 : ConsensusResponsePB)
    (d : LeaderRequest) : Prop :=
  CheckRunningUnlocked st = OK /\
  (exists new_leader,
     CheckLeaderRequestUnlocked env st request response
     = Some (OK, r0, st0, Some d, new_leader)) /\
  has_status_error r0 = false.

Lemma prepare_loop_events msgs : forall st prepared evs st' prepared' s evs',
  prepare_loop env st msgs prepared evs = Some (st', prepared', s, evs') ->
  exists more, evs' = evs ++ more /\
    Forall (fun e => is_enqueue e = true) more.
Proof.
  induction msgs as [| m rest IH]; intros st prepared evs st' prepared' s evs' H;
    simpl in H.
  - injection H as <- <- <- <-. exists []. by rewrite app_nil_r.
  - destruct (StartFollowerTransactionUnlocked env st m) as [[s1 st1] |]; simpl in H;
      [| done].
    destruct (negb (ok s1)).
    + injection H as <- <- <- <-. eexists. split; [reflexivity |]. by constructor.
    + destruct (MessageReceivedFromLeader env m); try done.
      apply IH in H as (more & -> & Hall). rewrite <- app_assoc.
      eexists. split; [reflexivity |]. by constructor.
Qed.

Lemma CheckLeaderRequestUnlocked_deduped st request response s r st0 d b :
  CheckLeaderRequestUnlocked env st request response = Some (s, r, st0, Some d, b) ->
  DeduplicateLeaderRequestUnlocked st request = Some d.
Proof.
  unfold CheckLeaderRequestUnlocked.
  destruct (_ || _); [done |].
  destruct (DeduplicateLeaderRequestUnlocked st request) as [d0 |]; simpl; [| done].
  intros H. f_equal.
  destruct (check_sequence _ _ _); try by injection H.
  destruct (HandleLeaderRequestTermUnlocked _ _ _) as [[s1 r1] st1].
  destruct (negb (ok s1)); [by injection H |].
  destruct (has_status_error r1); [by injection H |].
  destruct (EnforceLogMatchingPropertyMatchesUnlocked _ _ _ _) as [[s2 r2] st2].
  destruct (negb (ok s2)); [by injection H |].
  destruct (has_status_error r2); [by injection H |].
  destruct (match messages d0 with [] => _ | _ => _ end) as [st3 |]; simpl in H; [| done].
  destruct (_ && _); [done |].
  destruct (negb (HasLeaderUnlocked st3)); [| by injection H].
  simpl in H. by injection H.
Qed.

(** C4.  On an accepted update the first call [UpdateReplica] makes on the
    pending rounds or the queue is [AdvanceCommittedIndex] with exactly the
    least of the last pending index, the index preceding the deduplicated
    request and the leader's committed index; the call succeeds, its result is
    the pending rounds the prepares start from, and every enqueue comes after
    it. *)
Theorem early_commit_before_enqueue (st : t) (request : ConsensusRequestPB)
    (response : ConsensusResponsePB) (st0 : t) (r0 : ConsensusResponsePB)
    (d : LeaderRequest) (soft : bool) (now : Z)
    (s : Status) (r : ConsensusResponsePB) (st' : t) (evs : list Event) :
  update_accepted st request response st0 r0 d ->
  UpdateReplica flags env st request response soft now = Some (s, r, st', evs) ->
  DeduplicateLeaderRequestUnlocked st request = Some d /\
  exists st1 rest,
    evs = EvAdvanceCommittedIndex
            (Z.min (Z.min (index (GetLastPendingTransactionOpId (pending_ st0)))
                          (index (preceding_opid d)))
                   (committed_index request)) :: rest /\
    UpdateReplica_early_commit flags env st0 request d now = Some st1 /\
    AdvanceCommittedIndex env (pending_ st0)
      (Z.min (Z.min (index (GetLastPendingTransactionOpId (pending_ st0)))
                    (index (preceding_opid d)))
             (committed_index request))
    = (OK, pending_ st1) /\
    (negb (bool_decide (messages d = [])) && soft = true ->
       s = ServiceUnavailable msg_soft_limit /\ st' = st1 /\ rest = []).
Proof.
  intros (Hrun & [b Hc] & Herr) H.
  split; [by eapply CheckLeaderRequestUnlocked_deduped |].
  unfold UpdateReplica in H. rewrite Hrun, Hc in H. simpl in H. rewrite Herr in H.
  unfold UpdateReplica_accepted in H.
  destruct (UpdateReplica_early_commit flags env st0 request d now) as [st1 |] eqn:E;
    simpl in H; [| done].
  assert (Hadv : AdvanceCommittedIndex env (pending_ st0)
                   (Z.min (Z.min (index (GetLastPendingTransactionOpId (pending_ st0)))
                                 (index (preceding_opid d)))
                          (committed_index request)) = (OK, pending_ st1)).
  { unfold UpdateReplica_early_commit, early_apply_up_to in E. simpl in E.
    destruct (AdvanceCommittedIndex env _ _) as [[] p]; try done.
    by injection E as <-. }
  exists st1.
  destruct (negb (bool_decide (messages d = [])) && soft) eqn:Hsoft.
  { injection H as <- <- <- <-. exists []. by repeat split. }
  destruct (prepare_loop env st1 (messages d) [] _) as [[[[st2 prepared] ps] evs2] |] eqn:EP;
    simpl in H; [| done].
  apply prepare_loop_events in EP as (more & -> & _).
  destruct (negb (ok ps) && bool_decide (prepared = [])).
  { injection H as <- <- <- <-. eexists. by repeat split. }
  destruct (last prepared) as [m |].
  - destruct (AppendOperations env (queue_ st2) prepared) as [[] q]; simpl in H; try done.
    destruct (AdvanceCommittedIndex env _ _) as [[] p]; try done.
    injection H as <- <- <- <-. eexists. by repeat split.
  - simpl in H.
    destruct (AdvanceCommittedIndex env _ _) as [[] p]; try done.
    injection H as <- <- <- <-. eexists. by repeat split.
Qed.

End EarlyCommit.

Section EarlyCommitExample.
Import PB RaftConsensus Examples.

Lemma early_commit_before_enqueue_witness :
  exists st1 s r st',
    UpdateReplica example_flags example_env example_follower example_update
      example_response false 0
    = Some (s, r, st',
            [EvAdvanceCommittedIndex 11;
             EvStartFollowerTransaction (mkOpId 5 13);
             EvAppendOperations [mkOpId 5 13];
             EvAdvanceCommittedIndex 11;
             EvUpdateFollowerWatermarks 11 10 10]) /\
    UpdateReplica_early_commit example_flags example_env example_follower example_update
      example_deduped 0 = Some st1 /\
    pending_GetCommittedIndex (pending_ example_follower) = 10 /\
    pending_GetCommittedIndex (pending_ st1) = 11.
Proof.
  destruct (UpdateReplica example_flags example_env example_follower example_update
              example_response false 0) as [[[[s r] st'] evs] |] eqn:E;
    [| discriminate E].
  destruct (early_commit_before_enqueue example_flags example_env example_follower
              example_update example_response example_follower example_response
              example_deduped false 0 s r st' evs)
    as (_ & st1 & rest & Hevs & Hearly & Hadv & _).
  - split; [reflexivity |]. split; [by exists false | reflexivity].
  - exact E.
  - exists st1, s, r, st'. split.
    + vm_compute in E. injection E as <- <- <- <-. reflexivity.
    + split; [exact Hearly |]. split; [reflexivity |].
      exact (eq_sym (f_equal (fun x => pending_GetCommittedIndex x.2) Hadv)).
Defined.

(** On a replica with nothing pending the last pending index reads 0, and so
    does the target of the early commit, whatever the committed index is. *)
Lemma early_commit_target_of_heartbeat :
  pending_GetCommittedIndex (pending_ (example_replica 5 None "B")) = 10 /\
  exists r st',
    UpdateReplica example_flags example_env (example_replica 5 None "B") example_heartbeat
      example_response false 0
    = Some (OK, r, st',
            [EvAdvanceCommittedIndex 0;
             EvAdvanceCommittedIndex 10;
             EvUpdateFollowerWatermarks 10 10 10]).
Proof. split; [reflexivity |]. eexists _, _. vm_compute. reflexivity. Qed.

End EarlyCommitExample.

(** * The precondition of configuration changes *)

Section ConfigChangePrecondition.
Import PB RaftConsensus.
Variable env : Collaborators.
Variable apply_config_changes :
  t -> BulkChangeConfigRequestPB -> RaftConfigPB
  -> Status * option ServerErrorCode * RaftConfigPB.

(** A running leader with no transfer in progress and no configuration change
    pending that has not committed an operation in its current term. *)
Definition leader_before_first_commit (st : t) : Prop :=
  CheckRunningUnlocked st = OK /\ CheckActiveLeaderUnlocked st = OK /\
  CheckNoConfigChangePendingUnlocked st = OK /\
  IsCommittedIndexInCurrentTerm (queue_ st) = false.

(** What [BulkChangeConfig] returns when its replication step returns
    [(s, st')]. *)
Definition replicated_outcome (r : option (Status * t))
  : option (Status * option ServerErrorCode * t * bool) :=
  match r with
  | Some (s, st') => Some (s, None, st', ok s)
  | None => None
  end.

(** What is taken of [VerifyRaftConfig] (quorum_util.cc is not among the
    sources; quorum_util.h: "Verifies that the provided configuration is well
    formed"): a configuration without peers is refused with IllegalState. *)
Definition verifier_refuses_empty : Prop :=
  forall c, peers c = [] -> IsIllegalState (VerifyRaftConfig env c) = true.

Lemma CheckBulkConfigChange_before_first_commit st req :
  leader_before_first_commit st ->
  CheckBulkConfigChangeAndGetNewConfigUnlocked apply_config_changes st req
  = (IllegalState msg_not_committed_in_term, None, empty_RaftConfigPB).
Proof.
  intros (H1 & H2 & H3 & H4). unfold CheckBulkConfigChangeAndGetNewConfigUnlocked.
  by rewrite H1, H2, H3, H4.
Qed.

Lemma BulkChangeConfig_before_first_commit st req :
  leader_before_first_commit st ->
  BulkChangeConfig env apply_config_changes st req
  = replicated_outcome
      (ReplicateConfigChangeUnlocked env st (committed_config (cmeta_ st))
         empty_RaftConfigPB).
Proof.
  intros Hst. unfold BulkChangeConfig.
  rewrite (CheckBulkConfigChange_before_first_commit st req Hst).
  destruct (ReplicateConfigChangeUnlocked _ _ _ _) as [[s st'] |]; simpl; [| done].
  by destruct s.
Qed.

(** When the change is refused after all, the refusal is that of
    [VerifyRaftConfig] on the empty configuration, with its status. *)
Lemma BulkChangeConfig_refusal_is_downstream st req s :
  leader_before_first_commit st ->
  committed_config_opid_index st < index (GetNextOpId (queue_ st)) ->
  VerifyRaftConfig env
    (set_opid_index empty_RaftConfigPB (index (GetNextOpId (queue_ st)))) = s ->
  ok s = false ->
  BulkChangeConfig env apply_config_changes st req = Some (s, None, st, false).
Proof.
  intros Hst Hidx Hv Hs. rewrite (BulkChangeConfig_before_first_commit st req Hst).
  destruct Hst as (_ & _ & Hp & _).
  unfold ReplicateConfigChangeUnlocked, AppendNewRoundToQueueUnlocked,
    AddPendingOperationUnlocked, SetPendingConfigUnlocked. simpl.
  rewrite Hp. simpl.
  assert ((committed_config_opid_index st <? index (GetNextOpId (queue_ st))) = true) as ->
    by lia.
  rewrite Hv. destruct s; [done | ..]; simpl; reflexivity.
Qed.

(** C9.  For a leader that has not committed an operation in its term the
    check refuses every configuration change with IllegalState, and
    [CheckAndPopulateChangeConfigMessage] returns that refusal.
    [BulkChangeConfig] and [ChangeConfig] do not look at the status of the
    check, but what they go on to replicate is the default-constructed
    configuration the check left untouched, which [SetPendingConfigUnlocked]
    has verified before anything is changed: with a verifier that refuses a
    configuration without peers, on a leader whose next operation lies above
    the committed configuration, the change is refused with IllegalState, the
    replica (and with it the pending configuration) is left exactly as it was
    and the peers are not signalled. *)
Theorem config_change_refused_before_first_commit (st : t)
    (req : BulkChangeConfigRequestPB) (creq : ChangeConfigRequestPB) :
  leader_before_first_commit st ->
  committed_config_opid_index st < index (GetNextOpId (queue_ st)) ->
  verifier_refuses_empty ->
  CheckBulkConfigChangeAndGetNewConfigUnlocked apply_config_changes st req
  = (IllegalState msg_not_committed_in_term, None, empty_RaftConfigPB) /\
  CheckAndPopulateChangeConfigMessage apply_config_changes st creq
  = (IllegalState msg_not_committed_in_term, None, None) /\
  (exists s, IsIllegalState s = true /\
     BulkChangeConfig env apply_config_changes st req = Some (s, None, st, false)) /\
  (exists s, IsIllegalState s = true /\
     ChangeConfig env apply_config_changes st creq = Some (s, None, st, false)).
Proof.
  intros Hst Hidx Hverify.
  split; [by apply CheckBulkConfigChange_before_first_commit |].
  split.
  { unfold CheckAndPopulateChangeConfigMessage.
    by rewrite (CheckBulkConfigChange_before_first_commit st _ Hst). }
  assert (Hs : IsIllegalState
                 (VerifyRaftConfig env
                    (set_opid_index empty_RaftConfigPB (index (GetNextOpId (queue_ st)))))
               = true) by by apply Hverify.
  assert (Hnok : ok (VerifyRaftConfig env
                       (set_opid_index empty_RaftConfigPB (index (GetNextOpId (queue_ st)))))
                 = false) by (by destruct (VerifyRaftConfig env _)).
  split; eexists; (split; [exact Hs |]).
  - by apply BulkChangeConfig_refusal_is_downstream.
  - unfold ChangeConfig. by apply BulkChangeConfig_refusal_is_downstream.
Qed.

End ConfigChangePrecondition.

Section ConfigChangeExample.
Import PB RaftConsensus Examples.

(** [example_env] with a [VerifyRaftConfig] that refuses a configuration
    without peers. *)
Definition example_verifying_env : Collaborators :=
  mkCollaborators
    (AdvanceCommittedIndex example_env) (IsOpCommittedOrPending example_env)
    (AbortOpsAfter example_env) (AddPendingOperation example_env)
    (CheckOpInSequence example_env) (TruncateOpsAfter example_env)
    (AppendOperations example_env) (UpdateFollowerWatermarks example_env)
    (UpdateLastIndexAppendedToLeader example_env) (SetLeaderMode example_env)
    (UpdatePeerQuorumIdUnlocked example_env) (StartFollowerTransaction example_env)
    (StartConsensusOnlyRound example_env) (UpdateRaftConfig example_env)
    (fun c => if bool_decide (peers c = [])
              then IllegalState "RaftConfig must have at least one peer" else OK)
    (DiffRaftConfigs example_env) (RegisterSelfVote example_env)
    (MessageReceivedFromLeader example_env) (WaitForLogAppend example_env)
    false false false.

(** Replica "A", just elected leader of term 5 with nothing of that term
    committed, is asked to add the non-voter "D": the change is refused with
    IllegalState and the replica is left as it was. *)
Lemma config_change_refused_before_first_commit_witness :
  exists s, IsIllegalState s = true /\
    BulkChangeConfig example_verifying_env example_apply example_new_leader example_add_peer
    = Some (s, None, example_new_leader, false).
Proof.
  refine (proj1 (proj2 (proj2
            (config_change_refused_before_first_commit example_verifying_env example_apply
               example_new_leader example_add_peer
               (mkChangeRequest None (Some ADD_PEER) (Some (mkPeer "D" NON_VOTER "r1" "")))
               _ eq_refl _)))).
  - by repeat split.
  - intros c Hc. simpl. by rewrite bool_decide_eq_true_2.
Defined.

End ConfigChangeExample.

(** * Regional quorums of the flexible vote counter *)

Section RegionalQuorums.
Import VoteCounter FlexibleVoteCounter.
Variable MajoritySize : Z -> Z.

(** Every region of the voter distribution has its two vote counts, as the
    constructor leaves them. *)
Definition distribution_tracked (c : FlexibleVoteCounter.t) : Prop :=
  Forall (tracked c) (distribution_regions c).

Lemma region_majority_spec c region :
  tracked c region ->
  region_majority MajoritySize c region
  = Some (has_yes_majority MajoritySize c region,
          negb (majority_out_of_reach MajoritySize c region)).
Proof.
  intros Ht. pose proof (IsMajoritySatisfiedInRegion_spec MajoritySize c region Ht) as H.
  unfold IsMajoritySatisfiedInRegion, IsMajoritySatisfiedInRegions in H. simpl in H.
  destruct (region_majority MajoritySize c region) as [r |]; simpl in H; [| done].
  by injection H as ->.
Qed.

Lemma IsMajoritySatisfiedInRegions_spec c regions :
  regions <> [] -> Forall (tracked c) regions ->
  IsMajoritySatisfiedInRegions MajoritySize c regions
  = Some (map (fun r => (has_yes_majority MajoritySize c r,
                         negb (majority_out_of_reach MajoritySize c r))) regions).
Proof.
  intros Hne Ht. unfold IsMajoritySatisfiedInRegions.
  destruct regions as [| r0 rest]; [done |]. clear Hne.
  apply mapM_Some. revert Ht. generalize (r0 :: rest). clear.
  induction 1 as [| r l Hr Hl IH]; simpl; constructor; [| exact IH].
  by apply region_majority_spec.
Qed.

Lemma all_regions_fold (f g : string -> bool) l : forall a b,
  foldl (fun acc result => (acc.1 && result.1, acc.2 && result.2)) (a, b)
        (map (fun r => (f r, g r)) l)
  = (a && forallb f l, b && forallb g l).
Proof.
  induction l as [| r l IH]; intros a b; simpl; [by rewrite !andb_true_r |].
  rewrite IH. simpl. by rewrite !andb_assoc.
Qed.

Lemma all_regions_result c regions :
  regions <> [] -> Forall (tracked c) regions ->
  IsMajoritySatisfiedInAllRegions MajoritySize c regions
  = Some (forallb (has_yes_majority MajoritySize c) regions,
          forallb (fun r => negb (majority_out_of_reach MajoritySize c r)) regions).
Proof.
  intros Hne Ht. unfold IsMajoritySatisfiedInAllRegions.
  rewrite (IsMajoritySatisfiedInRegions_spec c regions Hne Ht). simpl.
  by rewrite all_regions_fold.
Qed.

Lemma all_yes_iff c (regions : list string) :
  forallb (has_yes_majority MajoritySize c) regions = true <->
  forall r, r ∈ regions -> has_yes_majority MajoritySize c r = true.
Proof.
  rewrite forallb_forall. split; intros H r Hr; apply H; by apply list_elem_of_In.
Qed.

Lemma some_out_of_reach_iff c (regions : list string) :
  forallb (fun r => negb (majority_out_of_reach MajoritySize c r)) regions = false <->
  exists r, r ∈ regions /\ majority_out_of_reach MajoritySize c r = true.
Proof.
  split.
  - intros H. apply not_true_iff_false in H.
    rewrite forallb_forall in H.
    destruct (decide (Exists (fun r => majority_out_of_reach MajoritySize c r = true)
                        regions)) as [He | He].
    + apply Exists_exists in He as (r & Hr & Ho). by exists r.
    + exfalso. apply H. intros r Hr. apply negb_true_iff.
      apply not_true_is_false. intros Ho. apply He, Exists_exists.
      exists r. split; [by apply list_elem_of_In | done].
  - intros (r & Hr & Ho). apply not_true_iff_false. rewrite forallb_forall.
    intros H. specialize (H r (proj1 (list_elem_of_In _ _) Hr)).
    rewrite Ho in H. discriminate.
Qed.

Lemma all_yes_within_reach c (regions : list string) :
  forallb (has_yes_majority MajoritySize c) regions = true ->
  forallb (fun r => negb (majority_out_of_reach MajoritySize c r)) regions = true.
Proof.
  intros Hq. apply not_false_iff_true. intros Hf.
  apply some_out_of_reach_iff in Hf as (r & Hr & Ho).
  rewrite (majority_excludes_out_of_reach MajoritySize c r) in Ho; [done |].
  by apply (proj1 (all_yes_iff c regions) Hq).
Qed.

(** [IsMajoritySatisfiedInAllRegions] aborts on an empty set of regions; on
    tracked regions it reports the quorum satisfied exactly when every region
    has a yes majority, and out of reach exactly when a majority is out of
    reach in some region; a satisfied quorum is never reported out of
    reach. *)
Theorem IsMajoritySatisfiedInAllRegions_spec (c : FlexibleVoteCounter.t)
    (regions : list string) :
  IsMajoritySatisfiedInAllRegions MajoritySize c [] = None /\
  (regions <> [] -> Forall (tracked c) regions ->
   exists qs qp,
     IsMajoritySatisfiedInAllRegions MajoritySize c regions = Some (qs, qp) /\
     (qs = true <-> forall r, r ∈ regions -> has_yes_majority MajoritySize c r = true) /\
     (qp = false <->
      exists r, r ∈ regions /\ majority_out_of_reach MajoritySize c r = true) /\
     (qs = true -> qp = true)).
Proof.
  split; [reflexivity |]. intros Hne Ht.
  rewrite (all_regions_result c regions Hne Ht).
  eexists _, _. split; [reflexivity |].
  split; [apply all_yes_iff |]. split; [apply some_out_of_reach_iff |].
  apply all_yes_within_reach.
Qed.

Lemma count_results (f g : string -> bool) l :
  Z.of_nat (length (filter (fun r : bool * bool => r.1 = true)
                      (map (fun r => (f r, negb (g r))) l))) = count_where f l /\
  Z.of_nat (length (filter (fun r : bool * bool => r.2 = true)
                      (map (fun r => (f r, negb (g r))) l)))
  = Z.of_nat (length l) - count_where g l.
Proof.
  induction l as [| r l [IH1 IH2]]; [unfold count_where; simpl; lia |].
  rewrite !count_where_cons. simpl map. rewrite !filter_cons. simpl.
  split.
  - destruct (f r); case_decide; try done; simpl length; lia.
  - destruct (g r); case_decide; try done; simpl length; lia.
Qed.

Lemma count_where_all (f : string -> bool) l :
  (forall r, r ∈ l -> f r = true) -> count_where f l = Z.of_nat (length l).
Proof.
  induction l as [| r l IH]; intros H; [reflexivity |].
  rewrite count_where_cons, IH, (H r) by set_solver. simpl length. lia.
Qed.

Lemma majority_of_regions_result c :
  distribution_tracked c -> distribution_regions c <> [] ->
  let regions := distribution_regions c in
  let n := Z.of_nat (length regions) in
  IsMajoritySatisfiedInMajorityOfRegions MajoritySize c
  = Some (MajoritySize n <=? count_where (has_yes_majority MajoritySize c) regions,
          MajoritySize n <=? n - count_where (majority_out_of_reach MajoritySize c) regions).
Proof.
  intros Ht Hne regions n. unfold IsMajoritySatisfiedInMajorityOfRegions.
  fold regions. rewrite (IsMajoritySatisfiedInRegions_spec c regions Hne Ht). simpl.
  by destruct (count_results (has_yes_majority MajoritySize c)
                 (majority_out_of_reach MajoritySize c) regions) as [-> ->].
Qed.

(** [IsMajoritySatisfiedInMajorityOfRegions] over the [n] regions of a
    non-empty, tracked voter distribution: satisfied exactly when at least
    [MajoritySize n] regions have a yes majority, still possible exactly when
    at least that many regions are left within reach; satisfied implies
    possible, and a satisfied pessimistic quorum implies a satisfied majority
    of regions whenever [MajoritySize n <= n]. *)
Theorem IsMajoritySatisfiedInMajorityOfRegions_spec (c : FlexibleVoteCounter.t) :
  distribution_tracked c -> distribution_regions c <> [] ->
  let regions := distribution_regions c in
  let n := Z.of_nat (length regions) in
  exists ps pp ms mp,
    IsPessimisticQuorumSatisfied MajoritySize c = Some (ps, pp) /\
    IsMajoritySatisfiedInMajorityOfRegions MajoritySize c = Some (ms, mp) /\
    (ms = true <->
     MajoritySize n <= count_where (has_yes_majority MajoritySize c) regions) /\
    (mp = true <->
     MajoritySize n <= n - count_where (majority_out_of_reach MajoritySize c) regions) /\
    (ms = true -> mp = true) /\
    (MajoritySize n <= n -> ps = true -> ms = true).
Proof.
  intros Ht Hne regions n.
  unfold IsPessimisticQuorumSatisfied. fold regions.
  rewrite (all_regions_result c regions Hne Ht), (majority_of_regions_result c Ht Hne).
  fold regions n. eexists _, _, _, _. split; [reflexivity |]. split; [reflexivity |].
  pose proof (counts_disjoint MajoritySize c regions) as Hd. fold n in Hd.
  rewrite !Z.leb_le. split; [done |]. split; [done |]. split; [lia |].
  intros Hn Hs. rewrite count_where_all; [exact Hn | by apply (proj1 (all_yes_iff c regions))].
Qed.

Lemma AreMajoritiesSatisfied_result (strict include : bool) c
    (leader_regions : list string) (candidate_region : string) :
  leader_regions <> [] -> Forall (tracked c) leader_regions ->
  (strict = true -> distribution_tracked c /\ distribution_regions c <> []) ->
  (include = true -> candidate_region ∉ leader_regions -> tracked c candidate_region) ->
  let n := Z.of_nat (length (distribution_regions c)) in
  let yes := has_yes_majority MajoritySize c in
  let out := majority_out_of_reach MajoritySize c in
  let extra := include && negb (bool_decide (candidate_region ∈ leader_regions)) in
  AreMajoritiesSatisfied MajoritySize strict include c leader_regions candidate_region
  = Some (forallb yes leader_regions
          && (if strict
              then MajoritySize n <=? count_where yes (distribution_regions c)
              else true)
          && (if extra then yes candidate_region else true),
          forallb (fun r => negb (out r)) leader_regions
          && (if strict
              then MajoritySize n <=? n - count_where out (distribution_regions c)
              else true)
          && (if extra then negb (out candidate_region) else true)).
Proof.
  intros Hne Ht Hstrict Hcand n yes out extra. unfold AreMajoritiesSatisfied.
  rewrite (all_regions_result c leader_regions Hne Ht). simpl.
  assert (Hmid :
    (if strict
     then majority_result ← IsMajoritySatisfiedInMajorityOfRegions MajoritySize c;
          Some (forallb yes leader_regions && majority_result.1,
                forallb (fun r => negb (out r)) leader_regions && majority_result.2)
     else Some (forallb yes leader_regions,
                forallb (fun r => negb (out r)) leader_regions))
    = Some (forallb yes leader_regions
            && (if strict
                then MajoritySize n <=? count_where yes (distribution_regions c)
                else true),
            forallb (fun r => negb (out r)) leader_regions
            && (if strict
                then MajoritySize n <=? n - count_where out (distribution_regions c)
                else true))).
  { destruct strict; [| by rewrite !andb_true_r].
    destruct (Hstrict eq_refl) as [Hdt Hdn].
    by rewrite (majority_of_regions_result c Hdt Hdn). }
  fold yes out in Hmid |- *. rewrite Hmid. simpl. fold extra.
  destruct extra eqn:Ex; [| by rewrite !andb_true_r].
  unfold extra in Ex. apply andb_true_iff in Ex as [Hi Hn].
  apply negb_true_iff in Hn. apply bool_decide_eq_false in Hn.
  by rewrite (IsMajoritySatisfiedInRegion_spec MajoritySize c candidate_region
                (Hcand Hi Hn)).
Qed.

(** [AreMajoritiesSatisfied] on tracked books: the quorum is reported
    satisfied exactly when every last-known-leader region has a yes majority,
    and, under the strict flag, a majority of all regions have one, and, when
    the candidate's region is to be included and is not among the leader
    regions, that region has one too.  A satisfied quorum is reported as
    possible. *)
Theorem AreMajoritiesSatisfied_spec (strict include : bool) (c : FlexibleVoteCounter.t)
    (leader_regions : list string) (candidate_region : string) :
  leader_regions <> [] -> Forall (tracked c) leader_regions ->
  (strict = true -> distribution_tracked c /\ distribution_regions c <> []) ->
  (include = true -> candidate_region ∉ leader_regions -> tracked c candidate_region) ->
  let n := Z.of_nat (length (distribution_regions c)) in
  exists qs qp,
    AreMajoritiesSatisfied MajoritySize strict include c leader_regions candidate_region
    = Some (qs, qp) /\
    (qs = true <->
     (forall r, r ∈ leader_regions -> has_yes_majority MajoritySize c r = true) /\
     (strict = true ->
      MajoritySize n <= count_where (has_yes_majority MajoritySize c)
                          (distribution_regions c)) /\
     (include = true -> candidate_region ∉ leader_regions ->
      has_yes_majority MajoritySize c candidate_region = true)) /\
    (qs = true -> qp = true).
Proof.
  intros Hne Ht Hstrict Hcand n.
  rewrite (AreMajoritiesSatisfied_result strict include c leader_regions candidate_region
             Hne Ht Hstrict Hcand). fold n.
  eexists _, _. split; [reflexivity |].
  pose proof (all_yes_within_reach c leader_regions) as Hreach.
  pose proof (counts_disjoint MajoritySize c (distribution_regions c)) as Hd. fold n in Hd.
  pose proof (majority_excludes_out_of_reach MajoritySize c candidate_region) as Hx.
  rewrite !andb_true_iff, (all_yes_iff c leader_regions).
  split.
  - destruct strict, include; simpl; try case_bool_decide; simpl;
      rewrite ?Z.leb_le; clear Hstrict Hcand Hreach Hd Hx;
      intuition (try done; try discriminate).
  - intros [[Hy Hs] Hc]. rewrite (Hreach (proj2 (all_yes_iff c leader_regions) Hy)). simpl.
    split; [split; [done |] |].
    + destruct strict; [| done]. apply Z.leb_le. apply Z.leb_le in Hs. lia.
    + destruct (include && _); [| done]. by rewrite (Hx Hc).
Qed.

End RegionalQuorums.

Section RegionalQuorumsExample.
Import VoteCounter FlexibleVoteCounter.

Lemma example_static_counter_distribution_tracked :
  distribution_tracked example_static_counter.
Proof.
  unfold distribution_tracked.
  assert (Hall : forall r, r ∈ distribution_regions example_static_counter ->
                           tracked example_static_counter r).
  { intros r Hr. unfold distribution_regions in Hr.
    apply list_elem_of_fmap in Hr as ([r' n] & -> & Hin).
    apply elem_of_map_to_list in Hin. simpl in *.
    right. repeat split.
    - destruct (decide (r' = "r1")) as [-> |]; [by eexists |].
      destruct (decide (r' = "r2")) as [-> |]; [by eexists |].
      destruct (decide (r' = "r3")) as [-> |]; [by eexists |].
      by rewrite !lookup_insert_ne in Hin.
    - destruct (decide (r' = "r1")) as [-> |]; [by eexists |].
      destruct (decide (r' = "r2")) as [-> |]; [by eexists |].
      destruct (decide (r' = "r3")) as [-> |]; [by eexists |].
      by rewrite !lookup_insert_ne in Hin.
    - by eexists. }
  by apply Forall_forall.
Qed.

Lemma IsMajoritySatisfiedInMajorityOfRegions_spec_witness :
  IsMajoritySatisfiedInMajorityOfRegions MajoritySize_spec example_static_counter
  = Some (true, true).
Proof.
  destruct (IsMajoritySatisfiedInMajorityOfRegions_spec MajoritySize_spec
              example_static_counter example_static_counter_distribution_tracked)
    as (ps & pp & ms & mp & _ & Hm & Hms & Hmp & _).
  - by vm_compute.
  - rewrite Hm. f_equal. f_equal; [apply Hms | apply Hmp]; by vm_compute.
Defined.

Lemma AreMajoritiesSatisfied_spec_witness :
  AreMajoritiesSatisfied MajoritySize_spec true true example_static_counter ["r1"] "r2"
  = Some (true, true).
Proof.
  destruct (AreMajoritiesSatisfied_spec MajoritySize_spec true true example_static_counter
              ["r1"] "r2") as (qs & qp & Hr & Hqs & Hqp).
  - discriminate.
  - apply List.Forall_cons; [right; repeat split; eexists; reflexivity | apply List.Forall_nil].
  - intros _. split; [exact example_static_counter_distribution_tracked | by vm_compute].
  - intros _ _. right; repeat split; eexists; reflexivity.
  - assert (Hs : qs = true).
    { apply Hqs. split; [| split].
      + intros r Hr'. apply list_elem_of_singleton in Hr' as ->. by vm_compute.
      + intros _. by vm_compute.
      + intros _ _. by vm_compute. }
    rewrite Hr, Hs, (Hqp Hs). reflexivity.
Defined.

End RegionalQuorumsExample.

(** * The regional books of the flexible vote counter *)

Section RegionalBooks.
Import VoteCounter FlexibleVoteCounter.

(** A run of the flexible counter: the votes are registered one after the
    other and the counter is kept as each call leaves it, whatever status the
    call reports (as [RecordVoteUnlocked] does). *)
Definition register_all_flexible (c : FlexibleVoteCounter.t)
    (l : list (string * VoteInfo)) : FlexibleVoteCounter.t :=
  fold_left (fun c v => (FlexibleVoteCounter.RegisterVote c v.1 v.2).2) l c.

(** The number of entries of [m] that satisfy [P] and whose key is a voter of
    region [q] according to [ids]. *)
Definition count_in {A} (ids : gmap string string) (P : A -> Prop)
    `{!forall x, Decision (P x)} (m : gmap string A) (q : string) : Z :=
  Z.of_nat (size (filter (fun kv : string * A => P kv.2 /\ ids !! kv.1 = Some q) m)).

(** The distinct voters of region [q] recorded with vote [v]. *)
Definition regional_tally (v : ElectionVote) (c : FlexibleVoteCounter.t) (q : string) : Z :=
  count_in (uuid_to_quorum_id_ c) (fun i => vote i = v) (votes_ (base c)) q.

(** The voters of region [q] with an entry in [uuid_to_last_term_pruned_]. *)
Definition regional_histories (c : FlexibleVoteCounter.t) (q : string) : Z :=
  count_in (uuid_to_quorum_id_ c) (fun _ : Z => True) (uuid_to_last_term_pruned_ c) q.

(** The counter as its constructor leaves it: no vote recorded, every
    regional count zero, no pruned term known. *)
Definition fresh (c : FlexibleVoteCounter.t) : Prop :=
  votes_ (base c) = ∅ /\
  (forall q, FindWithDefault (yes_vote_count_ c) q = 0) /\
  (forall q, FindWithDefault (no_vote_count_ c) q = 0) /\
  uuid_to_last_term_pruned_ c = ∅.

Record books_inv (c : FlexibleVoteCounter.t) : Prop := {
  books_yes : forall q, FindWithDefault (yes_vote_count_ c) q = regional_tally VOTE_GRANTED c q;
  books_no : forall q, FindWithDefault (no_vote_count_ c) q = regional_tally VOTE_DENIED c q;
  books_histories : forall q,
    regional_histories c q
    = FindWithDefault (yes_vote_count_ c) q + FindWithDefault (no_vote_count_ c) q;
  books_recorded : forall u, votes_ (base c) !! u = None ->
                             uuid_to_last_term_pruned_ c !! u = None;
  books_known : forall u, is_Some (uuid_to_last_term_pruned_ c !! u) ->
                          is_Some (uuid_to_quorum_id_ c !! u)
}.

Lemma count_in_empty {A} ids (P : A -> Prop) `{!forall x, Decision (P x)} q :
  count_in ids P ∅ q = 0.
Proof. unfold count_in. by rewrite map_filter_empty, map_size_empty. Qed.

Lemma count_in_insert {A} ids (P : A -> Prop) `{!forall x, Decision (P x)}
    (m : gmap string A) k x q :
  m !! k = None ->
  count_in ids P (<[k := x]> m) q
  = count_in ids P m q + (if decide (P x /\ ids !! k = Some q) then 1 else 0).
Proof.
  intros Hk. unfold count_in. case_decide as Hp.
  - rewrite map_filter_insert_True by done.
    rewrite map_size_insert_None; [lia |].
    apply map_lookup_filter_None_2. by left.
  - rewrite map_filter_insert_not'; [lia | done |].
    intros y Hy. congruence.
Qed.

Lemma FindWithDefault_bump m k q :
  FindWithDefault (bump m k) q
  = FindWithDefault m q + (if decide (k = q) then 1 else 0).
Proof.
  unfold FindWithDefault, bump.
  destruct (m !! k) as [n |] eqn:Hk; case_decide as Hq; subst.
  - rewrite lookup_insert_eq, Hk. lia.
  - rewrite lookup_insert_ne by done. lia.
  - rewrite lookup_insert_eq, Hk. lia.
  - rewrite lookup_insert_ne by done. lia.
Qed.

Lemma fresh_inv c : fresh c -> books_inv c.
Proof.
  intros (Hv & Hy & Hn & Hp). constructor.
  - intros q. unfold regional_tally. by rewrite Hy, Hv, count_in_empty.
  - intros q. unfold regional_tally. by rewrite Hn, Hv, count_in_empty.
  - intros q. unfold regional_histories. by rewrite Hy, Hn, Hp, count_in_empty.
  - intros u _. by rewrite Hp.
  - intros u [x Hx]. by rewrite Hp in Hx.
Qed.

(** What the base call does to the record of votes: it either leaves the
    counter alone (a refusal or a duplicate), or records a new voter. *)
Lemma base_RegisterVote_cases c u i :
  let r := VoteCounter.RegisterVote c u i in
  (rv_counter r = c /\ (ok (rv_status r) = false \/ rv_is_duplicate r = Some true)) \/
  (votes_ c !! u = None /\ rv_status r = OK /\ rv_is_duplicate r = Some false /\
   votes_ (rv_counter r) = <[u := i]> (votes_ c)).
Proof.
  unfold VoteCounter.RegisterVote.
  destruct (votes_ c !! u) as [prior |] eqn:Hu.
  - destruct (negb _); simpl; left; split; auto.
  - destruct (_ =? _); [left; split; auto |].
    destruct (vote i); right; simpl; auto.
Qed.

Lemma same_books_inv c b' :
  books_inv c ->
  votes_ b' = votes_ (base c) ->
  books_inv (FlexibleVoteCounter.mk b' (commit_rule c) (voter_distribution_ c)
               (yes_vote_count_ c) (no_vote_count_ c) (uuid_to_quorum_id_ c)
               (uuid_to_last_term_pruned_ c)).
Proof.
  intros [Hy Hn Hh Hr Hk] Hb. constructor; unfold regional_tally, regional_histories in *;
    simpl; rewrite ?Hb; auto.
Qed.

Lemma RegisterVote_books c u i :
  books_inv c ->
  let c' := (FlexibleVoteCounter.RegisterVote c u i).2 in
  books_inv c' /\
  uuid_to_quorum_id_ c' = uuid_to_quorum_id_ c /\
  voter_distribution_ c' = voter_distribution_ c /\
  commit_rule c' = commit_rule c.
Proof.
  intros Hinv. unfold FlexibleVoteCounter.RegisterVote.
  destruct (base_RegisterVote_cases (base c) u i) as [[Hc Hs] | (Hu & Hs & Hd & Hv)].
  - assert (Hsame : books_inv
              (FlexibleVoteCounter.mk (rv_counter (VoteCounter.RegisterVote (base c) u i))
                 (commit_rule c) (voter_distribution_ c) (yes_vote_count_ c)
                 (no_vote_count_ c) (uuid_to_quorum_id_ c) (uuid_to_last_term_pruned_ c)))
      by (apply same_books_inv; [done | by rewrite Hc]).
    destruct Hs as [Hs | Hs]; [by rewrite Hs |].
    destruct (negb _); [done |]. rewrite Hs.
    by rewrite bool_decide_eq_true_2.
  - rewrite Hs, Hd. simpl.
    destruct Hinv as [Hy Hn Hh Hr Hk].
    pose proof (Hr u Hu) as Hpu.
    destruct (uuid_to_quorum_id_ c !! u) as [q0 |] eqn:Hq.
    + assert (Hrec : forall u', <[u := i]> (votes_ (base c)) !! u' = None ->
                <[u := last_pruned_term i]> (uuid_to_last_term_pruned_ c) !! u' = None).
      { intros u' Hu'. apply lookup_insert_None in Hu' as [Hu' Hne].
        rewrite lookup_insert_ne by done. auto. }
      assert (Hkn : forall u',
                is_Some (<[u := last_pruned_term i]> (uuid_to_last_term_pruned_ c) !! u') ->
                is_Some (uuid_to_quorum_id_ c !! u')).
      { intros u' Hu'. destruct (decide (u = u')) as [<- |]; [by rewrite Hq |].
        rewrite lookup_insert_ne in Hu' by done. auto. }
      destruct (vote i) eqn:Evote; simpl; (split; [| done]);
        constructor; unfold regional_tally, regional_histories in *; simpl;
        rewrite ?Hv; try assumption.
      all: intros q; rewrite ?FindWithDefault_bump, ?count_in_insert by done;
        specialize (Hy q); specialize (Hn q); specialize (Hh q);
        repeat case_decide; try lia; exfalso; intuition congruence.
    + simpl. split; [| done].
      constructor; unfold regional_tally, regional_histories in *; simpl;
        rewrite ?Hv; try assumption.
      * intros q. rewrite count_in_insert by done. specialize (Hy q).
        case_decide; [exfalso; intuition congruence | lia].
      * intros q. rewrite count_in_insert by done. specialize (Hn q).
        case_decide; [exfalso; intuition congruence | lia].
      * intros u' Hu'. apply lookup_insert_None in Hu' as [Hu' Hne]. auto.
Qed.

Lemma register_all_flexible_books l : forall c,
  books_inv c ->
  let c' := register_all_flexible c l in
  books_inv c' /\
  uuid_to_quorum_id_ c' = uuid_to_quorum_id_ c /\
  voter_distribution_ c' = voter_distribution_ c /\
  commit_rule c' = commit_rule c.
Proof.
  induction l as [| [u i] l IH]; intros c Hc; [done |].
  destruct (RegisterVote_books c u i Hc) as (H1 & H2 & H3 & H4).
  destruct (IH _ H1) as (K1 & K2 & K3 & K4).
  unfold register_all_flexible in *. simpl.
  split; [exact K1 |]. split; [congruence |]. split; congruence.
Qed.

Lemma size_filter_map_to_list {A} (P : string * A -> Prop) `{!forall x, Decision (P x)}
    (m : gmap string A) :
  size (filter P m) = length (filter P (map_to_list m)).
Proof.
  rewrite map_filter_alt. apply map_size_list_to_map.
  assert (Hsub : sublist (filter P (map_to_list m)) (map_to_list m))
    by apply sublist_filter.
  exact (sublist_NoDup _ _ (NoDup_fst_map_to_list m) (fmap_sublist fst _ _ Hsub)).
Qed.

Lemma count_by_region_spec c counted entries : forall m,
  (forall e, e ∈ entries -> is_Some (uuid_to_quorum_id_ c !! e.1)) ->
  exists m', count_by_region c counted entries m = Some m' /\
    forall q, FindWithDefault m' q
              = FindWithDefault m q
                + Z.of_nat (length (filter (fun e : string * Z =>
                     counted e.2 = true /\ uuid_to_quorum_id_ c !! e.1 = Some q) entries)).
Proof.
  induction entries as [| [uuid lpt] rest IH]; intros m Hk.
  - exists m. split; [done |]. intros q. simpl. lia.
  - assert (Hrest : forall e, e ∈ rest -> is_Some (uuid_to_quorum_id_ c !! e.1))
      by (intros e He; apply Hk; by right).
    destruct (Hk (uuid, lpt)) as [region Hr]; [by left |]. simpl in Hr.
    simpl. destruct (counted lpt) eqn:Ec.
    + rewrite Hr. destruct (IH (bump m region) Hrest) as (m' & Hm' & Hq).
      exists m'. split; [done |]. intros q. rewrite Hq, FindWithDefault_bump.
      rewrite filter_cons. simpl.
      repeat case_decide; simpl length; try lia; exfalso; intuition congruence.
    + destruct (IH m Hrest) as (m' & Hm' & Hq).
      exists m'. split; [done |]. intros q. rewrite Hq.
      rewrite filter_cons. simpl.
      case_decide; simpl length; try lia; exfalso; intuition congruence.
Qed.

Lemma length_filter_split {X} (P1 P2 P3 : X -> Prop)
    `{!forall x, Decision (P1 x)} `{!forall x, Decision (P2 x)}
    `{!forall x, Decision (P3 x)} (l : list X) :
  (forall x, (P1 x /\ ~ P2 x /\ P3 x) \/ (~ P1 x /\ P2 x /\ P3 x)
             \/ (~ P1 x /\ ~ P2 x /\ ~ P3 x)) ->
  (length (filter P1 l) + length (filter P2 l) = length (filter P3 l))%nat.
Proof.
  intros Hx. induction l as [| x l IH]; [done |].
  rewrite !filter_cons. specialize (Hx x).
  repeat case_decide; simpl length; try lia; exfalso; tauto.
Qed.

Lemma pruned_unpruned_split (ids : gmap string string) (term : Z) (q : string)
    (entries : list (string * Z)) :
  Z.of_nat (length (filter (fun e : string * Z =>
              (term <? e.2) = true /\ ids !! e.1 = Some q) entries))
  + Z.of_nat (length (filter (fun e : string * Z =>
              (e.2 <=? term) = true /\ ids !! e.1 = Some q) entries))
  = Z.of_nat (length (filter (fun e : string * Z => True /\ ids !! e.1 = Some q) entries)).
Proof.
  rewrite <- Nat2Z.inj_add. f_equal. apply length_filter_split.
  intros [u lpt]. simpl.
  destruct (Z.ltb_spec term lpt), (Z.leb_spec lpt term); try lia;
    destruct (decide (ids !! u = Some q)); intuition congruence.
Qed.

Lemma FindWithDefault_empty q : FindWithDefault ∅ q = 0.
Proof. unfold FindWithDefault. by rewrite lookup_empty. Qed.

(** The regional books after any run of [RegisterVote] on a fresh counter:
    the yes (no) count of every region is the number of distinct voters of
    that region recorded with a granted (denied) vote; the topology maps are
    never touched. *)
Theorem RegisterVote_regional_books (c : FlexibleVoteCounter.t)
    (l : list (string * VoteInfo)) (q : string) :
  fresh c ->
  let c' := register_all_flexible c l in
  FindWithDefault (yes_vote_count_ c') q = regional_tally VOTE_GRANTED c' q /\
  FindWithDefault (no_vote_count_ c') q = regional_tally VOTE_DENIED c' q /\
  uuid_to_quorum_id_ c' = uuid_to_quorum_id_ c /\
  voter_distribution_ c' = voter_distribution_ c.
Proof.
  intros Hf c'.
  destruct (register_all_flexible_books l c (fresh_inv c Hf)) as ([Hy Hn _ _ _] & Hi & Hd & _).
  fold c' in Hy, Hn, Hi, Hd. auto.
Qed.

(** After any run of [RegisterVote] on a fresh counter, and for every term,
    [FetchRegionalPrunedCounts] and [FetchRegionalUnprunedCounts] both return
    (no lookup of a voter's region fails), and in every region the pruned
    and the unpruned count add up to the votes counted for that region. *)
Theorem regional_pruned_counts_partition (c : FlexibleVoteCounter.t)
    (l : list (string * VoteInfo)) (term : Z) :
  fresh c ->
  let c' := register_all_flexible c l in
  exists pruned unpruned,
    FetchRegionalPrunedCounts c' term = Some pruned /\
    FetchRegionalUnprunedCounts c' term = Some unpruned /\
    forall q, FindWithDefault pruned q + FindWithDefault unpruned q
              = FindWithDefault (yes_vote_count_ c') q
                + FindWithDefault (no_vote_count_ c') q.
Proof.
  intros Hf c'.
  destruct (register_all_flexible_books l c (fresh_inv c Hf)) as ([_ _ Hh _ Hk] & _).
  fold c' in Hh, Hk.
  assert (Hkeys : forall e, e ∈ map_to_list (uuid_to_last_term_pruned_ c') ->
                            is_Some (uuid_to_quorum_id_ c' !! e.1)).
  { intros [u t] He. apply elem_of_map_to_list in He. apply Hk. by exists t. }
  unfold FetchRegionalPrunedCounts, FetchRegionalUnprunedCounts.
  destruct (count_by_region_spec c' (fun lpt => term <? lpt) _ ∅ Hkeys) as (p & Hp & Hpq).
  destruct (count_by_region_spec c' (fun lpt => lpt <=? term) _ ∅ Hkeys) as (u & Hu & Huq).
  exists p, u. split; [done |]. split; [done |].
  intros q. rewrite Hpq, Huq, !FindWithDefault_empty, <- Hh.
  unfold regional_histories, count_in. rewrite size_filter_map_to_list.
  pose proof (pruned_unpruned_split (uuid_to_quorum_id_ c') term q
                (map_to_list (uuid_to_last_term_pruned_ c'))). lia.
Qed.

(** A first vote from a voter that the configuration does not know is
    refused with InvalidArgument, yet the base counter has already recorded
    and counted it: the regional books and the pruned terms stay as they
    were, and the same vote sent again is answered OK as a duplicate. *)
Theorem RegisterVote_unknown_voter (c : FlexibleVoteCounter.t) (voter_uuid : string)
    (vote_info : VoteInfo) :
  votes_ (base c) !! voter_uuid = None ->
  uuid_to_quorum_id_ c !! voter_uuid = None ->
  GetTotalVotesCounted (base c) <> GetTotalExpectedVotes (base c) ->
  exists s c',
    FlexibleVoteCounter.RegisterVote c voter_uuid vote_info = (s, Some false, c') /\
    IsInvalidArgument s = true /\
    votes_ (base c') !! voter_uuid = Some vote_info /\
    GetTotalVotesCounted (base c') = GetTotalVotesCounted (base c) + 1 /\
    yes_vote_count_ c' = yes_vote_count_ c /\
    no_vote_count_ c' = no_vote_count_ c /\
    uuid_to_last_term_pruned_ c' = uuid_to_last_term_pruned_ c /\
    FlexibleVoteCounter.RegisterVote c' voter_uuid vote_info = (OK, Some true, c').
Proof.
  intros Hv Hq Hfull.
  unfold GetTotalVotesCounted, GetTotalExpectedVotes in *.
  apply Z.eqb_neq in Hfull.
  unfold FlexibleVoteCounter.RegisterVote at 1. unfold VoteCounter.RegisterVote.
  rewrite Hv, Hfull, Hq.
  destruct (vote vote_info) eqn:Ev; simpl; eexists _, _; (split; [reflexivity |]); simpl;
    rewrite lookup_insert_eq; repeat (split; [done || lia |]);
    unfold FlexibleVoteCounter.RegisterVote, VoteCounter.RegisterVote; simpl;
    rewrite lookup_insert_eq, Ev; simpl; done.
Qed.

(** [ExtendNextLeaderRegions] only ever adds to the set.  It returns OK
    exactly when every voter in the list has a non-empty quorum id, and the
    set is then the given one extended by exactly these quorum ids; otherwise
    it returns IllegalState. *)
Theorem ExtendNextLeaderRegions_spec (c : FlexibleVoteCounter.t)
    (next_leader_uuids : list string) (next_leader_quorum_ids : gset string) :
  let r := ExtendNextLeaderRegions c next_leader_uuids next_leader_quorum_ids in
  next_leader_quorum_ids ⊆ r.2 /\
  (r.1 = OK <-> forall u, u ∈ next_leader_uuids -> DetermineQuorumIdForUUID c u <> "") /\
  (r.1 = OK ->
   forall q, q ∈ r.2 <->
             q ∈ next_leader_quorum_ids \/
             exists u, u ∈ next_leader_uuids /\ DetermineQuorumIdForUUID c u = q) /\
  (r.1 <> OK -> r.1 = IllegalState msg_next_leader_not_in_config).
Proof.
  revert next_leader_quorum_ids.
  induction next_leader_uuids as [| u rest IH]; intros ids; simpl.
  - split; [done |]. split; [split; [intros _ u Hu; by apply elem_of_nil in Hu | done] |].
    split; [| done]. intros _ q. split; [by left |].
    intros [Hq | (u & Hu & _)]; [done | by apply elem_of_nil in Hu].
  - case_bool_decide as He; simpl.
    + split; [done |]. split; [split; [done |] |].
      * intros Hall. exfalso. apply (Hall u); [by left | done].
      * split; [done | done].
    + destruct (IH ({[DetermineQuorumIdForUUID c u]} ∪ ids)) as (Hsub & Hok & Hset & Herr).
      split; [intros x Hx; apply Hsub, elem_of_union; by right |].
      split; [| split; [| done]].
      * rewrite Hok. split.
        -- intros Hall u' Hu'. apply elem_of_cons in Hu' as [-> | Hu']; auto.
        -- intros Hall u' Hu'. apply Hall. by right.
      * intros Hs q. rewrite (Hset Hs q). split.
        -- intros [Hq | (u' & Hu' & Hq)].
           ++ apply elem_of_union in Hq as [Hq | Hq]; [| by left].
              apply elem_of_singleton in Hq. right. exists u. split; [by left | done].
           ++ right. exists u'. split; [by right | done].
        -- intros [Hq | (u' & Hu' & Hq)]; [left; apply elem_of_union; by right |].
           apply elem_of_cons in Hu' as [-> | Hu'].
           ++ left. apply elem_of_union. left. by apply elem_of_singleton.
           ++ right. by exists u'.
Qed.

End RegionalBooks.

Section RegionalBooksExample.
Import VoteCounter FlexibleVoteCounter.

(** A fresh counter for three voters: "a" and "b" in region r1, "c" in r2. *)
Definition example_fresh_counter : FlexibleVoteCounter.t :=
  FlexibleVoteCounter.mk (VoteCounter.mk 3 false 1 ∅ 0 0)
    (mkCommitRule SINGLE_REGION_DYNAMIC [])
    (<["r1" := 2]> (<["r2" := 1]> ∅))
    (<["r1" := 0]> (<["r2" := 0]> ∅))
    (<["r1" := 0]> (<["r2" := 0]> ∅))
    (<["a" := "r1"]> (<["b" := "r1"]> (<["c" := "r2"]> ∅)))
    ∅.

(** Two known voters and a stranger. *)
Definition example_regional_votes : list (string * VoteInfo) :=
  [("a", mkVoteInfo VOTE_GRANTED false 3); ("b", mkVoteInfo VOTE_DENIED false 7);
   ("z", mkVoteInfo VOTE_GRANTED false 0)].

Lemma example_fresh_counter_fresh : fresh example_fresh_counter.
Proof.
  assert (Hz : forall q, FindWithDefault (<["r1" := 0]> (<["r2" := 0]> ∅)) q = 0).
  { intros q. unfold FindWithDefault.
    destruct (decide (q = "r1")) as [-> |]; [done |]. rewrite lookup_insert_ne by done.
    destruct (decide (q = "r2")) as [-> |]; [done |]. by rewrite lookup_insert_ne. }
  done.
Qed.

Lemma RegisterVote_regional_books_witness :
  FindWithDefault
    (yes_vote_count_ (register_all_flexible example_fresh_counter example_regional_votes))
    "r1"
  = regional_tally VOTE_GRANTED
      (register_all_flexible example_fresh_counter example_regional_votes) "r1".
Proof.
  exact (proj1 (RegisterVote_regional_books example_fresh_counter example_regional_votes
                  "r1" example_fresh_counter_fresh)).
Defined.

Lemma regional_pruned_counts_partition_witness :
  exists pruned unpruned,
    FetchRegionalPrunedCounts
      (register_all_flexible example_fresh_counter example_regional_votes) 5 = Some pruned /\
    FetchRegionalUnprunedCounts
      (register_all_flexible example_fresh_counter example_regional_votes) 5
    = Some unpruned /\
    FindWithDefault pruned "r1" + FindWithDefault unpruned "r1" = 2.
Proof.
  destruct (regional_pruned_counts_partition example_fresh_counter example_regional_votes 5
              example_fresh_counter_fresh) as (p & u & Hp & Hu & Hq).
  exists p, u. split; [exact Hp |]. split; [exact Hu |].
  rewrite (Hq "r1"). by vm_compute.
Defined.

Lemma RegisterVote_unknown_voter_witness :
  exists s c',
    FlexibleVoteCounter.RegisterVote example_fresh_counter "z"
      (mkVoteInfo VOTE_GRANTED false 0) = (s, Some false, c') /\
    IsInvalidArgument s = true /\
    GetTotalVotesCounted (base c') = 1 /\
    yes_vote_count_ c' = yes_vote_count_ example_fresh_counter.
Proof.
  destruct (RegisterVote_unknown_voter example_fresh_counter "z"
              (mkVoteInfo VOTE_GRANTED false 0))
    as (s & c' & Hr & Hs & _ & Hc & Hy & _).
  - reflexivity.
  - reflexivity.
  - by vm_compute.
  - exists s, c'. rewrite Hc. done.
Defined.

End RegionalBooksExample.

(** * Delivery of the election decision *)

Section DecisionDelivery.
Import VoteCounter PB LeaderElection LeaderElectionRun.
Context {C : Type} `{Counter C}.

Lemma RecordVoteUnlocked_keeps (e : LeaderElection.t C) state v :
  has_responded_ (RecordVoteUnlocked e state v) = has_responded_ e /\
  result_ (RecordVoteUnlocked e state v) = result_ e /\
  request_ (RecordVoteUnlocked e state v) = request_ e /\
  voter_state_ (RecordVoteUnlocked e state v) = voter_state_ e /\
  highest_voter_term_ (RecordVoteUnlocked e state v) = highest_voter_term_ e.
Proof.
  unfold RecordVoteUnlocked. destruct (counter_RegisterVote _ _ _) as [[? ?] ?]. done.
Qed.

Lemma HandleHigherTermUnlocked_keeps (e : LeaderElection.t C) state :
  has_responded_ (HandleHigherTermUnlocked e state) = has_responded_ e /\
  (forall r, result_ e = Some r -> result_ (HandleHigherTermUnlocked e state) = Some r) /\
  is_Some (result_ (HandleHigherTermUnlocked e state)) /\
  (forall r, result_ e = None -> result_ (HandleHigherTermUnlocked e state) = Some r ->
             decision r = VOTE_DENIED) /\
  request_ (HandleHigherTermUnlocked e state) = request_ e /\
  vote_counter_ (HandleHigherTermUnlocked e state) = vote_counter_ e /\
  voter_state_ (HandleHigherTermUnlocked e state) = voter_state_ e.
Proof.
  unfold HandleHigherTermUnlocked. destruct (result_ e) as [r0 |] eqn:Hr; simpl.
  - rewrite Hr. repeat split; eauto. intros r Hn. discriminate.
  - repeat split; eauto; try discriminate. intros r _ Hs. by injection Hs as <-.
Qed.

(** What [CheckForDecision] does to the two delivery fields. *)
Lemma CheckForDecision_delivery (e e' : LeaderElection.t C) d :
  CheckForDecision e = Some (e', d) ->
  (forall r, d = Some r ->
     has_responded_ e = false /\ has_responded_ e' = true /\ result_ e' = Some r) /\
  (d = None -> has_responded_ e' = has_responded_ e) /\
  (is_Some (result_ e') -> has_responded_ e' = true) /\
  (forall r, result_ e = Some r -> result_ e' = Some r) /\
  request_ e' = request_ e /\ vote_counter_ e' = vote_counter_ e /\
  voter_state_ e' = voter_state_ e.
Proof.
  unfold CheckForDecision. intros Hc.
  destruct (result_ e) as [r0 |] eqn:Hr; simpl in Hc.
  - rewrite Hr in Hc. destruct (has_responded_ e) eqn:Hh; injection Hc as <- <-; simpl;
      rewrite ?Hr, ?Hh; repeat split; try done; try discriminate;
      try (intros r Hd; by injection Hd as <-).
  - destruct (counter_IsDecided (vote_counter_ e)) as [[] |]; simpl in Hc; [| | done].
    + destruct (counter_GetDecision (vote_counter_ e)) as [[[] [dec |]] |];
        simpl in Hc; try done.
      destruct (has_responded_ e) eqn:Hh; injection Hc as <- <-; simpl;
        rewrite ?Hh; repeat split; try done; try discriminate;
        try (intros r Hd; by injection Hd as <-).
    + rewrite Hr in Hc. injection Hc as <- <-. rewrite Hr.
      repeat split; try done; try discriminate; try (intros [? ?]; discriminate).
Qed.

Lemma rpc_completes_delivery (e e' : LeaderElection.t C) voter_uuid rpc_status_ok resp d :
  rpc_completes e voter_uuid rpc_status_ok resp = Some (e', d) ->
  (forall r, d = Some r ->
     has_responded_ e = false /\ has_responded_ e' = true /\ result_ e' = Some r) /\
  (d = None -> has_responded_ e' = has_responded_ e) /\
  (forall r, result_ e = Some r -> result_ e' = Some r) /\
  request_ e' = request_ e.
Proof.
  unfold rpc_completes, VoteResponseRpcCallback. intros Hc.
  destruct (voter_state_ e !! voter_uuid) as [state |]; simpl in Hc; [| done].
  rewrite lookup_insert_eq in Hc. simpl in Hc.
  match type of Hc with CheckForDecision ?x = _ => remember x as e1 eqn:He1 end.
  assert (Hkeep : has_responded_ e1 = has_responded_ e /\
                  (forall r, result_ e = Some r -> result_ e1 = Some r) /\
                  request_ e1 = request_ e).
  { subst e1. unfold HandleVoteGrantedUnlocked, HandleVoteDeniedUnlocked.
    repeat match goal with
           | |- context [if ?b then _ else _] => destruct b
           end;
      repeat match goal with
             | |- context [RecordVoteUnlocked ?a ?b ?c] =>
                 destruct (RecordVoteUnlocked_keeps a b c) as (-> & -> & -> & _ & _)
             | |- context [HandleHigherTermUnlocked ?a ?b] =>
                 let K := fresh in
                 destruct (HandleHigherTermUnlocked_keeps a b) as (-> & K & _ & _ & -> & _)
             end; simpl; auto. }
  destruct Hkeep as (Hh & Hres & Hreq).
  destruct (CheckForDecision_delivery _ _ _ Hc) as (Hd & Hn & _ & Hk & Hq & _).
  rewrite Hh in Hd, Hn. rewrite Hreq in Hq.
  split; [exact Hd |]. split; [exact Hn |]. split; [| exact Hq].
  intros r Hr. apply Hk, Hres, Hr.
Qed.

Lemma handle_responses_delivery (e e' : LeaderElection.t C)
    (responses : list (string * bool * VoteResponsePB)) (ds : list ElectionResult) :
  handle_responses e responses = Some (e', ds) ->
  (length ds <= 1)%nat /\
  (forall r, r ∈ ds -> result_ e' = Some r /\ has_responded_ e' = true) /\
  (has_responded_ e = true -> ds = [] /\ has_responded_ e' = true) /\
  (forall r, result_ e = Some r -> result_ e' = Some r).
Proof.
  revert e e' ds. induction responses as [| [[u ok] resp] rest IH]; intros e e' ds Hrun.
  - simpl in Hrun. injection Hrun as <- <-.
    split; [simpl; lia |]. split; [intros r Hr; by apply elem_of_nil in Hr |].
    split; [by auto | by auto].
  - simpl in Hrun.
    destruct (rpc_completes e u ok resp) as [[e1 d] |] eqn:Hstep; simpl in Hrun; [| done].
    destruct (handle_responses e1 rest) as [[e2 ds2] |] eqn:Hrest; simpl in Hrun; [| done].
    injection Hrun as <- <-.
    destruct (rpc_completes_delivery _ _ _ _ _ _ Hstep) as (Hd & Hn & Hk & _).
    destruct (IH _ _ _ Hrest) as (Hlen & Hin & Hresp & Hkeep).
    destruct d as [r0 |]; simpl.
    + destruct (Hd r0 eq_refl) as (Hf & Ht & Hr0).
      destruct (Hresp Ht) as [-> Ht2]. simpl.
      split; [lia |]. split; [| split; [| by auto]].
      * intros r Hr. apply list_elem_of_singleton in Hr as ->. auto.
      * intros Habs. congruence.
    + rewrite (Hn eq_refl) in Hresp.
      split; [exact Hlen |]. split; [exact Hin |]. split; [exact Hresp | by auto].
Qed.

(** Whatever responses arrive, in whatever order and however often, the
    decision callback is invoked at most once; a result it was invoked with
    is the election's final result; an election that has already responded
    never responds again; and a result, once set, is never replaced. *)
Theorem decision_callback_at_most_once (e e' : LeaderElection.t C)
    (responses : list (string * bool * VoteResponsePB)) (ds : list ElectionResult) :
  handle_responses e responses = Some (e', ds) ->
  (length ds <= 1)%nat /\
  (forall r, r ∈ ds -> result_ e' = Some r /\ has_responded_ e' = true) /\
  (has_responded_ e = true -> ds = [] /\ has_responded_ e' = true) /\
  (forall r, result_ e = Some r -> result_ e' = Some r).
Proof. apply handle_responses_delivery. Qed.

End DecisionDelivery.

(** * Elections over the classic vote counter *)

Section ClassicElection.
Import VoteCounter PB LeaderElection LeaderElectionRun.

(** The voters in [pending] are still to be heard from: each has a voter
    state under its own uuid, and, as long as no result is set, none of them
    is in the record of votes, the votes counted and the pending ones add up
    to the expected total, and the counter is undecided.  The callback has
    run exactly when a result is set. *)
Record awaiting (e : LeaderElection.t VoteCounter.t) (pending : gset string) : Prop := {
  aw_uuid : forall u st, voter_state_ e !! u = Some st -> peer_uuid st = u;
  aw_known : forall u, u ∈ pending -> is_Some (voter_state_ e !! u);
  aw_responded : has_responded_ e = true <-> is_Some (result_ e);
  aw_open : result_ e = None ->
            GetTotalVotesCounted (vote_counter_ e) + Z.of_nat (size pending)
            = num_voters_ (vote_counter_ e) /\
            (forall u, u ∈ pending -> votes_ (vote_counter_ e) !! u = None) /\
            VoteCounter.IsDecided (vote_counter_ e) = false
}.

(** One invocation of the decision callback, or none. *)
Definition delivered (e e' : LeaderElection.t VoteCounter.t) (d : option ElectionResult) : Prop :=
  (d = None /\ has_responded_ e' = has_responded_ e) \/
  (exists r, d = Some r /\ has_responded_ e = false /\ has_responded_ e' = true /\
             result_ e' = Some r).

(** The voters whose response, as handled by [VoteResponseRpcCallback], is a
    granted vote: the call succeeded, the response carries no error, it comes
    from the voter it was sent to and it grants the vote. *)
Definition is_grant (r : string * bool * VoteResponsePB) : bool :=
  r.1.2 && negb (has_error r.2) && bool_decide (r.1.1 = responder_uuid r.2)
  && vote_granted r.2.

Definition granting (responses : list (string * bool * VoteResponsePB)) : gset string :=
  list_to_set (map (fun r => r.1.1) (filter (fun r => is_grant r = true) responses)).

(** The voters recorded with a granted vote. *)
Definition granted_voters (c : VoteCounter.t) : gset string :=
  dom (filter (fun kv : string * VoteInfo => vote kv.2 = VOTE_GRANTED) (votes_ c)).

(** The invariant behind a won election: the recorded grants all come from
    [G], and a granted result rests on a majority of recorded grants. *)
Record grants_within (e : LeaderElection.t VoteCounter.t) (G : gset string) : Prop := {
  gw_inv : counter_inv (vote_counter_ e);
  gw_uuid : forall u st, voter_state_ e !! u = Some st -> peer_uuid st = u;
  gw_granted : granted_voters (vote_counter_ e) ⊆ G;
  gw_result : forall r, result_ e = Some r -> decision r = VOTE_GRANTED ->
                        majority_size_ (vote_counter_ e) <= yes_votes_ (vote_counter_ e)
}.

Lemma classic_all_in_decided c :
  GetTotalVotesCounted c = num_voters_ c -> VoteCounter.IsDecided c = true.
Proof.
  unfold VoteCounter.IsDecided, GetTotalVotesCounted. intros Hall.
  apply orb_true_iff.
  destruct (Z.leb_spec (majority_size_ c) (yes_votes_ c)); [by left |].
  right. apply Z.ltb_lt. lia.
Qed.

Lemma classic_CheckForDecision (e : LeaderElection.t VoteCounter.t) :
  exists e' d, CheckForDecision e = Some (e', d) /\
    (result_ e' = None ->
     result_ e = None /\ VoteCounter.IsDecided (vote_counter_ e) = false) /\
    (forall r, result_ e = None -> result_ e' = Some r -> decision r = VOTE_GRANTED ->
       majority_size_ (vote_counter_ e) <= yes_votes_ (vote_counter_ e)).
Proof.
  unfold CheckForDecision. destruct (result_ e) as [r0 |] eqn:Hr; simpl.
  - rewrite Hr. destruct (has_responded_ e); eexists _, _; (split; [reflexivity |]);
      simpl; rewrite Hr; split; done.
  - destruct (VoteCounter.IsDecided (vote_counter_ e)) eqn:Hd; simpl.
    + unfold VoteCounter.IsDecided in Hd. unfold VoteCounter.GetDecision.
      destruct (Z.leb_spec (majority_size_ (vote_counter_ e)) (yes_votes_ (vote_counter_ e)))
        as [Hy | Hy]; simpl in *.
      * destruct (has_responded_ e); eexists _, _; (split; [reflexivity |]); simpl;
          split; done.
      * rewrite Hd. simpl.
        destruct (has_responded_ e); eexists _, _; (split; [reflexivity |]); simpl;
          (split; [done |]); intros r _ Hs; injection Hs as <-; done.
    + rewrite Hr. eexists _, _. split; [reflexivity |]. rewrite Hr. split; done.
Qed.

Lemma RecordVoteUnlocked_classic (e : LeaderElection.t VoteCounter.t) state v :
  exists i, vote i = v /\
    vote_counter_ (RecordVoteUnlocked e state v)
    = rv_counter (VoteCounter.RegisterVote (vote_counter_ e) (peer_uuid state) i).
Proof. unfold RecordVoteUnlocked. simpl. eexists. split; [| reflexivity]. done. Qed.

Lemma RegisterVote_new c u i :
  votes_ c !! u = None -> GetTotalVotesCounted c <> num_voters_ c ->
  let c' := rv_counter (VoteCounter.RegisterVote c u i) in
  GetTotalVotesCounted c' = GetTotalVotesCounted c + 1 /\
  num_voters_ c' = num_voters_ c /\
  votes_ c' = <[u := i]> (votes_ c).
Proof.
  intros Hu Hn. unfold GetTotalVotesCounted in *. apply Z.eqb_neq in Hn.
  unfold VoteCounter.RegisterVote. rewrite Hu, Hn.
  destruct (vote i); simpl; repeat split; lia.
Qed.

(** The common end of every way a pending voter is dealt with: its vote has
    been registered, or a result has been set, and the decision is checked. *)
Lemma voter_handled (e e1 : LeaderElection.t VoteCounter.t) pending u :
  awaiting e pending -> u ∈ pending ->
  has_responded_ e1 = has_responded_ e ->
  (forall u' st, voter_state_ e1 !! u' = Some st -> peer_uuid st = u') ->
  (forall u', u' ∈ pending -> is_Some (voter_state_ e1 !! u')) ->
  (forall r, result_ e = Some r -> result_ e1 = Some r) ->
  (result_ e = None ->
   is_Some (result_ e1) \/
   (result_ e1 = None /\
    exists i, vote_counter_ e1
              = rv_counter (VoteCounter.RegisterVote (vote_counter_ e) u i))) ->
  exists e' d, CheckForDecision e1 = Some (e', d) /\
    awaiting e' (pending ∖ {[u]}) /\ delivered e e' d /\
    (forall r, result_ e = Some r -> result_ e' = Some r).
Proof.
  intros [Huuid Hknown Hresp Hopen] Hu Hh Huuid1 Hknown1 Hkeep Hcase.
  destruct (classic_CheckForDecision e1) as (e' & d & Hc & Hnone & _).
  destruct (CheckForDecision_delivery _ _ _ Hc) as (Hd & Hn & Hs & Hk & _ & Hcnt & Hvs).
  exists e', d. split; [exact Hc |].
  assert (Hdel : delivered e e' d).
  { destruct d as [r |].
    - right. exists r. destruct (Hd r eq_refl) as (? & ? & ?). rewrite <- Hh. auto.
    - left. split; [done |]. rewrite <- Hh. by apply Hn. }
  split; [| split; [exact Hdel | by auto]].
  constructor.
  - intros u' st. rewrite Hvs. apply Huuid1.
  - intros u' Hu'. rewrite Hvs. apply Hknown1. set_solver.
  - split; [| exact Hs].
    intros Ht. destruct Hdel as [[-> Heq] | (r & _ & _ & _ & Hr)]; [| by rewrite Hr].
    rewrite Ht in Heq. symmetry in Heq. apply Hresp in Heq as [r Hr].
    rewrite (Hk r (Hkeep r Hr)). done.
  - intros Hr'. destruct (Hnone Hr') as [Hr1 Hdec].
    assert (Hr0 : result_ e = None).
    { destruct (result_ e) as [r |] eqn:E; [| done]. by rewrite (Hkeep r eq_refl) in Hr1. }
    destruct (Hcase Hr0) as [[r Hr] | (_ & i & Hi)]; [congruence |].
    destruct (Hopen Hr0) as (Hsum & Hvotes & _).
    assert (Hsz : size pending = S (size (pending ∖ {[u]}))).
    { rewrite (union_difference_singleton_L u pending Hu) at 1.
      rewrite size_union by set_solver. by rewrite size_singleton. }
    destruct (RegisterVote_new (vote_counter_ e) u i) as (Hc1 & Hn1 & Hv1);
      [by apply Hvotes | lia |].
    rewrite Hcnt, Hi. split; [lia |]. split; [| by rewrite <- Hi].
    intros u' Hu'. rewrite Hv1, lookup_insert_ne by set_solver. apply Hvotes. set_solver.
Qed.

Lemma proxy_failed_handled (e : LeaderElection.t VoteCounter.t) pending u st :
  awaiting e pending -> u ∈ pending -> voter_state_ e !! u = Some st ->
  exists e' d, proxy_failed e st = Some (e', d) /\
    awaiting e' (pending ∖ {[u]}) /\ delivered e e' d /\
    (forall r, result_ e = Some r -> result_ e' = Some r).
Proof.
  intros Haw Hu Hst. unfold proxy_failed.
  destruct (RecordVoteUnlocked_keeps e st VOTE_DENIED) as (Hh & Hr & _ & Hvs & _).
  destruct (RecordVoteUnlocked_classic e st VOTE_DENIED) as (i & _ & Hc).
  rewrite (aw_uuid _ _ Haw u st Hst) in Hc.
  apply (voter_handled e _ pending u Haw Hu Hh).
  - intros u' st'. rewrite Hvs. apply (aw_uuid _ _ Haw).
  - intros u' Hu'. rewrite Hvs. by apply (aw_known _ _ Haw).
  - intros r. by rewrite Hr.
  - intros Hn. right. rewrite Hr. split; [done |]. by exists i.
Qed.

Lemma rpc_handled (e : LeaderElection.t VoteCounter.t) pending u rpc_status_ok resp :
  awaiting e pending -> u ∈ pending ->
  exists e' d, rpc_completes e u rpc_status_ok resp = Some (e', d) /\
    awaiting e' (pending ∖ {[u]}) /\ delivered e e' d /\
    (forall r, result_ e = Some r -> result_ e' = Some r).
Proof.
  intros Haw Hu. unfold rpc_completes, VoteResponseRpcCallback.
  destruct (aw_known _ _ Haw u Hu) as [st Hst]. rewrite Hst. simpl.
  rewrite lookup_insert_eq. simpl.
  pose proof (aw_uuid _ _ Haw u st Hst) as Hpu.
  set (st' := mkVoterState (peer_uuid st) (proxy_status_ok st) rpc_status_ok resp).
  set (e0 := LeaderElection.mk (has_responded_ e) (request_ e) (vote_counter_ e)
               (highest_voter_term_ e) (result_ e) (<[u := st']> (voter_state_ e))).
  assert (Huuid0 : forall u' s, <[u := st']> (voter_state_ e) !! u' = Some s ->
                                peer_uuid s = u').
  { intros u' s. destruct (decide (u = u')) as [<- |].
    - rewrite lookup_insert_eq. intros Hs. by injection Hs as <-.
    - rewrite lookup_insert_ne by done. apply (aw_uuid _ _ Haw). }
  assert (Hknown0 : forall u', u' ∈ pending ->
                               is_Some (<[u := st']> (voter_state_ e) !! u')).
  { intros u' Hu'. destruct (decide (u = u')) as [<- |].
    - rewrite lookup_insert_eq. by eexists.
    - rewrite lookup_insert_ne by done. by apply (aw_known _ _ Haw). }
  assert (Hrec : forall (ex : LeaderElection.t VoteCounter.t) v,
            has_responded_ ex = has_responded_ e -> result_ ex = result_ e ->
            voter_state_ ex = <[u := st']> (voter_state_ e) ->
            vote_counter_ ex = vote_counter_ e ->
            exists e' d, CheckForDecision (RecordVoteUnlocked ex st' v) = Some (e', d) /\
              awaiting e' (pending ∖ {[u]}) /\ delivered e e' d /\
              (forall r, result_ e = Some r -> result_ e' = Some r)).
  { intros ex v Hh Hr Hvs Hc.
    destruct (RecordVoteUnlocked_keeps ex st' v) as (Hh' & Hr' & _ & Hvs' & _).
    destruct (RecordVoteUnlocked_classic ex st' v) as (i & _ & Hc').
    apply (voter_handled e _ pending u Haw Hu).
    - by rewrite Hh'.
    - intros u' s. rewrite Hvs', Hvs. apply Huuid0.
    - intros u' Hu'. rewrite Hvs', Hvs. by apply Hknown0.
    - intros r. by rewrite Hr', Hr.
    - intros Hn. right. rewrite Hr', Hr. split; [done |]. exists i.
      rewrite Hc', Hc. simpl. by rewrite Hpu. }
  destruct (negb rpc_status_ok); [by apply Hrec |].
  destruct (has_error resp); [by apply Hrec |].
  destruct (negb _); [by apply Hrec |].
  destruct (vote_granted resp).
  - unfold HandleVoteGrantedUnlocked. by apply Hrec.
  - unfold HandleVoteDeniedUnlocked.
    match goal with |- context [if ?b then _ else _] => destruct b end; [| by apply Hrec].
    match goal with |- context [HandleHigherTermUnlocked ?a ?b] =>
      destruct (HandleHigherTermUnlocked_keeps a b) as (Hh & Hk & Hs & _ & _ & _ & Hvs)
    end.
    apply (voter_handled e _ pending u Haw Hu).
    + by rewrite Hh.
    + intros u' s. rewrite Hvs. apply Huuid0.
    + intros u' Hu'. rewrite Hvs. by apply Hknown0.
    + intros r Hr. by apply Hk.
    + intros _. by left.
Qed.

Lemma delivered_count (e e' : LeaderElection.t VoteCounter.t) d :
  delivered e e' d ->
  (length (option_list d) + Nat.b2n (has_responded_ e) = Nat.b2n (has_responded_ e'))%nat /\
  (forall r, r ∈ option_list d -> result_ e' = Some r).
Proof.
  intros [[-> ->] | (r & -> & -> & -> & Hr)]; simpl.
  - split; [done |]. intros r Hr. by apply elem_of_nil in Hr.
  - split; [done |]. intros r' Hr'. by apply list_elem_of_singleton in Hr' as ->.
Qed.

Section WithProxies.
Variable NewProxy : RaftConsensus.RaftPeerPB -> bool.

Lemma init_voter_states_spec candidate peers : forall acc vs others vs',
  NoDup acc ->
  (forall u, u ∈ acc <-> is_Some (vs !! u)) ->
  (forall u st, vs !! u = Some st -> peer_uuid st = u) ->
  candidate ∉ acc ->
  init_voter_states NewProxy candidate peers acc vs = Some (others, vs') ->
  NoDup others /\
  (forall u, u ∈ others <-> is_Some (vs' !! u)) /\
  (forall u st, vs' !! u = Some st -> peer_uuid st = u) /\
  candidate ∉ others.
Proof.
  induction peers as [| peer rest IH]; intros acc vs others vs' Hnd Hdom Huuid Hc Hi;
    simpl in Hi.
  - by injection Hi as <- <-.
  - case_bool_decide as Hcand; [by apply (IH acc vs) |].
    destruct (negb _); [by apply (IH acc vs) |].
    destruct (vs !! RaftConsensus.permanent_uuid peer) eqn:Hl; [done |].
    apply (IH _ _ _ _) in Hi; [done | | | |].
    + apply NoDup_app. split; [done |]. split; [| apply NoDup_singleton].
      intros u Hu Hu'. apply list_elem_of_singleton in Hu' as ->.
      apply Hdom in Hu as [x Hx]. congruence.
    + intros u. rewrite elem_of_app, list_elem_of_singleton.
      destruct (decide (RaftConsensus.permanent_uuid peer = u)) as [<- |].
      * rewrite lookup_insert_eq. split; [by eexists | by right].
      * rewrite lookup_insert_ne by done. rewrite <- Hdom. split; [| by left].
        intros [? | ?]; [done | congruence].
    + intros u st. destruct (decide (RaftConsensus.permanent_uuid peer = u)) as [<- |].
      * rewrite lookup_insert_eq. intros Hs. by injection Hs as <-.
      * rewrite lookup_insert_ne by done. apply Huuid.
    + rewrite elem_of_app, list_elem_of_singleton. intros [? | ?]; [done | congruence].
Qed.

Lemma request_votes_spec others : forall (e : LeaderElection.t VoteCounter.t) ds sent,
  awaiting e (list_to_set (others ++ sent)) -> NoDup (others ++ sent) ->
  exists e' ds' sent',
    request_votes e others ds sent = Some (e', ds', sent') /\
    awaiting e' (list_to_set sent') /\ NoDup sent' /\
    (length ds' + Nat.b2n (has_responded_ e) = length ds + Nat.b2n (has_responded_ e'))%nat /\
    (forall r, result_ e = Some r -> result_ e' = Some r) /\
    (forall r, r ∈ ds' -> r ∈ ds \/ result_ e' = Some r).
Proof.
  induction others as [| u rest IH]; intros e ds sent Haw Hnd; simpl.
  - exists e, ds, sent. split; [done |]. split; [exact Haw |]. split; [exact Hnd |].
    split; [done |]. split; [by auto | by auto].
  - simpl in Haw, Hnd. apply NoDup_cons in Hnd as [Hu Hnd].
    destruct (aw_known _ _ Haw u) as [st Hst]; [set_solver |]. rewrite Hst. simpl.
    destruct (negb (proxy_status_ok st)).
    + destruct (proxy_failed_handled e _ u st Haw) as (e1 & d & -> & Haw1 & Hdel & Hk1);
        [set_solver | done |]. simpl.
      assert (Hset : ({[u]} ∪ list_to_set (rest ++ sent) : gset string) ∖ {[u]}
                     = list_to_set (rest ++ sent)).
      { apply set_eq. intros x. rewrite elem_of_difference, elem_of_union,
          elem_of_singleton, elem_of_list_to_set. split; [tauto |].
        intros Hx. split; [by right |]. intros ->. done. }
      rewrite Hset in Haw1.
      destruct (IH e1 (ds ++ option_list d) sent Haw1 Hnd)
        as (e' & ds' & sent' & -> & Haw' & Hnd' & Hlen & Hk & Hin).
      destruct (delivered_count _ _ _ Hdel) as [Hcnt Hres].
      exists e', ds', sent'. split; [done |]. split; [done |]. split; [done |].
      rewrite length_app in Hlen. split; [lia |]. split; [by auto |].
      intros r Hr. destruct (Hin r Hr) as [Hr' | Hr']; [| by right].
      apply elem_of_app in Hr' as [? | Hr']; [by left |]. right. by apply Hk, Hres.
    + assert (Hset : ({[u]} ∪ list_to_set (rest ++ sent) : gset string)
                     = list_to_set (rest ++ (sent ++ [u]))).
      { apply set_eq. intros x. rewrite elem_of_union, elem_of_singleton,
          !elem_of_list_to_set, !elem_of_app, list_elem_of_singleton. tauto. }
      rewrite Hset in Haw.
      apply (IH e ds (sent ++ [u]) Haw).
      rewrite app_assoc. apply NoDup_app. split; [done |].
      split; [| apply NoDup_singleton].
      intros x Hx Hx'. apply list_elem_of_singleton in Hx' as ->. done.
Qed.

Lemma handle_responses_spec responses : forall (e : LeaderElection.t VoteCounter.t),
  awaiting e (list_to_set (map (fun r => r.1.1) responses)) ->
  NoDup (map (fun r : string * bool * VoteResponsePB => r.1.1) responses) ->
  exists e' ds,
    handle_responses e responses = Some (e', ds) /\
    awaiting e' ∅ /\
    (length ds + Nat.b2n (has_responded_ e) = Nat.b2n (has_responded_ e'))%nat /\
    (forall r, result_ e = Some r -> result_ e' = Some r) /\
    (forall r, r ∈ ds -> result_ e' = Some r).
Proof.
  induction responses as [| [[u ok] resp] rest IH]; intros e Haw Hnd; simpl.
  - exists e, []. split; [done |]. split; [exact Haw |]. split; [done |].
    split; [by auto |]. intros r Hr. by apply elem_of_nil in Hr.
  - simpl in Haw, Hnd. apply NoDup_cons in Hnd as [Hu Hnd].
    destruct (rpc_handled e _ u ok resp Haw) as (e1 & d & -> & Haw1 & Hdel & Hk1);
      [set_solver |]. simpl.
    assert (Hset : ({[u]} ∪ list_to_set (map (fun r => r.1.1) rest) : gset string) ∖ {[u]}
                   = list_to_set (map (fun r : string * bool * VoteResponsePB => r.1.1) rest)).
    { apply set_eq. intros x. rewrite elem_of_difference, elem_of_union,
        elem_of_singleton, elem_of_list_to_set. split; [tauto |].
      intros Hx. split; [by right |]. intros ->. done. }
    rewrite Hset in Haw1.
    destruct (IH e1 Haw1 Hnd) as (e' & ds & -> & Haw' & Hlen & Hk & Hin). simpl.
    destruct (delivered_count _ _ _ Hdel) as [Hcnt Hres].
    exists e', (option_list d ++ ds). split; [done |]. split; [done |].
    rewrite length_app. split; [lia |]. split; [by auto |].
    intros r Hr. apply elem_of_app in Hr as [Hr | Hr]; [by apply Hk, Hres | by apply Hin].
Qed.

(** [Run] on a fresh election whose counter holds only the candidate's own
    vote, followed by the handling of one response from every voter a
    request was sent to, in any order: nothing aborts, and the decision
    callback is invoked exactly once over the whole election, with the
    election's final result. *)
Theorem election_decides_exactly_once (config : RaftConsensus.RaftConfigPB)
    (e e1 : LeaderElection.t VoteCounter.t) (ds1 : list ElectionResult)
    (sent : list string) (responses : list (string * bool * VoteResponsePB)) :
  has_responded_ e = false -> result_ e = None ->
  (forall u, u <> candidate_uuid (request_ e) -> votes_ (vote_counter_ e) !! u = None) ->
  Run NewProxy config e = Some (e1, ds1, sent) ->
  map (fun r => r.1.1) responses ≡ₚ sent ->
  exists e2 ds2,
    handle_responses e1 responses = Some (e2, ds2) /\
    length (ds1 ++ ds2) = 1%nat /\
    has_responded_ e2 = true /\
    forall r, r ∈ ds1 ++ ds2 -> result_ e2 = Some r.
Proof.
  intros Hresp Hres Hself Hrun Hperm. unfold Run in Hrun.
  destruct (init_voter_states NewProxy _ _ [] ∅) as [[others vs] |] eqn:Hinit;
    simpl in Hrun; [| done].
  destruct (init_voter_states_spec (candidate_uuid (request_ e))
              (RaftConsensus.peers config) [] ∅ others vs)
    as (Hnd & Hdom & Huuid & Hcand);
    [apply NoDup_nil_2 | | | | exact Hinit |].
  { intros u. rewrite lookup_empty. split; [by intros ?%elem_of_nil | by intros [? ?]]. }
  { intros u st. by rewrite lookup_empty. }
  { by intros ?%elem_of_nil. }
  destruct (_ =? 1) eqn:Hone; simpl in Hrun; [| done]. apply Z.eqb_eq in Hone.
  destruct (_ =? _) eqn:Hsum in Hrun; simpl in Hrun; [| done]. apply Z.eqb_eq in Hsum.
  set (e0 := LeaderElection.mk (has_responded_ e) (request_ e) (vote_counter_ e)
               (highest_voter_term_ e) (result_ e) vs) in *.
  destruct (classic_CheckForDecision e0) as (e0' & d0 & Hc0 & Hnone & _).
  rewrite Hc0 in Hrun. simpl in Hrun.
  destruct (CheckForDecision_delivery _ _ _ Hc0) as (Hd & Hn & Hs & Hk & _ & Hcnt & Hvs).
  assert (Hdel0 : delivered e0 e0' d0).
  { destruct d0 as [r |].
    - right. exists r. by destruct (Hd r eq_refl) as (? & ? & ?).
    - left. split; [done |]. by apply Hn. }
  assert (Haw0 : awaiting e0' (list_to_set (others ++ []))).
  { rewrite app_nil_r. constructor.
    - intros u st. rewrite Hvs. apply Huuid.
    - intros u Hu. rewrite Hvs. apply Hdom. by apply elem_of_list_to_set in Hu.
    - split; [| exact Hs]. intros Ht.
      destruct Hdel0 as [[_ Heq] | (r & _ & _ & _ & Hr)]; [| by rewrite Hr].
      simpl in Heq. congruence.
    - intros Hr'. destruct (Hnone Hr') as [_ Hdec]. rewrite Hcnt. simpl.
      split; [| split; [| done]].
      + rewrite size_list_to_set by done. exact Hsum.
      + intros u Hu. apply elem_of_list_to_set in Hu. apply Hself. congruence. }
  destruct (request_votes_spec others e0' (option_list d0) [] Haw0)
    as (e1' & ds1' & sent' & Hrv & Haw1 & Hnd1 & Hlen1 & Hk1 & Hin1);
    [by rewrite app_nil_r |].
  rewrite Hrv in Hrun. injection Hrun as -> -> ->.
  assert (Haw1' : awaiting e1 (list_to_set (map (fun r => r.1.1) responses))).
  { assert (Heq : (list_to_set (map (fun r : string * bool * VoteResponsePB => r.1.1)
                                  responses) : gset string) = list_to_set sent).
    { apply set_eq. intros x. rewrite !elem_of_list_to_set. by rewrite Hperm. }
    by rewrite Heq. }
  destruct (handle_responses_spec responses e1 Haw1') as (e2 & ds2 & Hh & Haw2 & Hlen2 & Hk2 & Hin2);
    [by rewrite Hperm |].
  exists e2, ds2. split; [exact Hh |].
  assert (Hfinal : has_responded_ e2 = true).
  { apply (aw_responded _ _ Haw2).
    destruct (result_ e2) as [r |] eqn:Hr2; [by eexists |].
    destruct (aw_open _ _ Haw2 Hr2) as (Hall & _ & Hdec).
    rewrite size_empty in Hall.
    rewrite classic_all_in_decided in Hdec; [done | lia]. }
  destruct (delivered_count _ _ _ Hdel0) as [Hcnt0 Hres0]. simpl in Hcnt0.
  rewrite Hresp in Hcnt0. simpl in Hcnt0.
  rewrite Hfinal in Hlen2. simpl in Hlen2.
  split; [rewrite length_app; lia |]. split; [exact Hfinal |].
  intros r Hr. apply elem_of_app in Hr as [Hr | Hr]; [| by apply Hin2].
  apply Hk2. destruct (Hin1 r Hr) as [Hr' | Hr']; [| done]. by apply Hk1, Hres0.
Qed.

End WithProxies.

Lemma granted_voters_insert c u i :
  votes_ c !! u = None ->
  granted_voters (VoteCounter.mk (num_voters_ c) (is_candidate_removed_ c) (majority_size_ c)
                    (<[u := i]> (votes_ c)) (yes_votes_ c) (no_votes_ c))
  = (if decide (vote i = VOTE_GRANTED) then {[u]} ∪ granted_voters c else granted_voters c).
Proof.
  intros Hu. unfold granted_voters. simpl. case_decide as Hv.
  - rewrite map_filter_insert_True by done. by rewrite dom_insert_L.
  - rewrite map_filter_insert_not'; [done | done |]. intros y Hy. congruence.
Qed.

Lemma RegisterVote_granted c u i :
  let c' := rv_counter (VoteCounter.RegisterVote c u i) in
  granted_voters c' ⊆ granted_voters c ∪ (if decide (vote i = VOTE_GRANTED) then {[u]} else ∅) /\
  yes_votes_ c <= yes_votes_ c'.
Proof.
  unfold VoteCounter.RegisterVote.
  destruct (votes_ c !! u) as [prior |] eqn:Hu.
  - destruct (negb _); simpl; (split; [apply union_subseteq_l | lia]).
  - destruct (_ =? _); simpl; [split; [apply union_subseteq_l | lia] |].
    pose proof (granted_voters_insert c u i Hu) as Hg. unfold granted_voters in *.
    simpl in Hg.
    destruct (vote i) eqn:Ev; simpl; rewrite Hg; case_decide; try done;
      (split; [| lia]).
    + apply union_subseteq_l.
    + intros x. rewrite !elem_of_union. tauto.
Qed.

Lemma grants_checked (e e1 : LeaderElection.t VoteCounter.t) (G G1 : gset string) :
  grants_within e G ->
  counter_inv (vote_counter_ e1) ->
  (forall u st, voter_state_ e1 !! u = Some st -> peer_uuid st = u) ->
  granted_voters (vote_counter_ e1) ⊆ G1 ->
  majority_size_ (vote_counter_ e1) = majority_size_ (vote_counter_ e) ->
  yes_votes_ (vote_counter_ e) <= yes_votes_ (vote_counter_ e1) ->
  (forall r, result_ e1 = Some r ->
             result_ e = Some r \/ (result_ e = None /\ decision r = VOTE_DENIED)) ->
  forall e' d, CheckForDecision e1 = Some (e', d) ->
  grants_within e' G1 /\
  majority_size_ (vote_counter_ e') = majority_size_ (vote_counter_ e).
Proof.
  intros [Hinv Huuid Hg Hres] Hinv1 Huuid1 Hg1 Hm Hy Hr1 e' d Hc.
  destruct (classic_CheckForDecision e1) as (e'' & d' & Hc' & _ & Hwon).
  rewrite Hc in Hc'. injection Hc' as <- <-.
  destruct (CheckForDecision_delivery _ _ _ Hc) as (_ & _ & _ & Hk & _ & Hcnt & Hvs).
  rewrite Hcnt. split; [| done]. constructor; rewrite ?Hcnt, ?Hvs; try done.
  intros r Hr Hd. destruct (result_ e1) as [r1 |] eqn:E1.
  - rewrite (Hk r1 eq_refl) in Hr. injection Hr as ->.
    destruct (Hr1 r eq_refl) as [Hr0 | [_ Hden]]; [| congruence].
    rewrite Hm. specialize (Hres r Hr0 Hd). lia.
  - by apply (Hwon r).
Qed.

Lemma rpc_completes_grants (e e' : LeaderElection.t VoteCounter.t) u rpc_status_ok resp d G :
  rpc_completes e u rpc_status_ok resp = Some (e', d) ->
  grants_within e G ->
  grants_within e' (G ∪ (if is_grant (u, rpc_status_ok, resp) then {[u]} else ∅)) /\
  majority_size_ (vote_counter_ e') = majority_size_ (vote_counter_ e).
Proof.
  unfold rpc_completes, VoteResponseRpcCallback. intros Hc Hgw.
  destruct (voter_state_ e !! u) as [st |] eqn:Hst; simpl in Hc; [| done].
  rewrite lookup_insert_eq in Hc. simpl in Hc.
  pose proof (gw_uuid _ _ Hgw u st Hst) as Hpu.
  set (st' := mkVoterState (peer_uuid st) (proxy_status_ok st) rpc_status_ok resp) in *.
  assert (Huuid0 : forall u' s, <[u := st']> (voter_state_ e) !! u' = Some s ->
                                peer_uuid s = u').
  { intros u' s. destruct (decide (u = u')) as [<- |].
    - rewrite lookup_insert_eq. intros Hs. by injection Hs as <-.
    - rewrite lookup_insert_ne by done. apply (gw_uuid _ _ Hgw). }
  assert (Hrec : forall (ex : LeaderElection.t VoteCounter.t) v (G1 : gset string),
            CheckForDecision (RecordVoteUnlocked ex st' v) = Some (e', d) ->
            result_ ex = result_ e ->
            voter_state_ ex = <[u := st']> (voter_state_ e) ->
            vote_counter_ ex = vote_counter_ e ->
            G ∪ (if decide (v = VOTE_GRANTED) then {[u]} else ∅) ⊆ G1 ->
            grants_within e' G1 /\
            majority_size_ (vote_counter_ e') = majority_size_ (vote_counter_ e)).
  { intros ex v G1 Hcd Hr Hvs Hcn HG.
    destruct (RecordVoteUnlocked_keeps ex st' v) as (_ & Hr' & _ & Hvs' & _).
    destruct (RecordVoteUnlocked_classic ex st' v) as (i & Hi & Hc').
    assert (Hc'' : vote_counter_ (RecordVoteUnlocked ex st' v)
                   = rv_counter (VoteCounter.RegisterVote (vote_counter_ e) u i))
      by (rewrite Hc', Hcn; unfold st'; simpl; by rewrite Hpu).
    clear Hc'.
    destruct (RegisterVote_granted (vote_counter_ e) u i) as [Hsub Hyes].
    destruct (RegisterVote_sizes (vote_counter_ e) u i) as [_ Hms].
    apply (grants_checked e (RecordVoteUnlocked ex st' v) G G1 Hgw) with (d := d);
      rewrite ?Hc''; try done.
    - apply RegisterVote_inv, (gw_inv _ _ Hgw).
    - intros u' s. rewrite Hvs', Hvs. apply Huuid0.
    - etransitivity; [exact Hsub |]. etransitivity; [| exact HG].
      rewrite Hi. pose proof (gw_granted _ _ Hgw). set_solver.
    - intros r. rewrite Hr', Hr. by left. }
  assert (Hden : forall (ex : LeaderElection.t VoteCounter.t) (G1 : gset string),
            CheckForDecision (RecordVoteUnlocked ex st' VOTE_DENIED) = Some (e', d) ->
            result_ ex = result_ e ->
            voter_state_ ex = <[u := st']> (voter_state_ e) ->
            vote_counter_ ex = vote_counter_ e ->
            grants_within e' (G ∪ G1) /\
            majority_size_ (vote_counter_ e') = majority_size_ (vote_counter_ e)).
  { intros ex G1 Hcd Hr Hvs Hcn. apply (Hrec ex VOTE_DENIED); try done.
    rewrite decide_False by done. set_solver. }
  unfold is_grant. simpl.
  destruct rpc_status_ok; simpl in Hc |- *; [| by apply (Hden _ _ Hc)].
  destruct (has_error resp); simpl in Hc |- *; [by apply (Hden _ _ Hc) |].
  case_bool_decide as Hid; simpl in Hc |- *; [| by apply (Hden _ _ Hc)].
  destruct (vote_granted resp); simpl in Hc |- *.
  - unfold HandleVoteGrantedUnlocked in Hc.
    apply (Hrec _ VOTE_GRANTED _ Hc); done.
  - unfold HandleVoteDeniedUnlocked in Hc.
    match type of Hc with context [if ?b then _ else _] => destruct b end;
      [| by apply (Hden _ _ Hc)].
    match type of Hc with context [HandleHigherTermUnlocked ?a ?b] =>
      destruct (HandleHigherTermUnlocked_keeps a b) as (_ & Hk & _ & Hdn & _ & Hcn & Hvs);
      apply (grants_checked e (HandleHigherTermUnlocked a b) G _ Hgw) with (d := d)
    end; rewrite ?Hcn; simpl; try done; try lia.
    + apply (gw_inv _ _ Hgw).
    + intros u' s. rewrite Hvs. apply Huuid0.
    + pose proof (gw_granted _ _ Hgw). set_solver.
    + intros r Hr. simpl in *. destruct (result_ e) as [r0 |] eqn:E0.
      * left. rewrite (Hk r0 eq_refl) in Hr. done.
      * right. split; [done |]. by apply Hdn.
Qed.

Lemma handle_responses_grants responses :
  forall (e e' : LeaderElection.t VoteCounter.t) ds (G : gset string),
  handle_responses e responses = Some (e', ds) ->
  grants_within e G ->
  grants_within e' (G ∪ granting responses) /\
  majority_size_ (vote_counter_ e') = majority_size_ (vote_counter_ e).
Proof.
  induction responses as [| [[u ok] resp] rest IH]; intros e e' ds G Hrun Hgw.
  - simpl in Hrun. injection Hrun as <- <-. split; [| done].
    unfold granting. simpl. by rewrite union_empty_r_L.
  - simpl in Hrun.
    destruct (rpc_completes e u ok resp) as [[e1 d] |] eqn:Hstep; simpl in Hrun; [| done].
    destruct (handle_responses e1 rest) as [[e2 ds2] |] eqn:Hrest; simpl in Hrun; [| done].
    injection Hrun as <- <-.
    destruct (rpc_completes_grants _ _ _ _ _ _ _ Hstep Hgw) as [Hgw1 Hm1].
    destruct (IH _ _ _ _ Hrest Hgw1) as [Hgw2 Hm2].
    split; [| congruence].
    assert (Heq : G ∪ (if is_grant (u, ok, resp) then {[u]} else ∅) ∪ granting rest
                  = G ∪ granting ((u, ok, resp) :: rest)).
    { unfold granting. rewrite filter_cons.
      destruct (is_grant (u, ok, resp)) eqn:Eg.
      - rewrite decide_True by done. simpl. set_solver.
      - rewrite decide_False by (by intros ?). set_solver. }
    by rewrite <- Heq.
Qed.

(** An election over the classic counter is only ever won on a majority of
    granted votes: when the decision callback is invoked with VOTE_GRANTED,
    the voters that were recorded as granting before the responses, together
    with the voters whose response was handled as a granted vote, number at
    least [majority_size_]. *)
Theorem election_won_by_majority_of_grants (e e' : LeaderElection.t VoteCounter.t)
    (responses : list (string * bool * VoteResponsePB)) (ds : list ElectionResult)
    (r : ElectionResult) :
  counter_inv (vote_counter_ e) ->
  result_ e = None ->
  (forall u st, voter_state_ e !! u = Some st -> peer_uuid st = u) ->
  handle_responses e responses = Some (e', ds) ->
  r ∈ ds -> decision r = VOTE_GRANTED ->
  majority_size_ (vote_counter_ e)
  <= Z.of_nat (size (granted_voters (vote_counter_ e) ∪ granting responses)).
Proof.
  intros Hinv Hres Huuid Hrun Hr Hd.
  assert (Hgw : grants_within e (granted_voters (vote_counter_ e))).
  { constructor; try done. intros r0. by rewrite Hres. }
  destruct (handle_responses_grants _ _ _ _ _ Hrun Hgw) as [[Hinv' _ Hg' Hres'] Hm].
  destruct (handle_responses_delivery _ _ _ _ Hrun) as (_ & Hin & _).
  destruct (Hin r Hr) as [Hr' _].
  specialize (Hres' r Hr' Hd). rewrite Hm in Hres'.
  rewrite (inv_yes _ Hinv') in Hres'. unfold tally in Hres'.
  etransitivity; [exact Hres' |].
  apply inj_le. rewrite <- size_dom. by apply subseteq_size.
Qed.

End ClassicElection.

Section ElectionDeliveryExamples.
Import VoteCounter PB LeaderElection LeaderElectionRun Examples.

(** "C" grants its vote for term 5; "B" answers late with a denial. *)
Definition example_grant (voter : string) : VoteResponsePB :=
  mkVoteResponse voter 5 true None false None 0.

Definition example_responses : list (string * bool * VoteResponsePB) :=
  [("C", true, example_grant "C");
   ("B", true, mkVoteResponse "B" 5 false None false None 0)].

Lemma decision_callback_at_most_once_witness :
  exists e' ds,
    handle_responses example_election [("B", true, example_grant "B")] = Some (e', ds) /\
    (length ds <= 1)%nat.
Proof.
  destruct (handle_responses example_election [("B", true, example_grant "B")])
    as [[e' ds] |] eqn:Hrun; [| by vm_compute in Hrun].
  exists e', ds. split; [reflexivity |].
  apply (decision_callback_at_most_once _ _ _ _ Hrun).
Defined.

Lemma election_decides_exactly_once_witness :
  exists e1 ds1 sent e2 ds2,
    Run (fun _ => true) example_config example_election = Some (e1, ds1, sent) /\
    handle_responses e1 example_responses = Some (e2, ds2) /\
    length (ds1 ++ ds2) = 1%nat.
Proof.
  destruct (Run (fun _ => true) example_config example_election)
    as [[[e1 ds1] sent] |] eqn:Hrun; [| by vm_compute in Hrun].
  pose proof Hrun as Hsent. vm_compute in Hsent. injection Hsent as _ _ <-.
  destruct (election_decides_exactly_once (fun _ => true) example_config example_election
              e1 ds1 ["B"; "C"] example_responses) as (e2 & ds2 & Hh & Hlen & _).
  - reflexivity.
  - reflexivity.
  - intros u Hu. simpl. by rewrite lookup_singleton_ne.
  - exact Hrun.
  - simpl. apply perm_swap.
  - exists e1, ds1, ["B"; "C"], e2, ds2. done.
Defined.

Lemma election_won_by_majority_of_grants_witness :
  2 <= Z.of_nat (size (granted_voters (vote_counter_ example_election)
                        ∪ granting [("B", true, example_grant "B")])).
Proof.
  destruct (handle_responses example_election [("B", true, example_grant "B")])
    as [[e' ds] |] eqn:Hrun; [| by vm_compute in Hrun].
  pose proof Hrun as Hds. vm_compute in Hds.
  destruct ds as [| r ds]; [by injection Hds |].
  injection Hds as _ Hr _.
  apply (election_won_by_majority_of_grants example_election e'
           [("B", true, example_grant "B")] (r :: ds) r).
  - constructor; by vm_compute.
  - reflexivity.
  - intros u st Hl. simpl in Hl. apply lookup_singleton_Some in Hl as [<- <-]. done.
  - exact Hrun.
  - by left.
  - by rewrite <- Hr.
Defined.

End ElectionDeliveryExamples.

(** * Granting and denying votes *)

Section VotingFacts.
Import PB RaftConsensus.
Variable flags : Flags.

(** The OpId a replica compares a candidate's log with: the last one in its
    log when it is running, the one kept with the tombstone otherwise (when
    tombstoned voting is enabled). *)
Definition local_last_logged_opid (st : t) (tomb : option OpId) : option OpId :=
  match state_ st with
  | kShutdown => None
  | kRunning => Some (GetLastOpIdInLog (queue_ st))
  | _ => if raft_enable_tombstoned_voting flags then tomb else None
  end.

Lemma RequestVote_last_logged st (tomb : option OpId) :
  match state_ st with
  | kShutdown => inl (IllegalState msg_shut_down)
  | kRunning => inr (GetLastOpIdInLog (queue_ st))
  | _ =>
      match tomb with
      | None => inl (IllegalState msg_opid_unknown)
      | Some o =>
          if negb (raft_enable_tombstoned_voting flags)
          then inl (IllegalState msg_tombstoned_voting_disabled)
          else inr o
      end
  end
  = match local_last_logged_opid st tomb with
    | Some o => inr o
    | None =>
        inl (match state_ st with
             | kShutdown => IllegalState msg_shut_down
             | _ => match tomb with
                    | None => IllegalState msg_opid_unknown
                    | Some _ => IllegalState msg_tombstoned_voting_disabled
                    end
             end)
    end.
Proof.
  unfold local_last_logged_opid.
  destruct (state_ st), tomb, (raft_enable_tombstoned_voting flags); reflexivity.
Qed.

(** A vote is granted only to a candidate of the current or a later term
    and, unless the replica is repeating the vote it already gave this
    candidate in this term, only to one whose log is not behind the
    replica's own.  A granted pre-election vote changes nothing; a granted
    real vote leaves the replica in the candidate's term with the vote
    recorded and flushed.  The response carries the replica's term. *)
Theorem RequestVote_granted_spec (st : t) (request : VoteRequestPB) (tomb : option OpId)
    (lock_free : bool) (now : Z) :
  let r := RequestVote flags st request tomb lock_free now in
  vote_granted r.1.2 = true ->
  r.1.1 = OK /\
  CurrentTermUnlocked st <= candidate_term request /\
  responder_term r.1.2 = CurrentTermUnlocked r.2 /\
  ((candidate_term request = CurrentTermUnlocked st /\
    voted_for (cmeta_ st) = Some (candidate_uuid request) /\ r.2 = st) \/
   (exists local, local_last_logged_opid st tomb = Some local /\
      OpIdLessThan (candidate_last_received request) local = false /\
      (is_pre_election request = true -> r.2 = st) /\
      (is_pre_election request = false ->
         CurrentTermUnlocked r.2 = candidate_term request /\
         voted_for (cmeta_ r.2) = Some (candidate_uuid request) /\
         durable_ r.2 = cmeta_ r.2))).
Proof.
  unfold RequestVote. rewrite RequestVote_last_logged.
  destruct (negb (if _ && _ then lock_free else true)); [done |].
  destruct (local_last_logged_opid st tomb) as [local |] eqn:Hlocal; [| done].
  destruct (withhold_votes_ st); [done |].
  destruct (_ && now_before _ _); [done |].
  destruct (Z.ltb_spec (candidate_term request) (CurrentTermUnlocked st)) as [| Hge];
    [done |].
  destruct (Z.eqb_spec (candidate_term request) (CurrentTermUnlocked st)) as [Heq | Hne];
    simpl.
  - unfold HasVotedCurrentTermUnlocked, has_voted_for, GetVotedForCurrentTermUnlocked.
    destruct (voted_for (cmeta_ st)) as [u |] eqn:Hu.
    + case_bool_decide as Hc; simpl; [| done]. intros _.
      split; [done |]. split; [lia |]. split; [done |]. left.
      split; [done |]. split; [congruence | done].
    + destruct (OpIdLessThan _ _) eqn:Hlt; simpl.
      { rewrite Heq, Z.ltb_irrefl, andb_false_r. simpl. done. }
      destruct (_ && (_ <? _)); [done |].
      rewrite Heq, Z.ltb_irrefl, andb_false_r. simpl.
      unfold RequestVoteRespondVoteGranted.
      destruct (is_pre_election request) eqn:Hpre; simpl; intros _.
      * split; [done |]. split; [lia |]. split; [done |]. right.
        exists local. repeat split; done.
      * split; [done |]. split; [lia |]. split; [done |]. right.
        exists local. split; [done |]. split; [done |]. split; [done |].
        intros _. unfold CurrentTermUnlocked. simpl. done.
  - destruct (OpIdLessThan _ _) eqn:Hlt; simpl.
    { destruct (negb (is_pre_election request) && _); simpl;
        [destruct (negb (ok _)); done | done]. }
    destruct (_ && (_ <? _)); [done |].
    destruct (is_pre_election request) eqn:Hpre; simpl.
    + unfold RequestVoteRespondVoteGranted. rewrite Hpre. simpl. intros _.
      split; [done |]. split; [lia |]. split; [done |]. right.
      exists local. repeat split; done.
    + assert (Hlt' : CurrentTermUnlocked st < candidate_term request) by lia.
      assert ((CurrentTermUnlocked st <? candidate_term request) = true) as -> by lia.
      destruct (HandleTermAdvanceUnlocked_ok st (candidate_term request)
                  SKIP_FLUSH_TO_DISK Hlt') as (st1 & -> & T1 & V1 & _).
      simpl. unfold RequestVoteRespondVoteGranted. rewrite Hpre. simpl. intros _.
      split; [done |]. split; [lia |]. split; [done |]. right.
      exists local. split; [done |]. split; [done |]. split; [done |].
      intros _. unfold CurrentTermUnlocked in *. simpl. done.
Qed.

(** A candidate of a later term whose log is behind the replica's is denied
    with LAST_OPID_TOO_OLD, but a real election still moves the replica to
    the candidate's term, with no vote, and flushes that; a pre-election
    leaves the replica as it was. *)
Theorem RequestVote_stale_log_advances_term (st : t) (request : VoteRequestPB)
    (tomb : option OpId) (lock_free : bool) (now : Z) (local : OpId) :
  early_checks_pass flags st request tomb lock_free now = true ->
  local_last_logged_opid st tomb = Some local ->
  OpIdLessThan (candidate_last_received request) local = true ->
  CurrentTermUnlocked st < candidate_term request ->
  let r := RequestVote flags st request tomb lock_free now in
  r.1.1 = OK /\ vote_granted r.1.2 = false /\
  consensus_error r.1.2
  = Some (LAST_OPID_TOO_OLD, InvalidArgument msg_last_opid_too_old) /\
  responder_term r.1.2 = CurrentTermUnlocked r.2 /\
  (is_pre_election request = true -> r.2 = st) /\
  (is_pre_election request = false ->
     CurrentTermUnlocked r.2 = candidate_term request /\
     voted_for (cmeta_ r.2) = None /\
     current_term (durable_ r.2) = candidate_term request /\
     voted_for (durable_ r.2) = None).
Proof.
  intros Hearly Hlocal Hold Hlt. unfold RequestVote, early_checks_pass in *.
  rewrite RequestVote_last_logged, Hlocal.
  destruct (if _ && _ then lock_free else true); simpl in *; [| done].
  destruct (withhold_votes_ st); simpl in *; [by rewrite andb_false_r in Hearly |].
  destruct (_ && now_before _ _); simpl in *; [by rewrite andb_false_r in Hearly |].
  assert ((candidate_term request <? CurrentTermUnlocked st) = false) as -> by lia.
  assert ((candidate_term request =? CurrentTermUnlocked st) = false) as -> by lia.
  simpl. rewrite Hold. simpl.
  assert ((CurrentTermUnlocked st <? candidate_term request) = true) as -> by lia.
  destruct (is_pre_election request) eqn:Hpre; simpl.
  - repeat split; done.
  - destruct (HandleTermAdvanceUnlocked_ok st (candidate_term request)
                FLUSH_TO_DISK Hlt) as (st1 & -> & T1 & V1 & _ & _ & _ & F1).
    destruct (F1 eq_refl) as [D1 D2]. simpl. repeat split; done.
Qed.

(** [StepDown]: a replica that is not running refuses; one that is not the
    leader is left as it was; a running leader moves to the next term in
    memory only: it is no longer the leader, has no vote and knows no
    leader, while the durable record is not touched. *)
Theorem StepDown_spec (st : t) :
  (state_ st <> kRunning -> StepDown st = (IllegalState msg_not_running, st)) /\
  (state_ st = kRunning -> active_role st <> LEADER -> StepDown st = (OK, st)) /\
  (state_ st = kRunning -> active_role st = LEADER ->
   exists st', StepDown st = (OK, st') /\
     CurrentTermUnlocked st' = CurrentTermUnlocked st + 1 /\
     voted_for (cmeta_ st') = None /\ leader_uuid (cmeta_ st') = "" /\
     active_role st' <> LEADER /\
     IsInLeaderMode (queue_ st') = false /\
     durable_ st' = durable_ st /\ flush_count_ st' = flush_count_ st).
Proof.
  unfold StepDown, CheckRunningUnlocked. split; [| split].
  - intros Hs. by destruct (state_ st).
  - intros -> Hr. by destruct (active_role st).
  - intros -> Hr. rewrite Hr.
    rewrite HandleTermAdvanceUnlocked_unfold by lia.
    destruct (stepped_down_spec st) as (_ & Ht & _ & Hd & Hf & _ & _ & Hl).
    destruct (Hl Hr) as (_ & Hq & _).
    destruct (SetCurrentTermUnlocked_ok (stepped_down st) (CurrentTermUnlocked st + 1)
                SKIP_FLUSH_TO_DISK) as (st1 & E & T1 & V1 & L1 & _ & S1 & _).
    { unfold CurrentTermUnlocked in *. lia. }
    destruct (S1 eq_refl) as [D1 F1].
    assert (Hq1 : queue_ st1 = queue_ (stepped_down st)).
    { unfold SetCurrentTermUnlocked in E.
      destruct (_ <=? _); [discriminate E |]. injection E as E. by rewrite <- E. }
    eexists. split; [reflexivity |]. rewrite E. simpl.
    unfold CurrentTermUnlocked. simpl.
    split; [done |]. split; [done |]. split; [done |].
    split; [by apply no_leader_not_LEADER |].
    split; [by rewrite Hq1 | split; congruence].
Qed.

End VotingFacts.

(** * Starting and winning an election *)

Section ElectionStartFacts.
Import PB RaftConsensus.
Variable flags : Flags.
Variable env : Collaborators.

Lemma voter_not_leader_is_follower role :
  IsVoterRole role = true -> role <> LEADER -> role = FOLLOWER.
Proof. by destruct role. Qed.

(** [StartElection] starts an election exactly when the replica is running,
    elections are allowed, it is a voter that is not the leader, its region
    has a voter distribution (flexi-raft without quorum ids) and its own vote
    can be registered; in every mode the election is for the term after the
    current one, with the replica's last logged OpId.  A pre-election that is
    not started leaves the replica as it was. *)
Theorem StartElection_starts_iff (st : t) (mode : ElectionMode) :
  let r := StartElection flags env st mode in
  ((exists req, r.2 = Some req) <->
   state_ st = kRunning /\ start_election_allowed_ st = true /\
   active_role st = FOLLOWER /\
   (enable_flexi_raft flags = true -> use_quorum_id (ActiveConfig (cmeta_ st)) = false ->
    is_Some (voter_distribution (ActiveConfig (cmeta_ st)) !! local_region st)) /\
   RegisterSelfVote env (ActiveConfig (cmeta_ st)) (CurrentTermUnlocked st + 1) = OK) /\
  (forall req, r.2 = Some req ->
     r.1.1 = OK /\ candidate_uuid req = local_uuid st /\
     candidate_term req = CurrentTermUnlocked st + 1 /\
     candidate_last_received req = GetLastOpIdInLog (queue_ st) /\
     ignore_live_leader req
     = match mode with ELECT_EVEN_IF_LEADER_IS_ALIVE => true | _ => false end /\
     is_pre_election req = match mode with PRE_ELECTION => true | _ => false end) /\
  (mode = PRE_ELECTION -> r.1.2 = st).
Proof.
  unfold StartElection, CheckRunningUnlocked.
  destruct (state_ st) eqn:Hstate;
    try (simpl; split; [split; [by intros [? ?] | by intros (? & _)] | by split]).
  destruct (start_election_allowed_ st) eqn:Hallowed; simpl;
    [| split; [split; [by intros [? ?] | by intros (_ & ? & _)] | by split]].
  destruct (active_role st) eqn:Hrole; cbn [IsVoterRole negb];
    try (simpl; split; [split; [by intros [? ?] | by intros (_ & _ & ? & _)] | by split]).
  assert (Hdist :
    (enable_flexi_raft flags && negb (use_quorum_id (ActiveConfig (cmeta_ st)))
     && bool_decide (voter_distribution (ActiveConfig (cmeta_ st)) !! local_region st = None))
    = false <->
    (enable_flexi_raft flags = true -> use_quorum_id (ActiveConfig (cmeta_ st)) = false ->
     is_Some (voter_distribution (ActiveConfig (cmeta_ st)) !! local_region st))).
  { destruct (enable_flexi_raft flags), (use_quorum_id (ActiveConfig (cmeta_ st))); simpl;
      try (split; [by intros | done]).
    case_bool_decide as Hd; split; try done.
    - intros Hs. destruct (Hs eq_refl eq_refl) as [x Hx]. congruence.
    - intros _ _ _. destruct (_ !! _); [by eexists | done]. }
  destruct (_ && _ && bool_decide _).
  { simpl. split; [split; [by intros [? ?] |] | by split].
    intros (_ & _ & _ & Hs & _). apply Hdist in Hs. discriminate. }
  pose proof (proj1 Hdist eq_refl) as Hd. clear Hdist.
  assert (Hset : SetCurrentTermUnlocked st (CurrentTermUnlocked st + 1) SKIP_FLUSH_TO_DISK
                 = (OK, ScheduleTermAdvancementCallback
                          (ClearLeaderUnlocked
                             (with_cmeta st
                                (clear_voted_for
                                   (set_current_term (cmeta_ st)
                                      (CurrentTermUnlocked st + 1)))))
                          (CurrentTermUnlocked st + 1))).
  { unfold SetCurrentTermUnlocked.
    assert ((CurrentTermUnlocked st + 1 <=? CurrentTermUnlocked st) = false) as -> by lia.
    reflexivity. }
  destruct mode.
  - cbv zeta iota. rewrite HandleTermAdvanceUnlocked_unfold by lia.
    unfold stepped_down. rewrite Hrole, Hset. simpl.
    unfold CurrentTermUnlocked, ActiveConfig. simpl.
    destruct (RegisterSelfVote env _ _) eqn:Hreg; simpl;
      (split; [split; [intros [req Hreq]; try done; repeat split; done
                      | intros (_ & _ & _ & _ & Hr); try done; by eexists]
              | split; [intros req Hreq; try done; injection Hreq as <-; by repeat split
                       | done]]).
  - simpl.
    destruct (RegisterSelfVote env _ _) eqn:Hreg; simpl;
      (split; [split; [intros [req Hreq]; try done; repeat split; done
                      | intros (_ & _ & _ & _ & Hr); try done; by eexists]
              | split; [intros req Hreq; try done; injection Hreq as <-; by repeat split
                       | done]]).
  - cbv zeta iota. rewrite HandleTermAdvanceUnlocked_unfold by lia.
    unfold stepped_down. rewrite Hrole, Hset. simpl.
    unfold CurrentTermUnlocked, ActiveConfig. simpl.
    destruct (RegisterSelfVote env _ _) eqn:Hreg; simpl;
      (split; [split; [intros [req Hreq]; try done; repeat split; done
                      | intros (_ & _ & _ & _ & Hr); try done; by eexists]
              | split; [intros req Hreq; try done; injection Hreq as <-; by repeat split
                       | done]]).
Qed.

Lemma BecomeLeaderUnlocked_keeps st s st' :
  BecomeLeaderUnlocked env st = Some (s, st') ->
  cmeta_ st' = cmeta_ st /\ durable_ st' = durable_ st /\
  flush_count_ st' = flush_count_ st /\
  local_uuid st' = local_uuid st /\ state_ st' = state_ st /\
  withhold_votes_until_ st' = TimeMax /\ leader_transfer_in_progress_ st' = false /\
  failed_elections_since_stable_leader_ st' = failed_elections_since_stable_leader_ st.
Proof.
  unfold BecomeLeaderUnlocked, RefreshConsensusQueueAndPeersUnlocked. simpl.
  destruct (negb (ok _)); [by intros [= <- <-] |].
  destruct (disable_noop_ env); [by intros [= <- <-] |].
  unfold AppendNewRoundToQueueUnlocked. simpl.
  unfold AddPendingOperationUnlocked. simpl.
  destruct (AddPendingOperation env _ _) as [s1 p1]. simpl.
  destruct (negb (ok s1)); [by intros [= <- <-] |].
  destruct (AppendOperations env _ _) as [[] q]; try done. by intros [= <- <-].
Qed.

(** The callback of a won real election: a result from a term that is no
    longer the current one, or for a replica that is no longer a voter or is
    already the leader, or that is not running, changes nothing.  Otherwise
    the replica becomes the leader of its current term: term, vote and
    configurations stay as they were, the leader is the replica itself, the
    failed elections are forgotten and votes are withheld from then on.  No
    further election is started. *)
Theorem DoElectionCallback_won (st st' : t) (result : LeaderElection.ElectionResult)
    (req : option VoteRequestPB) :
  LeaderElection.decision result = VoteCounter.VOTE_GRANTED ->
  is_pre_election (LeaderElection.vote_request result) = false ->
  DoElectionCallback flags env st result = Some (st', req) ->
  req = None /\
  (candidate_term (LeaderElection.vote_request result) <> CurrentTermUnlocked st ->
   st' = st) /\
  (st' = st \/
   (state_ st = kRunning /\
    candidate_term (LeaderElection.vote_request result) = CurrentTermUnlocked st /\
    IsRaftConfigVoter (local_uuid st) (ActiveConfig (cmeta_ st)) = true /\
    active_role st <> LEADER /\
    current_term (cmeta_ st') = current_term (cmeta_ st) /\
    voted_for (cmeta_ st') = voted_for (cmeta_ st) /\
    committed_config (cmeta_ st') = committed_config (cmeta_ st) /\
    pending_config (cmeta_ st') = pending_config (cmeta_ st) /\
    leader_uuid (cmeta_ st') = local_uuid st /\
    withhold_votes_until_ st' = TimeMax /\
    leader_transfer_in_progress_ st' = false /\
    failed_elections_since_stable_leader_ st' = 0 /\
    (local_uuid st <> "" -> active_role st' = LEADER))).
Proof.
  intros Hdec Hpre. unfold DoElectionCallback, CheckRunningUnlocked.
  rewrite Hdec, Hpre.
  destruct (state_ st) eqn:Hstate; try (intros [= <- <-]; by auto).
  destruct (Z.eqb_spec (candidate_term (LeaderElection.vote_request result))
              (CurrentTermUnlocked st)) as [Hterm | Hterm]; simpl;
    [| intros [= <- <-]; by auto].
  destruct (IsRaftConfigVoter _ _) eqn:Hvoter; simpl; [| intros [= <- <-]; by auto].
  destruct (active_role st) eqn:Hrole; try (intros [= <- <-]; by auto).
  all: destruct (BecomeLeaderUnlocked env _) as [[[] st2] |] eqn:Hb; try done;
    intros [= <- <-];
    destruct (BecomeLeaderUnlocked_keeps _ _ _ Hb) as (Hc & Hd & Hf & Hu & Hs & Hw & Hl & He);
    simpl in *;
    (split; [done |]); (split; [done |]); right;
    repeat (split; [by rewrite ?Hc |]);
    intros Hne; unfold active_role; rewrite Hc, Hu; simpl;
    unfold GetConsensusRole, ActiveConfig; simpl;
    rewrite bool_decide_eq_false_2 by done;
    unfold IsRaftConfigVoter, ActiveConfig in Hvoter;
    destruct (find_peer _ _) as [p |]; [| done];
    destruct (member_type p); [| done];
    by rewrite bool_decide_eq_true_2.
Qed.

End ElectionStartFacts.

(** * Updates from the leader *)

Section FollowerUpdateFacts.
Import PB RaftConsensus.
Variable flags : Flags.
Variable env : Collaborators.

(** An operation of a request that the replica already has: committed, or
    pending under the same OpId. *)
Definition already_received (st : t) (m : ReplicateMsg) : Prop :=
  index (id m) <= pending_GetCommittedIndex (pending_ st) \/
  (index (id m) <= index (GetLastOpIdInLog (queue_ st)) /\
   GetPendingOpByIndexOrNull (pending_ st) (index (id m)) = Some (id m)).

(** The id of the last of [dropped], or [preceding] when there is none. *)
Definition last_id (preceding : OpId) (dropped : list ReplicateMsg) : OpId :=
  match last dropped with Some m => id m | None => preceding end.

(** The indexes of the pending rounds cover the uncommitted part of the log. *)
Definition pending_covers_log (st : t) (msgs : list ReplicateMsg) : Prop :=
  forall m, m ∈ msgs ->
    pending_GetCommittedIndex (pending_ st) < index (id m) ->
    index (id m) <= index (GetLastOpIdInLog (queue_ st)) ->
    is_Some (GetPendingOpByIndexOrNull (pending_ st) (index (id m))).

(** A run of successful prepares: each operation is started on the replica
    its predecessor left, and the time manager accepts it. *)
Inductive prepares : t -> list ReplicateMsg -> t -> Prop :=
| prepares_nil (st : t) : prepares st [] st
| prepares_cons (st st1 st2 : t) (m : ReplicateMsg) (ms : list ReplicateMsg) :
    StartFollowerTransactionUnlocked env st m = Some (OK, st1) ->
    MessageReceivedFromLeader env m = OK ->
    prepares st1 ms st2 ->
    prepares st (m :: ms) st2.

(** Where the prepare loop stops on the operations [rest] it has not
    prepared: at the first of them, whose start fails and leaves [st'], or,
    when there is none, on the replica [st] as it is. *)
Definition stopped_at (st : t) (rest : list ReplicateMsg) (st' : t) : Prop :=
  match rest with
  | [] => st' = st
  | m :: _ =>
      exists s, StartFollowerTransactionUnlocked env st m = Some (s, st') /\ ok s = false
  end.

Lemma OpId_eqb_eq (a b : OpId) :
  (term a =? term b) && (index a =? index b) = true <-> a = b.
Proof.
  destruct a as [ta ia], b as [tb ib]. simpl.
  rewrite andb_true_iff, !Z.eqb_eq. split; [intros [-> ->]; done | by intros [= -> ->]].
Qed.

Lemma dedup_loop_keeps p c msgs : forall preceding dedup acc,
  (forall m, m ∈ msgs -> c < index (id m) /\ dedup < index (id m)) ->
  dedup_loop p c msgs preceding dedup acc = Some (preceding, acc ++ msgs).
Proof.
  induction msgs as [| m rest IH]; intros preceding dedup acc Hall; simpl.
  - by rewrite app_nil_r.
  - destruct (Hall m) as [Hc Hd]; [by left |].
    assert ((index (id m) <=? c) = false) as -> by lia.
    assert ((index (id m) <=? dedup) = false) as -> by lia.
    rewrite IH; [by rewrite <- app_assoc |].
    intros m' Hm'. apply Hall. by right.
Qed.

Lemma last_id_snoc preceding dropped m :
  last_id preceding (dropped ++ [m]) = id m.
Proof. unfold last_id. by rewrite last_snoc. Qed.

Lemma dedup_loop_drops st msgs : forall preceding dropped0,
  StronglySorted Z.lt (map (fun m => index (id m)) msgs) ->
  pending_covers_log st msgs ->
  exists dropped kept,
    dedup_loop (pending_ st) (pending_GetCommittedIndex (pending_ st)) msgs
      (last_id preceding dropped0) (index (GetLastOpIdInLog (queue_ st))) []
    = Some (last_id preceding (dropped0 ++ dropped), kept) /\
    msgs = dropped ++ kept /\
    (forall m, m ∈ dropped -> already_received st m) /\
    (forall m rest, kept = m :: rest -> ~ already_received st m).
Proof.
  induction msgs as [| m rest IH]; intros preceding dropped0 Hsorted Hcov; simpl.
  - exists [], []. rewrite app_nil_r. repeat split; try done.
    intros m Hm. by apply elem_of_nil in Hm.
  - simpl in Hsorted. apply StronglySorted_inv in Hsorted as [Hrest Hlt].
    assert (Hcov' : pending_covers_log st rest).
    { intros m' Hm'. apply Hcov. by right. }
    assert (Hafter : forall m', m' ∈ rest -> index (id m) < index (id m')).
    { intros m' Hm'. rewrite List.Forall_forall in Hlt. apply Hlt.
      apply list_elem_of_In. apply (list_elem_of_fmap_2 (fun m => index (id m))). done. }
    assert (Hdrop : already_received st m ->
      exists dropped kept,
        dedup_loop (pending_ st) (pending_GetCommittedIndex (pending_ st)) rest
          (id m) (index (GetLastOpIdInLog (queue_ st))) []
        = Some (last_id preceding (dropped0 ++ dropped), kept) /\
        m :: rest = dropped ++ kept /\
        (forall m0, m0 ∈ dropped -> already_received st m0) /\
        (forall m0 rest0, kept = m0 :: rest0 -> ~ already_received st m0)).
    { intros Hm.
      destruct (IH preceding (dropped0 ++ [m]) Hrest Hcov')
        as (dropped & kept & Hrun & Hsplit & Hdup & Hnew).
      rewrite last_id_snoc in Hrun.
      exists (m :: dropped), kept. rewrite <- app_assoc in Hrun.
      split; [exact Hrun |]. split; [by rewrite Hsplit |]. split; [| exact Hnew].
      intros m0 Hm0. apply elem_of_cons in Hm0 as [-> | Hm0]; auto. }
    assert (Hkeep : ~ already_received st m -> forall dedup,
      (dedup = index (GetLastOpIdInLog (queue_ st)) /\ dedup < index (id m)
       \/ dedup = index (id m)) ->
      pending_GetCommittedIndex (pending_ st) < index (id m) ->
      exists dropped kept,
        dedup_loop (pending_ st) (pending_GetCommittedIndex (pending_ st)) rest
          (last_id preceding dropped0) dedup ([] ++ [m])
        = Some (last_id preceding (dropped0 ++ dropped), kept) /\
        m :: rest = dropped ++ kept /\
        (forall m0, m0 ∈ dropped -> already_received st m0) /\
        (forall m0 rest0, kept = m0 :: rest0 -> ~ already_received st m0)).
    { intros Hm dedup Hdedup Hc. exists [], (m :: rest).
      rewrite app_nil_r, dedup_loop_keeps.
      - repeat split; try done.
        + intros m0 Hm0. by apply elem_of_nil in Hm0.
        + intros m0 rest0 [= <- <-]. done.
      - intros m' Hm'. specialize (Hafter m' Hm'). lia. }
    destruct (Z.leb_spec (index (id m)) (pending_GetCommittedIndex (pending_ st)))
      as [Hc | Hc].
    { apply Hdrop. by left. }
    destruct (Z.leb_spec (index (id m)) (index (GetLastOpIdInLog (queue_ st))))
      as [Hd | Hd].
    + destruct (Hcov m) as [round Hround]; [by left | lia | lia |]. rewrite Hround.
      destruct ((term round =? term (id m)) && (index round =? index (id m))) eqn:Heq.
      * apply OpId_eqb_eq in Heq as ->. apply Hdrop. by right.
      * apply Hkeep; [| by right | done].
        intros [? | [_ Hsame]]; [lia |].
        rewrite Hround in Hsame. injection Hsame as ->.
        assert ((term (id m) =? term (id m)) && (index (id m) =? index (id m)) = true)
          by by apply OpId_eqb_eq.
        congruence.
    + apply Hkeep; [| left; split; [done | lia] | done].
      intros [? | [? _]]; lia.
Qed.

(** For a request whose operations have strictly increasing indexes, on a
    replica whose pending rounds cover the uncommitted part of its log,
    [DeduplicateLeaderRequestUnlocked] removes exactly the leading operations
    that the replica already has: what is kept is the rest of the request,
    starting at the first operation it does not have, and the preceding id
    becomes the id of the last operation removed. *)
Theorem DeduplicateLeaderRequestUnlocked_drops_prefix (st : t) (rpc_req : ConsensusRequestPB) :
  StronglySorted Z.lt (map (fun m => index (id m)) (ops rpc_req)) ->
  pending_covers_log st (ops rpc_req) ->
  exists deduped dropped,
    DeduplicateLeaderRequestUnlocked st rpc_req = Some deduped /\
    ops rpc_req = dropped ++ messages deduped /\
    leader_uuid_ deduped = caller_uuid rpc_req /\
    preceding_opid deduped = last_id (preceding_id rpc_req) dropped /\
    (forall m, m ∈ dropped -> already_received st m) /\
    (forall m rest, messages deduped = m :: rest -> ~ already_received st m).
Proof.
  intros Hsorted Hcov. unfold DeduplicateLeaderRequestUnlocked.
  destruct (dedup_loop_drops st (ops rpc_req) (preceding_id rpc_req) [] Hsorted Hcov)
    as (dropped & kept & Hrun & Hsplit & Hdup & Hnew).
  unfold last_id at 1 in Hrun. simpl in Hrun. rewrite Hrun. simpl.
  eexists _, dropped. split; [reflexivity |]. simpl. repeat split; done.
Qed.

Lemma prepare_loop_run msgs : forall st prepared evs st' prepared' s evs',
  prepare_loop env st msgs prepared evs = Some (st', prepared', s, evs') ->
  exists ready rest stp,
    msgs = ready ++ rest /\ prepared' = prepared ++ ready /\
    prepares st ready stp /\ stopped_at stp rest st' /\
    (ok s = true -> rest = []) /\ (ok s = false -> rest <> []).
Proof.
  induction msgs as [| m rest IH]; intros st prepared evs st' prepared' s evs' H;
    simpl in H.
  - injection H as <- <- <- <-. exists [], [], st. rewrite !app_nil_r.
    split; [done |]. split; [done |]. split; [constructor |]. by split.
  - destruct (StartFollowerTransactionUnlocked env st m) as [[s1 st1] |] eqn:Hstart;
      simpl in H; [| done].
    destruct (ok s1) eqn:Hok; simpl in H.
    + destruct (MessageReceivedFromLeader env m) eqn:Htime; try done.
      apply IH in H as (ready & rest' & stp & -> & -> & Hrun & Hstop & Hs & Hf).
      exists (m :: ready), rest', stp. rewrite <- !app_assoc.
      split; [done |]. split; [done |].
      split; [| by split].
      econstructor; [| exact Htime | exact Hrun].
      destruct s1; try discriminate Hok. exact Hstart.
    + injection H as <- <- <- <-. exists [], (m :: rest), st. rewrite app_nil_r.
      split; [done |]. split; [done |]. split; [constructor |].
      split; [by exists s1 |]. split; [congruence | done].
Qed.

(** An accepted update that is not refused for memory pressure.  The
    operations prepared are a leading part of the deduplicated request, each
    started on the replica its predecessor left, and the loop stops at the
    first operation whose start fails.  When none could be prepared of a
    request that carries some, the response reports CANNOT_PREPARE under an
    OK status and the replica stays as the failed start left it: nothing is
    appended and the committed index is not advanced again.  Otherwise
    exactly the prepared operations are appended to the queue the prepares
    left (nothing when there is none), the committed index is advanced to the
    least of the leader's committed index and the index of the last operation
    prepared (the preceding one when there is none), the follower watermarks
    are set from that index, that operation is recorded as the last received
    from the leader, and the status returned is the one the wait for the log
    append ends with (OK when nothing was appended). *)
Theorem UpdateReplica_appends_prepared_prefix (st st' : t) (request : ConsensusRequestPB)
    (response r : ConsensusResponsePB) (d : LeaderRequest) (soft : bool) (now : Z)
    (s : Status) (evs : list Event) :
  UpdateReplica_accepted flags env st request response d soft now = Some (s, r, st', evs) ->
  negb (bool_decide (messages d = [])) && soft = false ->
  exists st1 stp st2 prepared rest,
    messages d = prepared ++ rest /\
    UpdateReplica_early_commit flags env st request d now = Some st1 /\
    prepares st1 prepared stp /\ stopped_at stp rest st2 /\
    (prepared = [] -> rest <> [] ->
       s = OK /\ st' = st2 /\
       status_error r = Some (CANNOT_PREPARE, IllegalState msg_cannot_prepare)) /\
    (prepared <> [] \/ rest = [] ->
       let last_from_leader := last_id (preceding_opid d) prepared in
       let apply_up_to := Z.min (index last_from_leader) (committed_index request) in
       exists q,
         match prepared with
         | [] => q = queue_ st2
         | _ => AppendOperations env (queue_ st2) prepared = (OK, q)
         end /\
         AdvanceCommittedIndex env (pending_ st2) apply_up_to = (OK, pending_ st') /\
         queue_ st' = UpdateFollowerWatermarks env q apply_up_to
                        (all_replicated_index request) (region_durable_index request) /\
         last_received_cur_leader_ st' = last_from_leader /\
         cmeta_ st' = cmeta_ st2 /\
         status_error r = status_error response /\
         s = match prepared with
             | [] => OK
             | _ => WaitForLogAppend env (queue_ st') prepared
             end).
Proof.
  unfold UpdateReplica_accepted. intros H Hsoft.
  destruct (UpdateReplica_early_commit flags env st request d now) as [st1 |];
    simpl in H; [| done].
  rewrite Hsoft in H.
  destruct (prepare_loop env st1 (messages d) [] _) as [[[[st2 prepared] ps] evs2] |] eqn:EP;
    simpl in H; [| done].
  apply prepare_loop_run in EP as (ready & rest & stp & Hmsgs & Hprep & Hrun & Hstop & Hs & Hf).
  simpl in Hprep. subst prepared. exists st1, stp, st2, ready, rest.
  split; [exact Hmsgs |]. split; [done |]. split; [exact Hrun |]. split; [exact Hstop |].
  assert (Hmin : forall a b, (if a <? b then a else b) = Z.min a b).
  { intros a b. destruct (Z.ltb_spec a b); lia. }
  destruct (negb (ok ps) && bool_decide (ready = [])) eqn:Hfail.
  - apply andb_true_iff in Hfail as [Hps Hnil].
    apply bool_decide_eq_true in Hnil. subst ready.
    injection H as <- <- <- _. split; [done |].
    intros [? | Hr]; [done |].
    apply negb_true_iff in Hps. by apply Hf in Hps.
  - assert (Hcase : ready <> [] \/ rest = []).
    { apply andb_false_iff in Hfail as [Hps | Hnil].
      - right. apply Hs. by apply negb_false_iff in Hps.
      - left. by apply bool_decide_eq_false in Hnil. }
    split; [intros -> Hr; by destruct Hcase |]. intros _. cbv zeta.
    unfold last_id.
    destruct (last ready) as [m |] eqn:Hlast.
    + assert (Hne : ready <> []) by (intros ->; done).
      destruct (AppendOperations env (queue_ st2) ready) as [[] q] eqn:Happ;
        simpl in H; try done.
      rewrite Hmin in H.
      destruct (AdvanceCommittedIndex env _ _) as [[] p] eqn:Hadv; try done.
      injection H as <- <- <- _. exists q.
      destruct ready as [| m0 ready']; [done |].
      split; [done |]. split; [reflexivity |]. by repeat split.
    + assert (ready = []) as -> by (by apply last_None).
      simpl in H. rewrite Hmin in H.
      destruct (AdvanceCommittedIndex env _ _) as [[] p] eqn:Hadv; try done.
      injection H as <- <- <- _. exists (queue_ st2).
      split; [done |]. split; [reflexivity |]. by repeat split.
Qed.

End FollowerUpdateFacts.

(** * Pending, committed and edited configurations *)

Section ConfigFacts.
Import PB RaftConsensus.
Variable flags : Flags.
Variable env : Collaborators.

(** What [SetPeerQuorumIds] does to one peer. *)
Definition assign_quorum_id (uuid2quorum_ids : gmap string string) (peer : RaftPeerPB)
  : RaftPeerPB :=
  if is_voter peer then
    match uuid2quorum_ids !! permanent_uuid peer with
    | Some q => set_quorum_id peer q
    | None => peer
    end
  else peer.

(** A voter of the configuration that the map gives no quorum id. *)
Definition voter_unassigned (uuid2quorum_ids : gmap string string) (peer : RaftPeerPB)
  : bool :=
  is_voter peer && bool_decide (uuid2quorum_ids !! permanent_uuid peer = None).

Definition quorum_ids_refused (st : t) (uuid2quorum_ids : gmap string string)
    (force : bool) : bool :=
  negb force
  && (has_commit_rule (ActiveConfig (cmeta_ st)) && use_quorum_id (ActiveConfig (cmeta_ st))
      || has_pending_config (cmeta_ st)
      || existsb (voter_unassigned uuid2quorum_ids) (peers (ActiveConfig (cmeta_ st)))).

Definition with_quorum_ids (st : t) (uuid2quorum_ids : gmap string string) : RaftConfigPB :=
  set_peers (ActiveConfig (cmeta_ st))
    (map (assign_quorum_id uuid2quorum_ids) (peers (ActiveConfig (cmeta_ st)))).

Lemma clear_set_pending_config cm c :
  pending_config cm = None -> clear_pending_config (set_pending_config cm c) = cm.
Proof. destruct cm. simpl. by intros ->. Qed.

Lemma with_cmeta_same st : with_cmeta st (cmeta_ st) = st.
Proof. by destruct st. Qed.

Lemma with_cmeta_twice st a b : with_cmeta (with_cmeta st a) b = with_cmeta st b.
Proof. done. Qed.

(** A configuration change from proposal to outcome, on a replica with no
    pending configuration.  Setting the new configuration as pending makes it
    the active one without touching the committed one or the disk.  If the
    round is then aborted, the replica is exactly as it was before.  If it
    commits, the new configuration becomes the committed one, nothing is
    pending and the two are flushed; but a commit whose index is not above
    that of the committed configuration is ignored and leaves the pending
    configuration in place. *)
Theorem config_change_round_trip (st : t) (round : ReplicateMsg) (status : Status) :
  pending_config (cmeta_ st) = None ->
  VerifyRaftConfig env (new_config round) = OK ->
  UpdateRaftConfig env (new_config round) = OK ->
  UpdateRaftConfig env (committed_config (cmeta_ st)) = OK ->
  opid_index_of (new_config round) = index (id round) ->
  exists st1,
    SetPendingConfigUnlocked env st (new_config round) = Some (OK, st1) /\
    ActiveConfig (cmeta_ st1) = new_config round /\
    committed_config (cmeta_ st1) = committed_config (cmeta_ st) /\
    durable_ st1 = durable_ st /\ flush_count_ st1 = flush_count_ st /\
    (ok status = false ->
       CompleteConfigChangeRoundUnlocked flags env st1 round status = Some st) /\
    (ok status = true -> index (id round) <= committed_config_opid_index st ->
       CompleteConfigChangeRoundUnlocked flags env st1 round status = Some st1) /\
    (ok status = true -> committed_config_opid_index st < index (id round) ->
       exists st2,
         CompleteConfigChangeRoundUnlocked flags env st1 round status = Some st2 /\
         committed_config (cmeta_ st2) = new_config round /\
         pending_config (cmeta_ st2) = None /\
         committed_config (durable_ st2) = new_config round /\
         pending_config (durable_ st2) = None /\
         flush_count_ st2 = S (flush_count_ st) /\
         current_term (cmeta_ st2) = current_term (cmeta_ st) /\
         voted_for (cmeta_ st2) = voted_for (cmeta_ st)).
Proof.
  intros Hnone Hverify Hupdate Hupdate0 Hidx.
  unfold SetPendingConfigUnlocked. rewrite Hverify.
  unfold has_pending_config. rewrite Hnone, andb_false_r.
  unfold ActiveConfig at 1. simpl. rewrite Hupdate.
  eexists. split; [reflexivity |]. simpl.
  split; [done |]. split; [done |]. split; [done |]. split; [done |].
  unfold CompleteConfigChangeRoundUnlocked, committed_config_opid_index. simpl.
  rewrite Hidx, Z.eqb_refl. split; [| split].
  - intros ->. simpl. rewrite clear_set_pending_config by done.
    rewrite with_cmeta_twice, with_cmeta_same.
    unfold ActiveConfig. by rewrite Hnone, Hupdate0.
  - intros -> Hle. simpl.
    assert ((opid_index_of (committed_config (cmeta_ st)) <? index (id round)) = false)
      as -> by lia.
    done.
  - intros -> Hlt. simpl.
    assert ((opid_index_of (committed_config (cmeta_ st)) <? index (id round)) = true)
      as -> by lia.
    unfold SetCommittedConfigUnlocked. rewrite Hverify. simpl.
    rewrite bool_decide_eq_true_2 by done. rewrite !andb_false_r.
    unfold ActiveConfig. simpl. rewrite Hupdate.
    destruct (track_removed_peers flags); eexists; (split; [reflexivity |]); done.
Qed.

Lemma modified_peers_spec ids force (l : list RaftPeerPB) :
  modified_peers l ids force
  = if negb force && existsb (voter_unassigned ids) l then None
    else Some (map (assign_quorum_id ids) l).
Proof.
  induction l as [| p l IH]; simpl; [by rewrite andb_false_r |].
  rewrite IH. unfold voter_unassigned, assign_quorum_id.
  destruct (is_voter p); simpl.
  - destruct (ids !! permanent_uuid p) eqn:Hp; simpl.
    + destruct (negb force && existsb _ l); done.
    + destruct force; simpl; [done | done].
  - destruct (negb force && existsb _ l); done.
Qed.

Lemma ActiveConfig_set_active cm c : ActiveConfig (set_active_config cm c) = c.
Proof.
  unfold set_active_config, has_pending_config, ActiveConfig.
  destruct (pending_config cm) eqn:E; simpl; by rewrite ?E.
Qed.

Lemma refresh_if_leader_cmeta st :
  cmeta_ (refresh_if_leader env st).2 = cmeta_ st /\
  durable_ (refresh_if_leader env st).2 = durable_ st /\
  flush_count_ (refresh_if_leader env st).2 = flush_count_ st.
Proof.
  unfold refresh_if_leader, RefreshConsensusQueueAndPeersUnlocked.
  destruct (active_role st); simpl; try done. by destruct (negb (ok _)).
Qed.

Lemma SetPeerQuorumIds_cases (st : t) (ids : gmap string string) (force : bool) :
  (quorum_ids_refused st ids force = true ->
     (SetPeerQuorumIds env st ids force).2 = st /\
     ok (SetPeerQuorumIds env st ids force).1 = false) /\
  (quorum_ids_refused st ids force = false ->
     cmeta_ (SetPeerQuorumIds env st ids force).2
     = set_active_config (cmeta_ st) (with_quorum_ids st ids) /\
     durable_ (SetPeerQuorumIds env st ids force).2
     = set_active_config (cmeta_ st) (with_quorum_ids st ids)).
Proof.
  unfold quorum_ids_refused, with_quorum_ids.
  unfold SetPeerQuorumIds, CheckNoConfigChangePendingUnlocked.
  rewrite modified_peers_spec.
  destruct force; cbn [negb andb orb].
  - split; [done |]. intros _. cbv zeta.
    match goal with |- context [refresh_if_leader env ?x] =>
      destruct (refresh_if_leader_cmeta x) as (Hc & Hd & _)
    end.
    split; [exact Hc | exact Hd].
  - destruct (has_commit_rule _ && use_quorum_id _); cbn [negb andb orb fst snd ok];
      [by split |].
    destruct (has_pending_config (cmeta_ st)); cbn [negb andb orb fst snd ok]; [by split |].
    destruct (existsb _ _); cbn [negb andb orb fst snd ok]; [by split |].
    split; [done |]. intros _. cbv zeta.
    match goal with |- context [refresh_if_leader env ?x] =>
      destruct (refresh_if_leader_cmeta x) as (Hc & Hd & _)
    end.
    split; [exact Hc | exact Hd].
Qed.

Lemma assign_quorum_id_keeps ids (l : list RaftPeerPB) :
  map permanent_uuid (map (assign_quorum_id ids) l) = map permanent_uuid l /\
  map member_type (map (assign_quorum_id ids) l) = map member_type l /\
  map region (map (assign_quorum_id ids) l) = map region l.
Proof.
  rewrite !map_map. unfold assign_quorum_id.
  repeat split; apply map_ext; intros p; (destruct (is_voter p); [| done]);
    by destruct (_ !! _).
Qed.

(** [SetPeerQuorumIds] without force is refused, leaving the replica as it
    was, when quorum ids are in use, when a configuration change is pending
    or when some voter is given no quorum id.  Otherwise the active
    configuration keeps its peers, in their order, with their member types
    and regions, each voter named in the map receiving its new quorum id and
    nothing else changing, and the result is flushed. *)
Theorem SetPeerQuorumIds_spec (st : t) (uuid2quorum_ids : gmap string string) (force : bool) :
  let r := SetPeerQuorumIds env st uuid2quorum_ids force in
  let config := ActiveConfig (cmeta_ st) in
  (quorum_ids_refused st uuid2quorum_ids force = true -> r.2 = st /\ ok r.1 = false) /\
  (quorum_ids_refused st uuid2quorum_ids force = false ->
     ActiveConfig (cmeta_ r.2)
     = set_peers config (map (assign_quorum_id uuid2quorum_ids) (peers config)) /\
     map permanent_uuid (peers (ActiveConfig (cmeta_ r.2))) = map permanent_uuid (peers config) /\
     map member_type (peers (ActiveConfig (cmeta_ r.2))) = map member_type (peers config) /\
     map region (peers (ActiveConfig (cmeta_ r.2))) = map region (peers config) /\
     durable_ r.2 = cmeta_ r.2 /\
     current_term (cmeta_ r.2) = current_term (cmeta_ st) /\
     voted_for (cmeta_ r.2) = voted_for (cmeta_ st)).
Proof.
  intros r config. subst r.
  destruct (SetPeerQuorumIds_cases st uuid2quorum_ids force) as [Hrefused Hstored].
  split; [exact Hrefused |]. intros Hgo.
  destruct (Hstored Hgo) as [-> ->]. rewrite ActiveConfig_set_active.
  destruct (assign_quorum_id_keeps uuid2quorum_ids (peers config)) as (Hu & Hm & Hr).
  unfold with_quorum_ids. fold config. simpl.
  split; [done |]. split; [done |]. split; [done |]. split; [done |]. split; [done |].
  unfold set_active_config; by destruct (has_pending_config _).
Qed.

Lemma ChangeQuorumType_QUORUM_ID_stored (st : t) :
  has_pending_config (cmeta_ st) = false ->
  has_commit_rule (ActiveConfig (cmeta_ st)) = true ->
  existsb (fun peer => is_voter peer && negb (PeerHasValidQuorumId peer))
          (peers (ActiveConfig (cmeta_ st))) = false ->
  cmeta_ (ChangeQuorumType env st QUORUM_ID).2
  = set_active_config (cmeta_ st) (set_quorum_type (ActiveConfig (cmeta_ st)) QUORUM_ID) /\
  durable_ (ChangeQuorumType env st QUORUM_ID).2
  = set_active_config (cmeta_ st) (set_quorum_type (ActiveConfig (cmeta_ st)) QUORUM_ID).
Proof.
  intros Hpending Hrule Hvalid.
  unfold ChangeQuorumType, CheckNoConfigChangePendingUnlocked.
  rewrite Hpending, Hvalid, Hrule. cbn [negb andb]. cbv zeta.
  match goal with |- context [refresh_if_leader env ?x] =>
    destruct (refresh_if_leader_cmeta x) as (-> & -> & _)
  end.
  done.
Qed.

(** Switching a replica to quorum ids.  On a replica with a commit rule, no
    pending configuration and quorum ids not yet in use, assigning a
    non-empty quorum id to every voter makes the switch of the quorum type to
    QUORUM_ID go through: the active configuration then uses quorum ids, with
    the peers as assigned, and is flushed.  From then on the quorum ids can
    no longer be changed without force. *)
Theorem quorum_ids_then_quorum_type (st : t) (uuid2quorum_ids : gmap string string) :
  has_pending_config (cmeta_ st) = false ->
  has_commit_rule (ActiveConfig (cmeta_ st)) = true ->
  use_quorum_id (ActiveConfig (cmeta_ st)) = false ->
  (forall peer, peer ∈ peers (ActiveConfig (cmeta_ st)) -> is_voter peer = true ->
     exists q, uuid2quorum_ids !! permanent_uuid peer = Some q /\ q <> "") ->
  let st1 := (SetPeerQuorumIds env st uuid2quorum_ids false).2 in
  let st2 := (ChangeQuorumType env st1 QUORUM_ID).2 in
  use_quorum_id (ActiveConfig (cmeta_ st2)) = true /\
  peers (ActiveConfig (cmeta_ st2))
  = map (assign_quorum_id uuid2quorum_ids) (peers (ActiveConfig (cmeta_ st))) /\
  durable_ st2 = cmeta_ st2 /\
  forall other : gmap string string,
    SetPeerQuorumIds env st2 other false = (InvalidArgument msg_quorum_ids_in_use, st2).
Proof.
  intros Hpending Hrule Huse Hall st1 st2.
  assert (Hgo : quorum_ids_refused st uuid2quorum_ids false = false).
  { unfold quorum_ids_refused. rewrite Hpending, Huse, andb_false_r. simpl.
    apply not_true_is_false. rewrite existsb_exists.
    intros (p & Hin & Hun). unfold voter_unassigned in Hun.
    apply andb_true_iff in Hun as [Hv Hun]. apply bool_decide_eq_true in Hun.
    destruct (Hall p (proj2 (list_elem_of_In _ _) Hin) Hv) as (q & Hq & _). congruence. }
  destruct (proj2 (SetPeerQuorumIds_cases st uuid2quorum_ids false) Hgo) as [Hc1 Hd1].
  fold st1 in Hc1, Hd1.
  assert (Hpending1 : has_pending_config (cmeta_ st1) = false).
  { rewrite Hc1. unfold set_active_config. rewrite Hpending.
    unfold has_pending_config in *. simpl. exact Hpending. }
  assert (Hactive1 : ActiveConfig (cmeta_ st1) = with_quorum_ids st uuid2quorum_ids).
  { rewrite Hc1. apply ActiveConfig_set_active. }
  assert (Hvalid : existsb (fun peer => is_voter peer && negb (PeerHasValidQuorumId peer))
                     (peers (ActiveConfig (cmeta_ st1))) = false).
  { apply not_true_is_false. rewrite existsb_exists. intros (p' & Hin & Hbad).
    rewrite Hactive1 in Hin. unfold with_quorum_ids in Hin. simpl in Hin.
    apply in_map_iff in Hin as (p & <- & Hin).
    apply andb_true_iff in Hbad as [Hv Hbad]. unfold assign_quorum_id in Hv, Hbad.
    destruct (is_voter p) eqn:Hvp; [| congruence].
    destruct (Hall p (proj2 (list_elem_of_In _ _) Hin) Hvp) as (q & Hq & Hne).
    rewrite Hq in Hbad. unfold PeerHasValidQuorumId in Hbad. simpl in Hbad.
    rewrite bool_decide_eq_false_2 in Hbad by done. discriminate. }
  assert (Hrule1 : has_commit_rule (ActiveConfig (cmeta_ st1)) = true).
  { rewrite Hactive1. exact Hrule. }
  destruct (ChangeQuorumType_QUORUM_ID_stored st1 Hpending1 Hrule1 Hvalid) as [Hc2 Hd2].
  fold st2 in Hc2, Hd2.
  assert (Hactive2 : ActiveConfig (cmeta_ st2)
                     = set_quorum_type (with_quorum_ids st uuid2quorum_ids) QUORUM_ID).
  { rewrite Hc2, ActiveConfig_set_active. by rewrite Hactive1. }
  split; [by rewrite Hactive2 |].
  split; [by rewrite Hactive2 |].
  split; [by rewrite Hc2, Hd2 |].
  intros other. unfold SetPeerQuorumIds. rewrite Hactive2. simpl.
  unfold has_commit_rule in *. simpl. by rewrite Hrule.
Qed.

End ConfigFacts.

Section ReplicaFactsExamples.
Import PB RaftConsensus Examples.

(** A request whose first operation, (5, 12), the follower already has. *)
Definition example_resent_update : ConsensusRequestPB :=
  mkRequest "B" 5 (mkOpId 5 11)
    [mkMsg (mkOpId 5 12) WRITE_OP empty_RaftConfigPB empty_RaftConfigPB 0 0;
     mkMsg (mkOpId 5 13) WRITE_OP empty_RaftConfigPB empty_RaftConfigPB 0 0]
    11 10 10 13 false true.

(** [example_follower] with its pending round (5, 12) on record. *)
Definition example_follower_pending : t :=
  with_pending example_follower
    (mkPending (mkOpId 5 12) 10 (fun i => if i =? 12 then Some (mkOpId 5 12) else None)).

(** The configuration change that adds the non-voter "D" at index 11. *)
Definition example_config_round : ReplicateMsg :=
  mkMsg (mkOpId 5 11) CHANGE_CONFIG_OP example_config
    (mkConfig (Some 11)
       [mkPeer "A" VOTER "r1" ""; mkPeer "B" VOTER "r1" ""; mkPeer "C" VOTER "r1" "";
        mkPeer "D" NON_VOTER "r1" ""]
       false ∅ None false) 0 0.

Definition example_quorum_ids : gmap string string :=
  {["A" := "q1"; "B" := "q1"; "C" := "q2"]}.

(** [example_replica] with a commit rule in its configuration. *)
Definition example_replica_with_rule : t :=
  let c := mkConfig (Some 1) (peers example_config) false ∅
             (Some FlexibleVoteCounter.STATIC_DISJUNCTION) false in
  let cm := mkCMeta 5 None "B" c None [] in
  with_cmeta (example_replica 5 None "B") cm.

Lemma RequestVote_granted_spec_witness :
  CurrentTermUnlocked
    (RequestVote example_flags (example_replica 5 None "") (example_vote_request "B")
       None true 0).2 = 6.
Proof.
  destruct (RequestVote_granted_spec example_flags (example_replica 5 None "")
              (example_vote_request "B") None true 0) as (_ & _ & _ & [H | H]).
  - by vm_compute.
  - destruct H as (H & _). vm_compute in H. discriminate.
  - destruct H as (local & _ & _ & _ & H). apply H. reflexivity.
Defined.

Lemma RequestVote_stale_log_advances_term_witness :
  consensus_error
    (RequestVote example_flags example_follower (example_vote_request "C") None true 0).1.2
  = Some (LAST_OPID_TOO_OLD, InvalidArgument msg_last_opid_too_old) /\
  CurrentTermUnlocked
    (RequestVote example_flags example_follower (example_vote_request "C") None true 0).2 = 6.
Proof.
  destruct (RequestVote_stale_log_advances_term example_flags example_follower
              (example_vote_request "C") None true 0 (mkOpId 5 12)
              eq_refl eq_refl eq_refl eq_refl)
    as (_ & _ & Herr & _ & _ & Hreal).
  split; [exact Herr |]. apply Hreal. reflexivity.
Defined.

Lemma DoElectionCallback_won_witness :
  exists st',
    DoElectionCallback example_flags example_env (example_replica 5 (Some "A") "")
      (LeaderElection.mkElectionResult (mkVoteRequest "A" 5 (mkOpId 2 10) false false)
         VoteCounter.VOTE_GRANTED 5 "" false)
    = Some (st', None).
Proof.
  destruct (DoElectionCallback example_flags example_env (example_replica 5 (Some "A") "")
              (LeaderElection.mkElectionResult (mkVoteRequest "A" 5 (mkOpId 2 10) false false)
                 VoteCounter.VOTE_GRANTED 5 "" false))
    as [[st' req] |] eqn:Hrun; [| by vm_compute in Hrun].
  exists st'.
  destruct (DoElectionCallback_won example_flags example_env
              (example_replica 5 (Some "A") "") st'
              (LeaderElection.mkElectionResult (mkVoteRequest "A" 5 (mkOpId 2 10) false false)
                 VoteCounter.VOTE_GRANTED 5 "" false)
              req eq_refl eq_refl Hrun)
    as (-> & _).
  reflexivity.
Defined.

Lemma DeduplicateLeaderRequestUnlocked_drops_prefix_witness :
  exists deduped dropped,
    DeduplicateLeaderRequestUnlocked example_follower_pending example_resent_update
    = Some deduped /\
    ops example_resent_update = dropped ++ messages deduped.
Proof.
  destruct (DeduplicateLeaderRequestUnlocked_drops_prefix example_follower_pending
              example_resent_update) as (deduped & dropped & Hrun & Hsplit & _).
  - simpl. repeat constructor; lia.
  - intros m Hm. apply list_elem_of_In in Hm. simpl in Hm.
    destruct Hm as [<- | [<- | []]]; simpl; intros; [by eexists | lia].
  - by exists deduped, dropped.
Defined.

Lemma UpdateReplica_appends_prepared_prefix_witness :
  exists s r st' evs st1 stp st2 prepared rest,
    UpdateReplica_accepted example_flags example_env example_follower example_update
      example_response example_deduped false 0 = Some (s, r, st', evs) /\
    messages example_deduped = prepared ++ rest /\
    prepares example_env st1 prepared stp /\
    stopped_at example_env stp rest st2.
Proof.
  destruct (UpdateReplica_accepted example_flags example_env example_follower example_update
              example_response example_deduped false 0)
    as [[[[s r] st'] evs] |] eqn:Hrun; [| by vm_compute in Hrun].
  destruct (UpdateReplica_appends_prepared_prefix example_flags example_env _ _ _ _ _ _ _ _ _ _
              Hrun eq_refl)
    as (st1 & stp & st2 & prepared & rest & Hsplit & _ & Hprepares & Hstop & _).
  by exists s, r, st', evs, st1, stp, st2, prepared, rest.
Defined.

Lemma config_change_round_trip_witness :
  exists st1,
    SetPendingConfigUnlocked example_env (example_replica 5 None "B")
      (new_config example_config_round) = Some (OK, st1) /\
    CompleteConfigChangeRoundUnlocked example_flags example_env st1 example_config_round
      (Aborted "") = Some (example_replica 5 None "B").
Proof.
  destruct (config_change_round_trip example_flags example_env (example_replica 5 None "B")
              example_config_round (Aborted "") eq_refl eq_refl eq_refl eq_refl eq_refl)
    as (st1 & Hset & _ & _ & _ & _ & Habort & _).
  exists st1. split; [exact Hset |]. apply Habort. reflexivity.
Defined.

Lemma quorum_ids_then_quorum_type_witness :
  use_quorum_id
    (ActiveConfig
       (cmeta_ (ChangeQuorumType example_env
                  (SetPeerQuorumIds example_env example_replica_with_rule
                     example_quorum_ids false).2 QUORUM_ID).2)) = true.
Proof.
  refine (proj1 (quorum_ids_then_quorum_type example_env example_replica_with_rule
                   example_quorum_ids eq_refl eq_refl eq_refl _)).
  intros peer Hin _. apply list_elem_of_In in Hin. simpl in Hin.
  destruct Hin as [<- | [<- | [<- | []]]]; eexists; (split; [by vm_compute | done]).
Defined.

End ReplicaFactsExamples.

